(** * The user-authentication service of go_test_api

    A shallow embedding of [internal/user] (models, store and HTTP handlers)
    over a relational state that follows [migrations/002_users.sql].

    - Go strings are byte sequences and are modelled by [string]; [len] is
      [String.length], a number of bytes.  [strings.TrimSpace],
      [strings.ToLower] and the key folding of [encoding/json] depend on
      Unicode tables of the Go library: they are kept open (class
      [strings.Text]) and every property is proved for all functions that
      behave on ASCII text as the library does.
    - [time.Time] is an instant on the integer line ([Z]); the clock of
      the handlers and [NOW()] of the database read the same instant
      during one request.
    - bcrypt, [crypto/rand] and the failures of the database driver are
      external: their outcomes for one request are collected in [Env].
    - A request body is the sequence of JSON values the decoder reads from
      it, followed either by end of input or by text that is no JSON. *)

From Stdlib Require Import ZArith List String Ascii Bool Lia.
Import ListNotations.

Local Open Scope string_scope.
Local Open Scope list_scope.
Local Open Scope Z_scope.

(** ** ASCII text

    What [strings.TrimSpace] and [strings.ToLower] do to a string all of
    whose bytes are ASCII: the white space is tab, line feed, vertical
    tab, form feed, carriage return and space, and the letters A to Z are
    mapped to a to z. *)

Module ascii_text.

Definition is_ascii_byte (c : ascii) : bool := Nat.ltb (nat_of_ascii c) 128.

Fixpoint is_ascii (s : string) : bool :=
  match s with
  | EmptyString => true
  | String c rest => (is_ascii_byte c && is_ascii rest)%bool
  end.

Definition isSpace (c : ascii) : bool :=
  let n := nat_of_ascii c in
  (Nat.eqb n 32 || (Nat.leb 9 n && Nat.leb n 13))%bool.

Fixpoint TrimLeftSpace (s : string) : string :=
  match s with
  | EmptyString => EmptyString
  | String c rest => if isSpace c then TrimLeftSpace rest else s
  end.

Fixpoint TrimRightSpace (s : string) : string :=
  match s with
  | EmptyString => EmptyString
  | String c rest =>
      match TrimRightSpace rest with
      | EmptyString => if isSpace c then EmptyString else String c EmptyString
      | kept => String c kept
      end
  end.

Definition TrimSpace (s : string) : string := TrimRightSpace (TrimLeftSpace s).

Definition lowerByte (c : ascii) : ascii :=
  let n := nat_of_ascii c in
  if (Nat.leb 65 n && Nat.leb n 90)%bool then ascii_of_nat (n + 32) else c.

Fixpoint ToLower (s : string) : string :=
  match s with
  | EmptyString => EmptyString
  | String c rest => String (lowerByte c) (ToLower rest)
  end.

End ascii_text.

(** ** Package [strings] *)

Module strings.

(** [HasPrefix], [Contains] and [TrimPrefix] compare bytes. *)
Fixpoint HasPrefix (s pre : string) : bool :=
  match pre, s with
  | EmptyString, _ => true
  | String p pre', String c s' => (Ascii.eqb p c && HasPrefix s' pre')%bool
  | String _ _, EmptyString => false
  end.

Fixpoint Contains (s substr : string) : bool :=
  (HasPrefix s substr ||
   match s with
   | EmptyString => false
   | String _ rest => Contains rest substr
   end)%bool.

Fixpoint drop (n : nat) (s : string) : string :=
  match n, s with
  | O, _ => s
  | S n', String _ rest => drop n' rest
  | S _, EmptyString => EmptyString
  end.

Definition TrimPrefix (s pre : string) : string :=
  if HasPrefix s pre then drop (String.length pre) s else s.

(** The functions of the Go library that go by Unicode tables:
    [strings.TrimSpace], [strings.ToLower], and [foldName], by which
    [encoding/json] compares an object key with a field name when they
    are not equal byte by byte.  They are parameters of the model; what
    is used of them is their behaviour on ASCII text. *)
Class Text : Type := {
  TrimSpace : string -> string;
  ToLower : string -> string;
  foldName : string -> string;
  TrimSpace_ascii :
    forall s, ascii_text.is_ascii s = true -> TrimSpace s = ascii_text.TrimSpace s;
  ToLower_ascii :
    forall s, ascii_text.is_ascii s = true -> ToLower s = ascii_text.ToLower s
}.

End strings.

(** ** Errors *)

(** The error values the package tells apart: the sentinels, a PostgreSQL
    error with its SQLSTATE code, and any other failure with its text. *)
Inductive error : Type :=
| ErrNoRows                      (* sql.ErrNoRows *)
| EOF                            (* io.EOF *)
| ErrEmailExists
| errUnauthorized
| PgError (Code : string)        (* *pgconn.PgError *)
| ErrOther (msg : string).

Definition uniqueViolationCode : string := "23505".
Definition foreignKeyViolationCode : string := "23503".

Definition isUniqueViolation (err : error) : bool :=
  match err with
  | PgError Code => String.eqb Code uniqueViolationCode
  | _ => false
  end.

Definition is_ErrNoRows (err : error) : bool :=
  match err with ErrNoRows => true | _ => false end.

Definition is_ErrEmailExists (err : error) : bool :=
  match err with ErrEmailExists => true | _ => false end.

Definition is_EOF (err : error) : bool :=
  match err with EOF => true | _ => false end.

Definition quote : string := String (ascii_of_nat 34) EmptyString.

(** [err.Error()] *)
Definition Error (err : error) : string :=
  match err with
  | ErrNoRows => "sql: no rows in result set"
  | EOF => "EOF"
  | ErrEmailExists => "email already exists"
  | errUnauthorized => "unauthorized"
  | PgError Code => ("ERROR: (SQLSTATE " ++ Code ++ ")")%string
  | ErrOther msg => msg
  end.

Inductive result (A : Type) : Type :=
| Ok (a : A)
| Err (err : error).
Arguments Ok {A} a.
Arguments Err {A} err.

(** ** Models *)

Definition Time := Z.

Record User : Type := mkUser {
  ID : Z;
  Email : string;
  Name : string;
  PasswordHash : string;
  CreatedAt : Time;
  UpdatedAt : Time
}.

Record Session : Type := mkSession {
  Token : string;
  ExpiresAt : Time
}.

Record RegisterRequest : Type := mkRegisterRequest {
  reg_Email : string;
  reg_Password : string;
  reg_Name : string
}.

Record LoginRequest : Type := mkLoginRequest {
  login_Email : string;
  login_Password : string
}.

Record LoginResponse : Type := mkLoginResponse {
  resp_User : User;
  resp_Session : Session
}.

Record UpdateProfileRequest : Type := mkUpdateProfileRequest {
  upd_Email : option string;
  upd_Name : option string
}.

Record ForgotPasswordRequest : Type := mkForgotPasswordRequest {
  forgot_Email : string
}.

Record ResetPasswordRequest : Type := mkResetPasswordRequest {
  reset_Token : string;
  reset_NewPassword : string
}.

(** ** The relational state (migrations/002_users.sql)

    The rows of [user_sessions] and [password_resets] keep the columns the
    queries read or write; their own [id] and [created_at] are never
    read. *)

Record TokenRow : Type := mkTokenRow {
  user_id : Z;
  token : string;
  expires_at : Time
}.

Record DB : Type := mkDB {
  users : list User;
  users_id_seq : Z;
  user_sessions : list TokenRow;
  password_resets : list TokenRow
}.

Definition set_users (db : DB) (us : list User) : DB :=
  mkDB us (users_id_seq db) (user_sessions db) (password_resets db).

Definition has_user_id (db : DB) (id : Z) : bool :=
  existsb (fun u => ID u =? id) (users db).

Definition has_token (rows : list TokenRow) (tok : string) : bool :=
  existsb (fun r => String.eqb (token r) tok) rows.

(** The constraints of the schema: primary key and [UNIQUE] columns,
    [REFERENCES users(id)], and a sequence ahead of every id handed out. *)
Record db_wf (db : DB) : Prop := {
  wf_ids : NoDup (map ID (users db));
  wf_emails : NoDup (map Email (users db));
  wf_seq : forall u, In u (users db) -> ID u < users_id_seq db;
  wf_session_tokens : NoDup (map token (user_sessions db));
  wf_session_fk : forall r, In r (user_sessions db) -> has_user_id db (user_id r) = true;
  wf_reset_tokens : NoDup (map token (password_resets db));
  wf_reset_fk : forall r, In r (password_resets db) -> has_user_id db (user_id r) = true
}.

(** ** SQL statements

    Each statement is a function from the state to its outcome and the
    state it leaves.  A statement that violates a constraint raises the
    PostgreSQL error with the matching SQLSTATE and leaves the tables as
    they were. *)

Definition first_row {A : Type} (rows : list A) : result A :=
  match rows with
  | r :: _ => Ok r
  | [] => Err ErrNoRows
  end.

(** INSERT INTO users (email, name, password_hash) VALUES ($1, $2, $3)
    RETURNING ... ; the id is drawn from the sequence before the unique
    index is checked, so a rejected insert still advances the sequence. *)
Definition sql_insert_user (now : Time) (email name passwordHash : string)
    (db : DB) : result User * DB :=
  let id := users_id_seq db in
  if existsb (fun u => String.eqb (Email u) email) (users db) then
    (Err (PgError uniqueViolationCode),
     mkDB (users db) (id + 1) (user_sessions db) (password_resets db))
  else
    let user := mkUser id email name passwordHash now now in
    (Ok user,
     mkDB (users db ++ [user]) (id + 1) (user_sessions db) (password_resets db)).

(** SELECT ... FROM users WHERE email = $1 *)
Definition sql_select_user_by_email (email : string) (db : DB) : result User * DB :=
  (first_row (filter (fun u => String.eqb (Email u) email) (users db)), db).

(** SELECT ... FROM users WHERE id = $1 *)
Definition sql_select_user_by_id (id : Z) (db : DB) : result User * DB :=
  (first_row (filter (fun u => ID u =? id) (users db)), db).

Definition COALESCE (v : option string) (old : string) : string :=
  match v with
  | Some s => s
  | None => old
  end.

Definition update_profile_row (now : Time) (email name : option string) (u : User) : User :=
  mkUser (ID u) (COALESCE email (Email u)) (COALESCE name (Name u))
         (PasswordHash u) (CreatedAt u) now.

(** UPDATE users SET email = COALESCE($1, email), name = COALESCE($2, name),
    updated_at = NOW() WHERE id = $3 RETURNING ... *)
Definition sql_update_user (now : Time) (email name : option string) (id : Z)
    (db : DB) : result User * DB :=
  let clash (u : User) :=
    existsb (fun o => negb (ID o =? id) && String.eqb (Email o) (Email u))%bool (users db) in
  let updated := map (update_profile_row now email name)
                     (filter (fun u => ID u =? id) (users db)) in
  if existsb clash updated then (Err (PgError uniqueViolationCode), db)
  else
    (first_row updated,
     set_users db (map (fun u => if ID u =? id then update_profile_row now email name u else u)
                       (users db))).

Definition insert_token_row (db : DB) (rows : list TokenRow) (row : TokenRow)
  : result (list TokenRow) :=
  if negb (has_user_id db (user_id row)) then Err (PgError foreignKeyViolationCode)
  else if has_token rows (token row) then Err (PgError uniqueViolationCode)
  else Ok (rows ++ [row]).

(** INSERT INTO user_sessions (user_id, token, expires_at) VALUES ($1, $2, $3)
    RETURNING token, expires_at *)
Definition sql_insert_session (userID : Z) (tok : string) (expiresAt : Time)
    (db : DB) : result Session * DB :=
  match insert_token_row db (user_sessions db) (mkTokenRow userID tok expiresAt) with
  | Ok rows => (Ok (mkSession tok expiresAt),
                mkDB (users db) (users_id_seq db) rows (password_resets db))
  | Err err => (Err err, db)
  end.

Definition live (now : Time) (tok : string) (r : TokenRow) : bool :=
  (String.eqb (token r) tok && (now <? expires_at r))%bool.

(** SELECT u.* FROM user_sessions s JOIN users u ON u.id = s.user_id
    WHERE s.token = $1 AND s.expires_at > NOW() *)
Definition sql_select_user_by_session (now : Time) (tok : string)
    (db : DB) : result User * DB :=
  (first_row
     (flat_map (fun s => filter (fun u => ID u =? user_id s) (users db))
               (filter (live now tok) (user_sessions db))),
   db).

(** INSERT INTO password_resets (user_id, token, expires_at) VALUES ($1, $2, $3) *)
Definition sql_insert_reset (userID : Z) (tok : string) (expiresAt : Time)
    (db : DB) : result unit * DB :=
  match insert_token_row db (password_resets db) (mkTokenRow userID tok expiresAt) with
  | Ok rows => (Ok tt, mkDB (users db) (users_id_seq db) (user_sessions db) rows)
  | Err err => (Err err, db)
  end.

(** SELECT user_id FROM password_resets
    WHERE token = $1 AND expires_at > NOW() FOR UPDATE *)
Definition sql_select_reset_for_update (now : Time) (tok : string)
    (db : DB) : result Z * DB :=
  (first_row (map user_id (filter (live now tok) (password_resets db))), db).

Definition set_password_row (now : Time) (newHash : string) (u : User) : User :=
  mkUser (ID u) (Email u) (Name u) newHash (CreatedAt u) now.

(** UPDATE users SET password_hash = $1, updated_at = NOW() WHERE id = $2
    RETURNING ... *)
Definition sql_update_password (now : Time) (newHash : string) (userID : Z)
    (db : DB) : result User * DB :=
  (first_row (map (set_password_row now newHash)
                  (filter (fun u => ID u =? userID) (users db))),
   set_users db (map (fun u => if ID u =? userID then set_password_row now newHash u else u)
                     (users db))).

(** DELETE FROM password_resets WHERE token = $1 *)
Definition sql_delete_reset (tok : string) (db : DB) : result unit * DB :=
  (Ok tt,
   mkDB (users db) (users_id_seq db) (user_sessions db)
        (filter (fun r => negb (String.eqb (token r) tok)) (password_resets db))).

(** ** The store (database/sql over the statements) *)

(** A call to the driver either fails before the statement takes effect
    (lost connection, cancelled context: [f = Some err]) or runs it. *)
Definition run {A : Type} (f : option error) (stmt : DB -> result A * DB)
    (db : DB) : result A * DB :=
  match f with
  | Some err => (Err err, db)
  | None => stmt db
  end.

Definition CreateUser (f : option error) (now : Time) (db : DB)
    (email name passwordHash : string) : result User * DB :=
  match run f (sql_insert_user now email name passwordHash) db with
  | (Err err, db') =>
      if isUniqueViolation err then (Err ErrEmailExists, db') else (Err err, db')
  | (Ok user, db') => (Ok user, db')
  end.

Definition GetUserByEmail (f : option error) (db : DB) (email : string)
  : result User * DB :=
  run f (sql_select_user_by_email email) db.

Definition GetUserByID (f : option error) (db : DB) (id : Z) : result User * DB :=
  run f (sql_select_user_by_id id) db.

(** [nullableString] turns the optional field into a nullable parameter;
    [option string] stands for both. *)
Definition nullableString (value : option string) : option string := value.

Definition UpdateUser (f : option error) (now : Time) (db : DB) (id : Z)
    (input : UpdateProfileRequest) : result User * DB :=
  match run f (sql_update_user now (nullableString (upd_Email input))
                               (nullableString (upd_Name input)) id) db with
  | (Err err, db') =>
      if isUniqueViolation err then (Err ErrEmailExists, db') else (Err err, db')
  | (Ok user, db') => (Ok user, db')
  end.

Definition CreateSession (f : option error) (db : DB) (userID : Z)
    (tok : string) (expiresAt : Time) : result Session * DB :=
  run f (sql_insert_session userID tok expiresAt) db.

Definition GetUserBySessionToken (f : option error) (now : Time) (db : DB)
    (tok : string) : result User * DB :=
  run f (sql_select_user_by_session now tok) db.

Definition CreatePasswordReset (f : option error) (db : DB) (userID : Z)
    (tok : string) (expiresAt : Time) : result unit * DB :=
  run f (sql_insert_reset userID tok expiresAt) db.

(** *** Transactions

    [sql.Tx]: the statements of a transaction act on its working state;
    [Commit] installs the working state as the state of the database,
    [Rollback] drops it; both close the transaction, after which
    [Rollback] does nothing. *)
Record Tx : Type := mkTx {
  tx_work : DB;
  tx_done : bool
}.

Definition ErrTxDone : error :=
  ErrOther "sql: transaction has already been committed or rolled back".

Definition BeginTx (f : option error) (db : DB) : result Tx :=
  match f with
  | Some err => Err err
  | None => Ok (mkTx db false)
  end.

Definition tx_run {A : Type} (f : option error) (stmt : DB -> result A * DB)
    (tx : Tx) : result A * Tx :=
  if tx_done tx then (Err ErrTxDone, tx)
  else
    let (r, work) := run f stmt (tx_work tx) in
    (r, mkTx work false).

Definition Commit (f : option error) (db : DB) (tx : Tx) : option error * DB * Tx :=
  if tx_done tx then (Some ErrTxDone, db, tx)
  else
    match f with
    | Some err => (Some err, db, mkTx (tx_work tx) true)
    | None => (None, tx_work tx, mkTx (tx_work tx) true)
    end.

Definition Rollback (db : DB) (tx : Tx) : DB * Tx :=
  (db, mkTx (tx_work tx) true).

(** The body of [ConsumePasswordReset] between [BeginTx] and the deferred
    [Rollback]; [f n] is the failure of the n-th call to the driver. *)
Definition consume_steps (f : nat -> option error) (now : Time) (db : DB) (tx : Tx)
    (tok newHash : string) : result User * DB * Tx :=
  match tx_run (f 1%nat) (sql_select_reset_for_update now tok) tx with
  | (Err err, tx1) => (Err err, db, tx1)
  | (Ok userID, tx1) =>
      match tx_run (f 2%nat) (sql_update_password now newHash userID) tx1 with
      | (Err err, tx2) => (Err err, db, tx2)
      | (Ok user, tx2) =>
          match tx_run (f 3%nat) (sql_delete_reset tok) tx2 with
          | (Err err, tx3) => (Err err, db, tx3)
          | (Ok _, tx3) =>
              match Commit (f 4%nat) db tx3 with
              | (Some err, db', tx4) => (Err err, db', tx4)
              | (None, db', tx4) => (Ok user, db', tx4)
              end
          end
      end
  end.

Definition ConsumePasswordReset (f : nat -> option error) (now : Time) (db : DB)
    (tok newHash : string) : result User * DB :=
  match BeginTx (f 0%nat) db with
  | Err err => (Err err, db)
  | Ok tx =>
      let '(res, db', tx') := consume_steps f now db tx tok newHash in
      let (db'', _) := Rollback db' tx' in
      (res, db'')
  end.

(** ** JSON *)

#[local] Set Warnings "-register-all".

Inductive JSON : Type :=
| JNull
| JBool (b : bool)
| JNumber (n : Z)
| JString (s : string)
| JTime (t : Time)               (* a time.Time, written as an RFC 3339 string *)
| JArray (items : list JSON)
| JObject (fields : list (string * JSON)).

(** [json.Marshal] of the models, by their struct tags: [PasswordHash] is
    tagged [json:"-"]. *)
Definition json_User (u : User) : JSON :=
  JObject [("id", JNumber (ID u));
           ("email", JString (Email u));
           ("name", JString (Name u));
           ("created_at", JTime (CreatedAt u));
           ("updated_at", JTime (UpdatedAt u))].

Definition json_Session (s : Session) : JSON :=
  JObject [("token", JString (Token s)); ("expires_at", JTime (ExpiresAt s))].

Definition json_LoginResponse (r : LoginResponse) : JSON :=
  JObject [("user", json_User (resp_User r)); ("session", json_Session (resp_Session r))].

Record Response : Type := mkResponse {
  status : Z;
  body : JSON
}.

Definition StatusOK : Z := 200.
Definition StatusCreated : Z := 201.
Definition StatusBadRequest : Z := 400.
Definition StatusUnauthorized : Z := 401.
Definition StatusNotFound : Z := 404.
Definition StatusConflict : Z := 409.
Definition StatusInternalServerError : Z := 500.

Definition writeJSON (st : Z) (v : JSON) : Response := mkResponse st v.

Definition writeError (st : Z) (message : string) : Response :=
  writeJSON st (JObject [("error", JString message)]).

(** *** Request bodies and the decoder *)

Record Body : Type := mkBody {
  values : list JSON;            (* the JSON values in the body, in order *)
  trailing : option string       (* the read or syntax error after them, if any *)
}.

Definition next_value (b : Body) : result JSON * Body :=
  match values b with
  | v :: rest => (Ok v, mkBody rest (trailing b))
  | [] =>
      match trailing b with
      | Some msg => (Err (ErrOther msg), b)
      | None => (Err EOF, b)
      end
  end.

Definition kind_of (v : JSON) : string :=
  match v with
  | JNull => "null"
  | JBool _ => "bool"
  | JNumber _ => "number"
  | JString _ | JTime _ => "string"
  | JArray _ => "array"
  | JObject _ => "object"
  end.

Definition UnmarshalTypeError (v : JSON) (into : string) : error :=
  ErrOther ("json: cannot unmarshal " ++ kind_of v ++ " into Go value of type " ++ into)%string.

Definition unknown_field (key : string) : error :=
  ErrOther ("json: unknown field " ++ quote ++ key ++ quote)%string.

(** How a JSON value lands in a field of type [string] and [*string]. *)
Definition set_string {A : Type} (upd : string -> A -> A) (v : JSON) (dst : A) : result A :=
  match v with
  | JString s => Ok (upd s dst)
  | JNull => Ok dst
  | _ => Err (UnmarshalTypeError v "string")
  end.

Definition set_string_ptr {A : Type} (upd : option string -> A -> A) (v : JSON) (dst : A)
  : result A :=
  match v with
  | JString s => Ok (upd (Some s) dst)
  | JNull => Ok (upd None dst)
  | _ => Err (UnmarshalTypeError v "string")
  end.

Definition struct_fields (A : Type) : Type := list (string * (JSON -> A -> result A)).

Section Handlers.
Context {text : strings.Text}.

(** A key names the field it equals byte by byte, or else the first
    field with the same folded name. *)
Definition field_of {A : Type} (fields : struct_fields A) (key : string)
  : option (string * (JSON -> A -> result A)) :=
  match find (fun fld => String.eqb key (fst fld)) fields with
  | Some fld => Some fld
  | None =>
      find (fun fld => String.eqb (strings.foldName key) (strings.foldName (fst fld))) fields
  end.

(** With [DisallowUnknownFields]; the first error met is the one reported. *)
Fixpoint unmarshal_fields {A : Type} (fields : struct_fields A)
    (kvs : list (string * JSON)) (dst : A) : result A :=
  match kvs with
  | [] => Ok dst
  | (key, v) :: rest =>
      match field_of fields key with
      | None => Err (unknown_field key)
      | Some (_, set) =>
          match set v dst with
          | Ok dst' => unmarshal_fields fields rest dst'
          | Err err => Err err
          end
      end
  end.

Definition unmarshal {A : Type} (typ : string) (fields : struct_fields A) (zero : A)
    (v : JSON) : result A :=
  match v with
  | JNull => Ok zero
  | JObject kvs => unmarshal_fields fields kvs zero
  | _ => Err (UnmarshalTypeError v typ)
  end.

(** [dec.Decode(dst)] *)
Definition Decode {A : Type} (unm : JSON -> result A) (b : Body) : result A * Body :=
  match next_value b with
  | (Err err, b') => (Err err, b')
  | (Ok v, b') => (unm v, b')
  end.

Definition decodeJSON {A : Type} (unm : JSON -> result A) (b : Body) : result A :=
  match Decode unm b with
  | (Err err, _) => Err err
  | (Ok dst, b') =>
      match Decode (unmarshal "struct {}" [] tt) b' with
      | (Err err, _) =>
          if is_EOF err then Ok dst
          else Err (ErrOther "body must contain a single JSON object")
      | (Ok _, _) => Err (ErrOther "body must contain a single JSON object")
      end
  end.

Definition RegisterRequest_fields : struct_fields RegisterRequest :=
  [("email", set_string (fun s r => mkRegisterRequest s (reg_Password r) (reg_Name r)));
   ("password", set_string (fun s r => mkRegisterRequest (reg_Email r) s (reg_Name r)));
   ("name", set_string (fun s r => mkRegisterRequest (reg_Email r) (reg_Password r) s))].

Definition unmarshal_RegisterRequest : JSON -> result RegisterRequest :=
  unmarshal "user.RegisterRequest" RegisterRequest_fields (mkRegisterRequest "" "" "").

Definition LoginRequest_fields : struct_fields LoginRequest :=
  [("email", set_string (fun s r => mkLoginRequest s (login_Password r)));
   ("password", set_string (fun s r => mkLoginRequest (login_Email r) s))].

Definition unmarshal_LoginRequest : JSON -> result LoginRequest :=
  unmarshal "user.LoginRequest" LoginRequest_fields (mkLoginRequest "" "").

Definition UpdateProfileRequest_fields : struct_fields UpdateProfileRequest :=
  [("email", set_string_ptr (fun s r => mkUpdateProfileRequest s (upd_Name r)));
   ("name", set_string_ptr (fun s r => mkUpdateProfileRequest (upd_Email r) s))].

Definition unmarshal_UpdateProfileRequest : JSON -> result UpdateProfileRequest :=
  unmarshal "user.UpdateProfileRequest" UpdateProfileRequest_fields
            (mkUpdateProfileRequest None None).

Definition ForgotPasswordRequest_fields : struct_fields ForgotPasswordRequest :=
  [("email", set_string (fun s _ => mkForgotPasswordRequest s))].

Definition unmarshal_ForgotPasswordRequest : JSON -> result ForgotPasswordRequest :=
  unmarshal "user.ForgotPasswordRequest" ForgotPasswordRequest_fields
            (mkForgotPasswordRequest "").

Definition ResetPasswordRequest_fields : struct_fields ResetPasswordRequest :=
  [("token", set_string (fun s r => mkResetPasswordRequest s (reset_NewPassword r)));
   ("new_password", set_string (fun s r => mkResetPasswordRequest (reset_Token r) s))].

Definition unmarshal_ResetPasswordRequest : JSON -> result ResetPasswordRequest :=
  unmarshal "user.ResetPasswordRequest" ResetPasswordRequest_fields
            (mkResetPasswordRequest "" "").

(** ** The handlers *)

(** What one request meets outside the program. *)
Record Env : Type := mkEnv {
  Now : Time;                                       (* time.Now() and NOW() *)
  hashPassword : string -> result string;           (* bcrypt.GenerateFromPassword *)
  verifyPassword : string -> string -> option error; (* bcrypt.CompareHashAndPassword *)
  generateToken : Z -> result string;               (* hex of [size] bytes of crypto/rand *)
  fault : nat -> option error                       (* failure of the n-th driver call *)
}.

Record Request : Type := mkRequest {
  Authorization : string;
  req_body : Body
}.

Definition minPasswordLength : Z := 8.
Definition sessionTTL : Z := 24 * 3600 * 1000000000.
Definition resetTTL : Z := 30 * 60 * 1000000000.

Definition len (s : string) : Z := Z.of_nat (String.length s).

Definition normalizeEmail (value : string) : string :=
  strings.ToLower (strings.TrimSpace value).

Definition isValidEmail (value : string) : bool :=
  (negb (String.eqb value "") && strings.Contains value "@")%bool.

Definition handleRegister (env : Env) (db : DB) (r : Request) : Response * DB :=
  match decodeJSON unmarshal_RegisterRequest (req_body r) with
  | Err err => (writeError StatusBadRequest (Error err), db)
  | Ok input =>
      let email := normalizeEmail (reg_Email input) in
      let name := strings.TrimSpace (reg_Name input) in
      if negb (isValidEmail email) then
        (writeError StatusBadRequest "invalid email", db)
      else if String.eqb name "" then
        (writeError StatusBadRequest "name is required", db)
      else if len (reg_Password input) <? minPasswordLength then
        (writeError StatusBadRequest "password too short", db)
      else
        match hashPassword env (reg_Password input) with
        | Err _ => (writeError StatusInternalServerError "failed to hash password", db)
        | Ok hash =>
            match CreateUser (fault env 0) (Now env) db email name hash with
            | (Err err, db') =>
                if is_ErrEmailExists err then
                  (writeError StatusConflict "email already exists", db')
                else
                  (writeError StatusInternalServerError "failed to create user", db')
            | (Ok user, db') => (writeJSON StatusCreated (json_User user), db')
            end
        end
  end.

Definition handleLogin (env : Env) (db : DB) (r : Request) : Response * DB :=
  match decodeJSON unmarshal_LoginRequest (req_body r) with
  | Err err => (writeError StatusBadRequest (Error err), db)
  | Ok input =>
      let email := normalizeEmail (login_Email input) in
      if negb (isValidEmail email) then
        (writeError StatusBadRequest "invalid email", db)
      else
        match GetUserByEmail (fault env 0) db email with
        | (Err err, db1) =>
            if is_ErrNoRows err then
              (writeError StatusUnauthorized "invalid credentials", db1)
            else
              (writeError StatusInternalServerError "failed to load user", db1)
        | (Ok user, db1) =>
            match verifyPassword env (PasswordHash user) (login_Password input) with
            | Some _ => (writeError StatusUnauthorized "invalid credentials", db1)
            | None =>
                match generateToken env 32 with
                | Err _ =>
                    (writeError StatusInternalServerError "failed to create session", db1)
                | Ok tok =>
                    let expiresAt := Now env + sessionTTL in
                    match CreateSession (fault env 1) db1 (ID user) tok expiresAt with
                    | (Err _, db2) =>
                        (writeError StatusInternalServerError "failed to create session", db2)
                    | (Ok session, db2) =>
                        (writeJSON StatusOK
                           (json_LoginResponse (mkLoginResponse user session)), db2)
                    end
                end
            end
        end
  end.

Definition handleForgotPassword (env : Env) (db : DB) (r : Request) : Response * DB :=
  match decodeJSON unmarshal_ForgotPasswordRequest (req_body r) with
  | Err err => (writeError StatusBadRequest (Error err), db)
  | Ok input =>
      let email := normalizeEmail (forgot_Email input) in
      if negb (isValidEmail email) then
        (writeError StatusBadRequest "invalid email", db)
      else
        match GetUserByEmail (fault env 0) db email with
        | (Err err, db1) =>
            if is_ErrNoRows err then
              (writeJSON StatusOK
                 (JObject [("message",
                            JString "if the account exists, a reset token was generated")]),
               db1)
            else
              (writeError StatusInternalServerError "failed to create reset token", db1)
        | (Ok user, db1) =>
            match generateToken env 32 with
            | Err _ =>
                (writeError StatusInternalServerError "failed to create reset token", db1)
            | Ok tok =>
                let expiresAt := Now env + resetTTL in
                match CreatePasswordReset (fault env 1) db1 (ID user) tok expiresAt with
                | (Err _, db2) =>
                    (writeError StatusInternalServerError "failed to create reset token", db2)
                | (Ok _, db2) =>
                    (writeJSON StatusOK
                       (JObject [("expires_at", JTime expiresAt);
                                 ("message", JString "use token to reset password");
                                 ("token", JString tok)]),
                     db2)
                end
            end
        end
  end.

Definition handleResetPassword (env : Env) (db : DB) (r : Request) : Response * DB :=
  match decodeJSON unmarshal_ResetPasswordRequest (req_body r) with
  | Err err => (writeError StatusBadRequest (Error err), db)
  | Ok input =>
      let tok := strings.TrimSpace (reset_Token input) in
      if String.eqb tok "" then
        (writeError StatusBadRequest "token is required", db)
      else if len (reset_NewPassword input) <? minPasswordLength then
        (writeError StatusBadRequest "password too short", db)
      else
        match hashPassword env (reset_NewPassword input) with
        | Err _ => (writeError StatusInternalServerError "failed to hash password", db)
        | Ok hash =>
            match ConsumePasswordReset (fault env) (Now env) db tok hash with
            | (Err err, db') =>
                if is_ErrNoRows err then
                  (writeError StatusBadRequest "invalid or expired token", db')
                else
                  (writeError StatusInternalServerError "failed to reset password", db')
            | (Ok _, db') =>
                (writeJSON StatusOK
                   (JObject [("message", JString "password reset successfully")]), db')
            end
        end
  end.

Definition authenticate (env : Env) (db : DB) (r : Request) : result User * DB :=
  let authHeader := Authorization r in
  if (String.eqb authHeader "" || negb (strings.HasPrefix authHeader "Bearer "))%bool then
    (Err errUnauthorized, db)
  else
    let tok := strings.TrimSpace (strings.TrimPrefix authHeader "Bearer ") in
    if String.eqb tok "" then (Err errUnauthorized, db)
    else
      match GetUserBySessionToken (fault env 0) (Now env) db tok with
      | (Err err, db') =>
          if is_ErrNoRows err then (Err errUnauthorized, db') else (Err err, db')
      | (Ok user, db') => (Ok user, db')
      end.

Definition handleGetProfile (env : Env) (db : DB) (r : Request) : Response * DB :=
  match authenticate env db r with
  | (Err _, db') => (writeError StatusUnauthorized "unauthorized", db')
  | (Ok user, db') => (writeJSON StatusOK (json_User user), db')
  end.

Definition handleUpdateProfile (env : Env) (db : DB) (r : Request) : Response * DB :=
  match authenticate env db r with
  | (Err _, db0) => (writeError StatusUnauthorized "unauthorized", db0)
  | (Ok currentUser, db0) =>
      match decodeJSON unmarshal_UpdateProfileRequest (req_body r) with
      | Err err => (writeError StatusBadRequest (Error err), db0)
      | Ok input =>
          match upd_Email input, upd_Name input with
          | None, None => (writeError StatusBadRequest "provide email or name", db0)
          | oemail, oname =>
              let email := option_map normalizeEmail oemail in
              if match email with Some value => negb (isValidEmail value) | None => false end
              then (writeError StatusBadRequest "invalid email", db0)
              else
                let name := option_map strings.TrimSpace oname in
                if match name with Some value => String.eqb value "" | None => false end
                then (writeError StatusBadRequest "name cannot be empty", db0)
                else
                  match UpdateUser (fault env 1) (Now env) db0 (ID currentUser)
                                   (mkUpdateProfileRequest email name) with
                  | (Err err, db1) =>
                      if is_ErrEmailExists err then
                        (writeError StatusConflict "email already exists", db1)
                      else if is_ErrNoRows err then
                        (writeError StatusNotFound "user not found", db1)
                      else
                        (writeError StatusInternalServerError "failed to update user", db1)
                  | (Ok user, db1) => (writeJSON StatusOK (json_User user), db1)
                  end
          end
      end
  end.

End Handlers.

(** ** Two calls of [ConsumePasswordReset] in flight

    Each call runs its own transaction at PostgreSQL's default isolation
    level: a statement reads the committed state overlaid with the writes
    of its own transaction, and the writes reach the committed state at
    [Commit].  [SELECT ... FOR UPDATE] locks the rows it returns until the
    transaction ends and waits while another transaction holds one of
    them; once it goes on it reads the state committed by then. *)

Module Concurrent.

Inductive write : Type :=
| WPassword (userID : Z) (newHash : string) (at_time : Time)
| WDeleteReset (tok : string).

Definition apply_write (db : DB) (w : write) : DB :=
  match w with
  | WPassword userID newHash t => snd (sql_update_password t newHash userID db)
  | WDeleteReset tok => snd (sql_delete_reset tok db)
  end.

Definition apply_writes (ws : list write) (db : DB) : DB :=
  fold_left apply_write ws db.

(** Where a call stands: before each of its five driver calls, or back
    with its result. *)
Inductive phase : Type :=
| AtBegin
| AtSelect
| AtUpdate (userID : Z)
| AtDelete (user : User)
| AtCommit (user : User)
| Returned (res : result User).

Record Call : Type := mkCall {
  c_token : string;
  c_newHash : string;
  c_now : Time;
  c_fault : nat -> option error
}.

Record Thread : Type := mkThread {
  th_phase : phase;
  th_writes : list write
}.

Record World : Type := mkWorld {
  committed : DB;
  left : Thread;
  right : Thread
}.

Definition start (db : DB) : World :=
  mkWorld db (mkThread AtBegin []) (mkThread AtBegin []).

(** The rows a transaction holds locked: those its [FOR UPDATE] returned,
    from the lookup until it ends. *)
Definition holds_lock (c : Call) (t : Thread) (r : TokenRow) : bool :=
  match th_phase t with
  | AtUpdate _ | AtDelete _ | AtCommit _ => live (c_now c) (c_token c) r
  | _ => false
  end.

Definition back (res : result User) : Thread := mkThread (Returned res) [].

(** One driver call of the transaction [t] of call [me], next to the
    transaction [t'] of call [other]. *)
Definition step (me other : Call) (t' : Thread) (db : DB) (t : Thread) : DB * Thread :=
  let view := apply_writes (th_writes t) db in
  match th_phase t with
  | AtBegin =>
      match c_fault me 0%nat with
      | Some err => (db, back (Err err))
      | None => (db, mkThread AtSelect [])
      end
  | AtSelect =>
      match c_fault me 1%nat with
      | Some err => (db, back (Err err))
      | None =>
          if existsb (holds_lock other t')
                     (filter (live (c_now me) (c_token me)) (password_resets view))
          then (db, t)
          else
            match fst (sql_select_reset_for_update (c_now me) (c_token me) view) with
            | Err err => (db, back (Err err))
            | Ok userID => (db, mkThread (AtUpdate userID) (th_writes t))
            end
      end
  | AtUpdate userID =>
      match c_fault me 2%nat with
      | Some err => (db, back (Err err))
      | None =>
          match fst (sql_update_password (c_now me) (c_newHash me) userID view) with
          | Err err => (db, back (Err err))
          | Ok user =>
              (db, mkThread (AtDelete user)
                            (th_writes t ++ [WPassword userID (c_newHash me) (c_now me)]))
          end
      end
  | AtDelete user =>
      match c_fault me 3%nat with
      | Some err => (db, back (Err err))
      | None => (db, mkThread (AtCommit user) (th_writes t ++ [WDeleteReset (c_token me)]))
      end
  | AtCommit user =>
      match c_fault me 4%nat with
      | Some err => (db, back (Err err))
      | None => (view, back (Ok user))
      end
  | Returned _ => (db, t)
  end.

(** A schedule picks, step by step, which call moves ([true]: the left). *)
Definition sched_step (a b : Call) (w : World) (pick : bool) : World :=
  if pick then
    let (db, t) := step a b (right w) (committed w) (left w) in
    mkWorld db t (right w)
  else
    let (db, t) := step b a (left w) (committed w) (right w) in
    mkWorld db (left w) t.

Definition run_schedule (a b : Call) (sched : list bool) (w : World) : World :=
  fold_left (sched_step a b) sched w.

Definition succeeded (t : Thread) : bool :=
  match th_phase t with
  | Returned (Ok _) => true
  | _ => false
  end.

Definition sequential (c : Call) (db : DB) : result User * DB :=
  ConsumePasswordReset (c_fault c) (c_now c) db (c_token c) (c_newHash c).

(** *** The shapes a pair of transactions can be in *)

(** The call holds no lock and has written nothing: it has not reached
    its lookup, or it is back with an error, which is [sql.ErrNoRows] or
    a failure of the driver. *)
Definition quiet (c : Call) (t : Thread) : Prop :=
  th_writes t = [] /\
  (th_phase t = AtBegin \/
   (th_phase t = AtSelect /\ c_fault c 0%nat = None) \/
   exists err, th_phase t = Returned (Err err) /\
               (err = ErrNoRows \/ exists n, c_fault c n = Some err)).

(** The call found its row in [db] and is between the lookup and the
    commit. *)
Definition locking (c : Call) (db : DB) (t : Thread) : Prop :=
  exists r,
    first_row (filter (live (c_now c) (c_token c)) (password_resets db)) = Ok r /\
    c_fault c 0%nat = None /\ c_fault c 1%nat = None /\
    ((th_phase t = AtUpdate (user_id r) /\ th_writes t = [])
     \/
     (exists old,
        first_row (filter (fun u => ID u =? user_id r) (users db)) = Ok old /\
        c_fault c 2%nat = None /\
        let user := set_password_row (c_now c) (c_newHash c) old in
        let w1 := WPassword (user_id r) (c_newHash c) (c_now c) in
        ((th_phase t = AtDelete user /\ th_writes t = [w1])
         \/
         (c_fault c 3%nat = None /\
          th_phase t = AtCommit user /\
          th_writes t = [w1; WDeleteReset (c_token c)])))).

(** The call is back with a user, and the committed state [db] is what
    the call alone makes of [db0]. *)
Definition won (c : Call) (db0 db : DB) (t : Thread) : Prop :=
  exists user,
    sequential c db0 = (Ok user, db) /\
    th_phase t = Returned (Ok user) /\ th_writes t = [].

Definition inv (a b : Call) (db0 db : DB) (ta tb : Thread) : Prop :=
  (db = db0 /\ quiet a ta /\ quiet b tb)
  \/ (db = db0 /\ locking a db0 ta /\ quiet b tb)
  \/ (db = db0 /\ quiet a ta /\ locking b db0 tb)
  \/ (won a db0 db ta /\ quiet b tb)
  \/ (quiet a ta /\ won b db0 db tb).

Definition no_fault (c : Call) : Prop := forall n, c_fault c n = None.

Definition returned (t : Thread) : bool :=
  match th_phase t with
  | Returned _ => true
  | _ => false
  end.

(** The driver calls a transaction still has to make, and whether it
    stands between its lookup and its end. *)
Definition remaining (t : Thread) : nat :=
  match th_phase t with
  | AtBegin => 5
  | AtSelect => 4
  | AtUpdate _ => 3
  | AtDelete _ => 2
  | AtCommit _ => 1
  | Returned _ => 0
  end.

Definition in_lock_phase (t : Thread) : bool :=
  match th_phase t with
  | AtUpdate _ | AtDelete _ | AtCommit _ => true
  | _ => false
  end.

(** [n] steps of one call in a row. *)
Fixpoint steps (n : nat) (me other : Call) (t' : Thread) (db : DB) (t : Thread)
  : DB * Thread :=
  match n with
  | O => (db, t)
  | S n' =>
      let (db1, t1) := step me other t' db t in
      steps n' me other t' db1 t1
  end.

(** A continuation that lets the left call, then the right, then the left
    again make five steps each. *)
Definition finish : list bool :=
  repeat true 5 ++ repeat false 5 ++ repeat true 5.

End Concurrent.

(** ** Notions used by the statements *)

Section Notions.
Context {text : strings.Text}.

(** What a committed [ConsumePasswordReset] leaves: the password of the
    owner is replaced and the rows of the token are gone; nothing else
    moves. *)
Definition consumed (now : Time) (db : DB) (tok newHash : string) (userID : Z) : DB :=
  mkDB (map (fun u => if ID u =? userID then set_password_row now newHash u else u) (users db))
       (users_id_seq db)
       (user_sessions db)
       (filter (fun r => negb (String.eqb (token r) tok)) (password_resets db)).

Definition no_live_reset (now : Time) (db : DB) (tok : string) : Prop :=
  forall r, In r (password_resets db) -> ~ (token r = tok /\ now < expires_at r).

(** ** Sample states and environments *)

Definition env_hash_only (now : Time) : Env :=
  mkEnv now (fun p => Ok ("$2a$" ++ p)%string)
        (fun h p => if String.eqb h ("$2a$" ++ p) then None else Some (ErrOther "mismatch"))
        (fun _ => Ok "5f2c") (fun _ => None).

Definition db_one_reset : DB :=
  mkDB [mkUser 1 "a@b.com" "Al" "$2a$longpassword" 10 10] 2 []
       [mkTokenRow 1 "r1" 500].

(** The bearer token [authenticate] extracts from the header. *)
Definition bearer (r : Request) : string :=
  strings.TrimSpace (strings.TrimPrefix (Authorization r) "Bearer ").

(** A session row of the token that has not expired, and its owner. *)
Definition live_session (now : Time) (db : DB) (tok : string) (u : User) : Prop :=
  exists s, In s (user_sessions db) /\ token s = tok /\ now < expires_at s /\
            In u (users db) /\ ID u = user_id s.

Definition session_absent (db : DB) (tok : string) : Prop :=
  forall s, In s (user_sessions db) -> token s <> tok.

Definition session_expired (now : Time) (db : DB) (tok : string) : Prop :=
  exists s, In s (user_sessions db) /\ token s = tok /\ expires_at s <= now.

Definition db_session : DB :=
  mkDB [mkUser 1 "a@b.com" "Al" "$2a$longpassword" 10 10] 2
       [mkTokenRow 1 "s1" 500] [].

Definition email_unknown (db : DB) (email : string) : Prop :=
  forall u, In u (users db) -> Email u <> email.

Definition invalid_credentials : Response :=
  mkResponse 401 (JObject [("error", JString "invalid credentials")]).

Definition login_body (email password : string) : Body :=
  mkBody [JObject [("email", JString email); ("password", JString password)]] None.

Definition forgot_body (email : string) : Body :=
  mkBody [JObject [("email", JString email)]] None.

Definition forgot_unknown_response : Response :=
  mkResponse 200
    (JObject [("message", JString "if the account exists, a reset token was generated")]).

Definition forgot_issued_response (tok : string) (expiresAt : Time) : Response :=
  mkResponse 200
    (JObject [("expires_at", JTime expiresAt);
              ("message", JString "use token to reset password");
              ("token", JString tok)]).

(** The checks of [handleRegister] on a decoded request. *)
Definition register_valid (input : RegisterRequest) : bool :=
  (isValidEmail (normalizeEmail (reg_Email input))
   && negb (String.eqb (strings.TrimSpace (reg_Name input)) "")
   && negb (len (reg_Password input) <? minPasswordLength))%bool.

Definition register_body (email password name : string) : Body :=
  mkBody [JObject [("email", JString email); ("password", JString password);
                   ("name", JString name)]] None.

Definition env_fault (now : Time) (err : error) : Env :=
  mkEnv now (fun p => Ok ("$2a$" ++ p)%string)
        (fun h p => if String.eqb h ("$2a$" ++ p) then None else Some (ErrOther "mismatch"))
        (fun _ => Ok "5f2c") (fun _ => Some err).

(** A user row with another password hash. *)
Definition with_hash (h : string) (u : User) : User :=
  mkUser (ID u) (Email u) (Name u) h (CreatedAt u) (UpdatedAt u).

(** A body that is one JSON object, all of whose keys name fields of the
    request type, followed by the end of input. *)
Definition single_object {A : Type} (fields : struct_fields A) (b : Body) : Prop :=
  exists kvs,
    values b = [JObject kvs] /\ trailing b = None /\
    Forall (fun kv => field_of fields (fst kv) <> None) kvs.

Definition is_error_body (v : JSON) : Prop :=
  exists message, v = JObject [("error", JString message)].

Definition bad_request (out : Response * DB) (db : DB) : Prop :=
  status (fst out) = 400 /\ is_error_body (body (fst out)) /\ snd out = db.

Definition garbage_body : Body :=
  mkBody [] (Some "invalid character 'x' looking for beginning of value").

Definition update_body_name (name : string) : Body :=
  mkBody [JObject [("name", JString name)]] None.

(** What two calls with one token may leave behind: the world [w] reached
    from the state [db0]. *)
Definition at_most_one_consumes (a b : Concurrent.Call) (db0 : DB) (w : Concurrent.World)
  : Prop :=
  (Concurrent.succeeded (Concurrent.left w) && Concurrent.succeeded (Concurrent.right w))%bool
    = false
  /\ (forall user,
        Concurrent.th_phase (Concurrent.left w) = Concurrent.Returned (Ok user) ->
        Concurrent.sequential a db0 = (Ok user, Concurrent.committed w) /\
        (forall u, In u (users (Concurrent.committed w)) -> ID u = ID user ->
                   PasswordHash u = Concurrent.c_newHash a) /\
        (forall err,
           Concurrent.th_phase (Concurrent.right w) = Concurrent.Returned (Err err) ->
           Concurrent.no_fault b -> err = ErrNoRows))
  /\ (forall user,
        Concurrent.th_phase (Concurrent.right w) = Concurrent.Returned (Ok user) ->
        Concurrent.sequential b db0 = (Ok user, Concurrent.committed w) /\
        (forall u, In u (users (Concurrent.committed w)) -> ID u = ID user ->
                   PasswordHash u = Concurrent.c_newHash b) /\
        (forall err,
           Concurrent.th_phase (Concurrent.left w) = Concurrent.Returned (Err err) ->
           Concurrent.no_fault a -> err = ErrNoRows))
  /\ (Concurrent.succeeded (Concurrent.left w) = false ->
      Concurrent.succeeded (Concurrent.right w) = false ->
      Concurrent.committed w = db0).

Definition call_a : Concurrent.Call := Concurrent.mkCall "r1" "$2a$first" 100 (fun _ => None).
Definition call_b : Concurrent.Call := Concurrent.mkCall "r1" "$2a$second" 101 (fun _ => None).

(** The left call begins and looks the token up; the right call begins
    and waits at its lookup; the left call finishes; the right goes on. *)
Definition interleaved : list bool :=
  [true; true; false; false; false; true; true; true; false; false].

(** A response that reports a failure: one of the given status codes, an
    [{"error": message}] body, and the state as it was. *)
Definition failure (codes : list Z) (out : Response * DB) (db : DB) : Prop :=
  In (status (fst out)) codes /\ is_error_body (body (fst out)) /\ snd out = db.

(** The row a successful registration stores. *)
Definition registered (env : Env) (db : DB) (input : RegisterRequest) (hash : string) : User :=
  mkUser (users_id_seq db) (normalizeEmail (reg_Email input))
         (strings.TrimSpace (reg_Name input)) hash (Now env) (Now env).

Definition add_user (db : DB) (u : User) : DB :=
  mkDB (users db ++ [u]) (users_id_seq db + 1) (user_sessions db) (password_resets db).

Definition add_session (db : DB) (s : TokenRow) : DB :=
  mkDB (users db) (users_id_seq db) (user_sessions db ++ [s]) (password_resets db).

Definition add_reset (db : DB) (s : TokenRow) : DB :=
  mkDB (users db) (users_id_seq db) (user_sessions db) (password_resets db ++ [s]).

Definition reset_body (tok password : string) : Body :=
  mkBody [JObject [("token", JString tok); ("new_password", JString password)]] None.

Definition reset_done : Response :=
  mkResponse 200 (JObject [("message", JString "password reset successfully")]).

Definition reset_refused : Response :=
  mkResponse 400 (JObject [("error", JString "invalid or expired token")]).

(** The users after the row of [id] took the fields of a profile update. *)
Definition profile_updated (now : Time) (db : DB) (id : Z) (email name : option string) : DB :=
  set_users db (map (fun u => if ID u =? id then update_profile_row now email name u else u)
                    (users db)).

(** The request [handleUpdateProfile] passes to the store. *)
Definition normalized_update (input : UpdateProfileRequest) : UpdateProfileRequest :=
  mkUpdateProfileRequest (option_map normalizeEmail (upd_Email input))
                         (option_map strings.TrimSpace (upd_Name input)).

(** The checks of [handleUpdateProfile] on a decoded request. *)
Definition update_valid (input : UpdateProfileRequest) : bool :=
  (negb (match upd_Email input, upd_Name input with None, None => true | _, _ => false end)
   && match upd_Email input with
      | Some e => isValidEmail (normalizeEmail e)
      | None => true
      end
   && match upd_Name input with
      | Some n => negb (String.eqb (strings.TrimSpace n) "")
      | None => true
      end)%bool.

Definition db_two_users : DB :=
  mkDB [mkUser 1 "a@b.com" "Al" "$2a$longpassword" 10 10;
        mkUser 2 "c@d.org" "Bo" "$2a$otherpassword" 20 20] 3
       [mkTokenRow 1 "s1" 500] [].

Definition update_body_email (email : string) : Body :=
  mkBody [JObject [("email", JString email)]] None.

(** Every stored email is the normal form of some text and is
    well-formed. *)
Definition emails_normal (db : DB) : Prop :=
  forall u, In u (users db) ->
            (exists value, Email u = normalizeEmail value) /\ isValidEmail (Email u) = true.

(** JSON values a field of type [string] or [*string] takes. *)
Definition string_like (v : JSON) : bool :=
  match v with
  | JString _ | JNull => true
  | _ => false
  end.

(** The bodies [decodeJSON] accepts for a request type with the given
    fields: the lone value [null], or one object whose keys all name
    fields and whose values are strings or [null]; nothing after it. *)
Definition accepted_body {A : Type} (fields : struct_fields A) (b : Body) : Prop :=
  trailing b = None /\
  (values b = [JNull] \/
   exists kvs, values b = [JObject kvs] /\
               Forall (fun kv => field_of fields (fst kv) <> None /\
                                 string_like (snd kv) = true) kvs).

Definition string_setters {A : Type} (fields : struct_fields A) : Prop :=
  forall name set, In (name, set) fields ->
    forall v dst, (exists d, set v dst = Ok d) <-> string_like v = true.

End Notions.

(** ** Running the model on ASCII text

    [strings.Text] read by the letter on ASCII text, to evaluate the
    handlers on requests all of whose strings are ASCII. *)
Definition ascii_only : strings.Text :=
  {| strings.TrimSpace := ascii_text.TrimSpace;
     strings.ToLower := ascii_text.ToLower;
     strings.foldName := ascii_text.ToLower;
     strings.TrimSpace_ascii := fun s _ => eq_refl;
     strings.ToLower_ascii := fun s _ => eq_refl |}.

#[global] Existing Instance ascii_only | 100.

(** The number of characters of a UTF-8 string: its bytes other than
    continuation bytes (10xxxxxx). *)
Fixpoint characters (s : string) : Z :=
  match s with
  | EmptyString => 0
  | String c rest =>
      (if (Nat.leb 128 (nat_of_ascii c) && Nat.ltb (nat_of_ascii c) 192)%bool
       then 0 else 1) + characters rest
  end.

(** Four times the letter e with acute accent, two bytes each. *)
Definition four_accented : string :=
  let e := String (ascii_of_nat 195) (String (ascii_of_nat 169) EmptyString) in
  (e ++ e ++ e ++ e)%string.

(** * Properties *)

Ltac solve_NoDup :=
  repeat (constructor; [simpl; intuition discriminate |]); constructor.

Ltac solve_db_wf :=
  constructor; simpl;
  [ solve_NoDup
  | solve_NoDup
  | intros ? H; repeat (destruct H as [<- | H]; [simpl; lia |]); destruct H
  | solve_NoDup
  | intros ? H; repeat (destruct H as [<- | H]; [reflexivity |]); destruct H
  | solve_NoDup
  | intros ? H; repeat (destruct H as [<- | H]; [reflexivity |]); destruct H ].


Section Properties.
Context {text : strings.Text}.

(** ** The library functions on ASCII text *)

Lemma is_ascii_TrimLeftSpace (s : string) :
  ascii_text.is_ascii s = true -> ascii_text.is_ascii (ascii_text.TrimLeftSpace s) = true.
Proof.
  induction s as [|c s IH]; simpl; [reflexivity |].
  intros H. apply andb_true_iff in H as [Hc Hs].
  destruct (ascii_text.isSpace c); [auto |]. simpl. now rewrite Hc, Hs.
Qed.

Lemma is_ascii_TrimRightSpace (s : string) :
  ascii_text.is_ascii s = true -> ascii_text.is_ascii (ascii_text.TrimRightSpace s) = true.
Proof.
  induction s as [|c s IH]; simpl; [reflexivity |].
  intros H. apply andb_true_iff in H as [Hc Hs]. specialize (IH Hs).
  destruct (ascii_text.TrimRightSpace s) as [|d kept].
  - destruct (ascii_text.isSpace c); simpl; [reflexivity | now rewrite Hc].
  - change (ascii_text.is_ascii (String c (String d kept)))
      with (ascii_text.is_ascii_byte c && ascii_text.is_ascii (String d kept))%bool.
    now rewrite Hc, IH.
Qed.

Lemma normalizeEmail_ascii (value : string) :
  ascii_text.is_ascii value = true ->
  normalizeEmail value = ascii_text.ToLower (ascii_text.TrimSpace value).
Proof.
  intros H. unfold normalizeEmail. rewrite (strings.TrimSpace_ascii value H).
  apply strings.ToLower_ascii. unfold ascii_text.TrimSpace.
  now apply is_ascii_TrimRightSpace, is_ascii_TrimLeftSpace.
Qed.

Lemma TrimSpace_empty : strings.TrimSpace "" = "".
Proof. now rewrite strings.TrimSpace_ascii. Qed.

Lemma normalizeEmail_empty : normalizeEmail "" = "".
Proof. now rewrite normalizeEmail_ascii. Qed.

Lemma normalizeEmail_collide : normalizeEmail "A@B.com" = normalizeEmail "a@b.com ".
Proof. now rewrite !normalizeEmail_ascii. Qed.

(** ** Basic facts on rows and statements *)

Lemma first_row_map {A B : Type} (g : A -> B) (rows : list A) :
  first_row (map g rows) =
  match first_row rows with
  | Ok r => Ok (g r)
  | Err err => Err err
  end.
Proof. destruct rows; reflexivity. Qed.

Lemma first_row_Ok_In {A : Type} (rows : list A) (r : A) :
  first_row rows = Ok r -> In r rows.
Proof. destruct rows; simpl; [discriminate | intros [= ->]; now left]. Qed.

Lemma first_row_Err {A : Type} (rows : list A) (err : error) :
  first_row rows = Err err -> rows = [] /\ err = ErrNoRows.
Proof. destruct rows; simpl; [intros [= <-]; auto | discriminate]. Qed.

Lemma filter_nil_iff {A : Type} (p : A -> bool) (l : list A) :
  filter p l = [] <-> forall x, In x l -> p x = false.
Proof.
  induction l as [|a l IH]; simpl.
  - split; [intros _ x [] | reflexivity].
  - destruct (p a) eqn:Ha.
    + split; [discriminate |].
      intros H. rewrite (H a) in Ha; [discriminate | now left].
    + rewrite IH. split.
      * intros H x [<- | Hx]; auto.
      * intros H x Hx. apply H. now right.
Qed.

Lemma has_token_false (rows : list TokenRow) (tok : string) :
  has_token rows tok = false <-> forall r, In r rows -> token r <> tok.
Proof.
  unfold has_token. induction rows as [|a rows IH]; simpl.
  - split; [intros _ r [] | reflexivity].
  - rewrite orb_false_iff, IH, String.eqb_neq. split.
    + intros [Ha H] r [<- | Hr]; auto.
    + intros H. split; [apply H; now left | intros r Hr; apply H; now right].
Qed.

Lemma has_token_delete (tok : string) (db : DB) :
  has_token (password_resets (snd (sql_delete_reset tok db))) tok = false.
Proof.
  apply has_token_false. simpl. intros r Hr.
  apply filter_In in Hr as [_ Hr]. apply negb_true_iff in Hr.
  now apply String.eqb_neq.
Qed.

Lemma live_spec (now : Time) (tok : string) (r : TokenRow) :
  live now tok r = true <-> token r = tok /\ now < expires_at r.
Proof.
  unfold live. now rewrite andb_true_iff, String.eqb_eq, Z.ltb_lt.
Qed.

(** The outcomes of [ConsumePasswordReset], read off its five driver
    calls. *)
Lemma ConsumePasswordReset_cases (f : nat -> option error) (now : Time) (db : DB)
    (tok newHash : string) :
  let out := ConsumePasswordReset f now db tok newHash in
  (exists err, out = (Err err, db) /\
     (err = ErrNoRows \/ exists n, (n <= 4)%nat /\ f n = Some err))
  \/
  (exists r user,
     f 0%nat = None /\ f 1%nat = None /\ f 2%nat = None /\ f 3%nat = None /\ f 4%nat = None /\
     first_row (filter (live now tok) (password_resets db)) = Ok r /\
     first_row (filter (fun u => ID u =? user_id r) (users db)) = Ok user /\
     out = (Ok (set_password_row now newHash user),
            consumed now db tok newHash (user_id r))).
Proof.
  unfold ConsumePasswordReset, BeginTx, consume_steps, tx_run, Commit, Rollback, run.
  destruct (f 0%nat) as [e0|] eqn:F0; simpl.
  { left. exists e0. split; [reflexivity | right; exists 0%nat; split; [lia | assumption]]. }
  destruct (f 1%nat) as [e1|] eqn:F1; simpl.
  { left. exists e1. split; [reflexivity | right; exists 1%nat; split; [lia | assumption]]. }
  rewrite first_row_map.
  destruct (first_row (filter (live now tok) (password_resets db))) as [r|err] eqn:Hsel; simpl.
  2:{ left. exists err. split; [reflexivity | left].
      now apply first_row_Err in Hsel. }
  destruct (f 2%nat) as [e2|] eqn:F2; simpl.
  { left. exists e2. split; [reflexivity | right; exists 2%nat; split; [lia | assumption]]. }
  rewrite first_row_map.
  destruct (first_row (filter (fun u => ID u =? user_id r) (users db))) as [user|err] eqn:Hupd;
    simpl.
  2:{ left. exists err. split; [reflexivity | left].
      now apply first_row_Err in Hupd. }
  destruct (f 3%nat) as [e3|] eqn:F3; simpl.
  { left. exists e3. split; [reflexivity | right; exists 3%nat; split; [lia | assumption]]. }
  destruct (f 4%nat) as [e4|] eqn:F4; simpl.
  { left. exists e4. split; [reflexivity | right; exists 4%nat; split; [lia | assumption]]. }
  right. exists r, user. repeat split; solve [reflexivity | assumption].
Qed.

Lemma consumed_no_token (now : Time) (db : DB) (tok newHash : string) (userID : Z) :
  has_token (password_resets (consumed now db tok newHash userID)) tok = false.
Proof. exact (has_token_delete tok (snd (sql_update_password now newHash userID db))). Qed.

Lemma consumed_password (now : Time) (db : DB) (tok newHash : string) (userID : Z) (u : User) :
  In u (users (consumed now db tok newHash userID)) -> ID u = userID ->
  PasswordHash u = newHash.
Proof.
  simpl. intros Hin Hid. apply in_map_iff in Hin as [u0 [<- _]].
  destruct (ID u0 =? userID) eqn:E; [reflexivity |].
  apply Z.eqb_neq in E. contradiction.
Qed.

Lemma consumed_frame (now : Time) (db : DB) (tok newHash : string) (userID : Z) (u : User) :
  In u (users (consumed now db tok newHash userID)) -> ID u <> userID ->
  In u (users db).
Proof.
  simpl. intros Hin Hid. apply in_map_iff in Hin as [u0 [<- Hu0]].
  destruct (ID u0 =? userID) eqn:E; [| assumption].
  apply Z.eqb_eq in E. simpl in Hid. contradiction.
Qed.

(** ** Password reset is all or nothing *)

Lemma no_live_reset_filter (now : Time) (db : DB) (tok : string) :
  no_live_reset now db tok <-> filter (live now tok) (password_resets db) = [].
Proof.
  rewrite filter_nil_iff. unfold no_live_reset. split; intros H r Hr.
  - destruct (live now tok r) eqn:E; [| reflexivity].
    apply live_spec in E. now apply H in Hr.
  - intros E. apply live_spec in E. rewrite (H r Hr) in E. discriminate.
Qed.

(** C1. [ConsumePasswordReset] either fails and leaves the state as it
    was, or returns the owner with both effects in place: without a row
    for the token that expires after now it fails, with [sql.ErrNoRows]
    when the driver answered the lookup; any failure, at whichever of the
    five driver calls, leaves the state unchanged; on success the state is
    the old one with the owner's password hash replaced by [newHash] and
    the rows of the token deleted, so no state has only one of the two. *)
Theorem ConsumePasswordReset_all_or_nothing
    (f : nat -> option error) (now : Time) (db db' : DB) (tok newHash : string)
    (res : result User) :
  ConsumePasswordReset f now db tok newHash = (res, db') ->
  (no_live_reset now db tok ->
     db' = db /\ (exists err, res = Err err) /\
     (f 0%nat = None -> f 1%nat = None -> res = Err ErrNoRows))
  /\ (forall err, res = Err err -> db' = db)
  /\ (forall user, res = Ok user ->
        exists r,
          In r (password_resets db) /\ token r = tok /\ now < expires_at r /\
          ID user = user_id r /\ PasswordHash user = newHash /\
          In user (users db') /\
          db' = consumed now db tok newHash (user_id r) /\
          has_token (password_resets db') tok = false /\
          (forall u, In u (users db') -> ID u = user_id r -> PasswordHash u = newHash)).
Proof.
  intros Hrun.
  destruct (ConsumePasswordReset_cases f now db tok newHash)
    as [(err & Hout & Hwhy) | (r & user & F0 & F1 & F2 & F3 & F4 & Hsel & Hupd & Hout)];
    cbv zeta in Hout; rewrite Hout in Hrun; injection Hrun as <- <-.
  - split; [| split].
    + intros Hnone. split; [reflexivity | split; [now exists err |]].
      intros F0 F1.
      apply no_live_reset_filter in Hnone.
      unfold ConsumePasswordReset, BeginTx, consume_steps, tx_run, run in Hout.
      rewrite F0, F1 in Hout. simpl in Hout.
      rewrite Hnone in Hout. simpl in Hout. congruence.
    + reflexivity.
    + discriminate.
  - apply first_row_Ok_In in Hsel as Hr. apply filter_In in Hr as [Hr Hlive].
    apply live_spec in Hlive as [Htok Hexp].
    apply first_row_Ok_In in Hupd as Hu. apply filter_In in Hu as [Hu Hid].
    apply Z.eqb_eq in Hid.
    split; [| split].
    + intros Hnone. exfalso. apply (Hnone r Hr). now split.
    + discriminate.
    + intros user' [= <-]. exists r.
      repeat split; try assumption; try reflexivity.
      * simpl. apply in_map_iff. exists user. split; [| assumption].
        rewrite Hid, Z.eqb_refl. reflexivity.
      * apply consumed_no_token.
      * intros u. apply consumed_password.
Qed.

(** ** Session resolution *)

Lemma has_user_id_true (db : DB) (id : Z) :
  has_user_id db id = true <-> exists u, In u (users db) /\ ID u = id.
Proof.
  unfold has_user_id. rewrite existsb_exists.
  split; intros [u [Hu Hid]]; exists u; (split; [assumption |]).
  - now apply Z.eqb_eq.
  - now apply Z.eqb_eq.
Qed.

Lemma NoDup_map_inj {A B : Type} (g : A -> B) (l : list A) (x y : A) :
  NoDup (map g l) -> In x l -> In y l -> g x = g y -> x = y.
Proof.
  induction l as [|a l IH]; simpl; [intros _ [] |].
  intros Hnd Hx Hy Heq. inversion Hnd as [|? ? Hnotin Hnd']; subst.
  destruct Hx as [<- | Hx], Hy as [<- | Hy]; auto.
  - exfalso. apply Hnotin. rewrite Heq. now apply in_map.
  - exfalso. apply Hnotin. rewrite <- Heq. now apply in_map.
Qed.

Lemma select_user_by_session_Ok (now : Time) (db : DB) (tok : string) (u : User) :
  fst (sql_select_user_by_session now tok db) = Ok u -> live_session now db tok u.
Proof.
  simpl. intros H. apply first_row_Ok_In in H.
  apply in_flat_map in H as [s [Hs Hu]].
  apply filter_In in Hs as [Hs Hlive]. apply live_spec in Hlive as [Htok Hexp].
  apply filter_In in Hu as [Hu Hid]. apply Z.eqb_eq in Hid.
  exists s. auto.
Qed.

Lemma select_user_by_session_none (now : Time) (db : DB) (tok : string) :
  (forall s, In s (user_sessions db) -> ~ (token s = tok /\ now < expires_at s)) ->
  sql_select_user_by_session now tok db = (Err ErrNoRows, db).
Proof.
  intros H. unfold sql_select_user_by_session.
  replace (filter (live now tok) (user_sessions db)) with (@nil TokenRow); [reflexivity |].
  symmetry. apply filter_nil_iff. intros s Hs.
  destruct (live now tok s) eqn:E; [| reflexivity].
  apply live_spec in E. now apply H in Hs.
Qed.

Lemma select_user_by_session_some (now : Time) (db : DB) (tok : string) (u : User) :
  db_wf db -> live_session now db tok u ->
  sql_select_user_by_session now tok db = (Ok u, db).
Proof.
  intros Hwf (s & Hs & Htok & Hexp & Hu & Hid).
  unfold sql_select_user_by_session. f_equal.
  destruct (first_row _) as [u'|err] eqn:E.
  -
    assert (Hl : live_session now db tok u') by (apply select_user_by_session_Ok; exact E).
    destruct Hl as (s' & Hs' & Htok' & _ & Hu' & Hid').
    assert (s' = s).
    { apply (NoDup_map_inj token (user_sessions db)); auto using wf_session_tokens.
      congruence. }
    subst s'. f_equal.
    apply (NoDup_map_inj ID (users db)); auto using wf_ids. congruence.
  - apply first_row_Err in E as [E _]. exfalso.
    assert (Hin : In u (flat_map (fun s => filter (fun u => ID u =? user_id s) (users db))
                                 (filter (live now tok) (user_sessions db)))).
    { apply in_flat_map. exists s. split.
      - apply filter_In. split; [assumption |]. now apply live_spec.
      - apply filter_In. split; [assumption |]. now apply Z.eqb_eq. }
    rewrite E in Hin. destruct Hin.
Qed.

Lemma session_owner_exists (db : DB) (s : TokenRow) :
  db_wf db -> In s (user_sessions db) -> exists u, In u (users db) /\ ID u = user_id s.
Proof.
  intros Hwf Hs. apply has_user_id_true. now apply (wf_session_fk db Hwf).
Qed.

(** C3. On a state that meets the constraints of the schema,
    [GetUserBySessionToken] returns a user exactly when a session row with
    that very token expires strictly after now, and the user is the owner
    of that row; a token without a row and a token whose row has expired
    both get [sql.ErrNoRows] and leave the state unchanged, and
    [authenticate] turns both into the one [errUnauthorized]. *)
Theorem GetUserBySessionToken_live_only (now : Time) (db : DB) (tok : string) :
  db_wf db ->
  (forall u, GetUserBySessionToken None now db tok = (Ok u, db) <-> live_session now db tok u)
  /\ ((exists u, fst (GetUserBySessionToken None now db tok) = Ok u) <->
      (exists s, In s (user_sessions db) /\ token s = tok /\ now < expires_at s))
  /\ (session_absent db tok -> GetUserBySessionToken None now db tok = (Err ErrNoRows, db))
  /\ (session_expired now db tok -> GetUserBySessionToken None now db tok = (Err ErrNoRows, db))
  /\ (forall env r,
        fault env 0%nat = None -> Now env = now -> bearer r = tok ->
        session_absent db tok \/ session_expired now db tok ->
        authenticate env db r = (Err errUnauthorized, db)).
Proof.
  intros Hwf.
  assert (Hgone : session_absent db tok \/ session_expired now db tok ->
                  sql_select_user_by_session now tok db = (Err ErrNoRows, db)).
  { intros Hcase. apply select_user_by_session_none. intros s Hs [Htok Hexp].
    destruct Hcase as [Habs | (s' & Hs' & Htok' & Hexp')].
    - now apply (Habs s Hs).
    - assert (s' = s).
      { apply (NoDup_map_inj token (user_sessions db)); auto using wf_session_tokens.
        congruence. }
      subst s'. lia. }
  unfold GetUserBySessionToken, run.
  split; [| split; [| split; [| split]]].
  - intros u. split.
    + intros H. apply select_user_by_session_Ok. now rewrite H.
    + now apply select_user_by_session_some.
  - split.
    + intros [u Hu]. apply select_user_by_session_Ok in Hu.
      destruct Hu as (s & Hs & Htok & Hexp & _). exists s. auto.
    + intros (s & Hs & Htok & Hexp).
      destruct (session_owner_exists db s Hwf Hs) as (u & Hu & Hid).
      exists u. rewrite (select_user_by_session_some now db tok u Hwf); [reflexivity |].
      exists s. auto.
  - intros H. apply Hgone. now left.
  - intros H. apply Hgone. now right.
  - intros env r Hf Hnow Hb Hcase. unfold authenticate.
    destruct (_ || _)%bool; [reflexivity |].
    fold (bearer r). rewrite Hb.
    destruct (String.eqb tok ""); [reflexivity |].
    unfold GetUserBySessionToken, run. rewrite Hf, Hnow, (Hgone Hcase). reflexivity.
Qed.

(** ** Lookup by email *)

Lemma select_user_by_email_none (db : DB) (email : string) :
  email_unknown db email ->
  sql_select_user_by_email email db = (Err ErrNoRows, db).
Proof.
  intros H. unfold sql_select_user_by_email.
  replace (filter _ (users db)) with (@nil User); [reflexivity |].
  symmetry. apply filter_nil_iff. intros u Hu. apply String.eqb_neq. now apply H.
Qed.

Lemma select_user_by_email_some (db : DB) (u : User) :
  db_wf db -> In u (users db) ->
  sql_select_user_by_email (Email u) db = (Ok u, db).
Proof.
  intros Hwf Hu. unfold sql_select_user_by_email. f_equal.
  destruct (first_row _) as [u'|err] eqn:E.
  - apply first_row_Ok_In in E. apply filter_In in E as [Hu' He].
    apply String.eqb_eq in He. f_equal.
    apply (NoDup_map_inj Email (users db)); auto using wf_emails.
  - apply first_row_Err in E as [E _]. exfalso.
    assert (Hin : In u (filter (fun x => String.eqb (Email x) (Email u)) (users db))).
    { apply filter_In. split; [assumption | apply String.eqb_refl]. }
    rewrite E in Hin. destruct Hin.
Qed.

Lemma select_user_by_email_Ok (db : DB) (email : string) (u : User) :
  fst (sql_select_user_by_email email db) = Ok u -> In u (users db) /\ Email u = email.
Proof.
  simpl. intros E. apply first_row_Ok_In in E. apply filter_In in E as [Hu He].
  now apply String.eqb_eq in He.
Qed.

(** ** Login does not tell an unknown email from a wrong password *)

(** C4. Take two login requests with well-formed emails whose lookup the
    driver answers: one for an email no user has, one for the email of a
    user whose stored hash the password fails to verify against.  Both
    get status 401 with the body [{"error":"invalid credentials"}], and
    neither changes the state. *)
Theorem handleLogin_same_rejection
    (env1 env2 : Env) (db1 db2 : DB) (r1 r2 : Request) (in1 in2 : LoginRequest)
    (u : User) (err : error) :
  decodeJSON unmarshal_LoginRequest (req_body r1) = Ok in1 ->
  decodeJSON unmarshal_LoginRequest (req_body r2) = Ok in2 ->
  isValidEmail (normalizeEmail (login_Email in1)) = true ->
  isValidEmail (normalizeEmail (login_Email in2)) = true ->
  fault env1 0%nat = None -> fault env2 0%nat = None ->
  email_unknown db1 (normalizeEmail (login_Email in1)) ->
  db_wf db2 -> In u (users db2) -> Email u = normalizeEmail (login_Email in2) ->
  verifyPassword env2 (PasswordHash u) (login_Password in2) = Some err ->
  handleLogin env1 db1 r1 = (invalid_credentials, db1) /\
  handleLogin env2 db2 r2 = (invalid_credentials, db2) /\
  fst (handleLogin env1 db1 r1) = fst (handleLogin env2 db2 r2).
Proof.
  intros D1 D2 V1 V2 F1 F2 Hnone Hwf Hu He Hver.
  assert (A : handleLogin env1 db1 r1 = (invalid_credentials, db1)).
  { unfold handleLogin. rewrite D1, V1. simpl.
    unfold GetUserByEmail, run. rewrite F1, (select_user_by_email_none _ _ Hnone).
    reflexivity. }
  assert (B : handleLogin env2 db2 r2 = (invalid_credentials, db2)).
  { unfold handleLogin. rewrite D2, V2. simpl.
    unfold GetUserByEmail, run. rewrite F2, <- He, (select_user_by_email_some _ _ Hwf Hu).
    rewrite Hver. reflexivity. }
  rewrite A, B. auto.
Qed.

(** ** Forgot password *)

Lemma insert_reset_fresh (db : DB) (u : User) (tok : string) (expiresAt : Time) :
  In u (users db) -> has_token (password_resets db) tok = false ->
  sql_insert_reset (ID u) tok expiresAt db =
  (Ok tt, mkDB (users db) (users_id_seq db) (user_sessions db)
               (password_resets db ++ [mkTokenRow (ID u) tok expiresAt])).
Proof.
  intros Hu Hfresh. unfold sql_insert_reset, insert_token_row. simpl.
  replace (has_user_id db (ID u)) with true.
  - simpl. rewrite Hfresh. reflexivity.
  - symmetry. apply has_user_id_true. now exists u.
Qed.

(** C5, as amended.  A forgot-password request with a well-formed email
    no user has is answered with status 200 and the body
    [{"message":"if the account exists, a reset token was generated"}],
    and leaves the state, so also [password_resets], unchanged.  A request
    for the email of a user, when the token is generated and stored, is
    answered with status 200 as well, by another body: the token, its
    expiry and the message "use token to reset password"; one row for that
    user is added to [password_resets]. *)
Theorem handleForgotPassword_responses
    (env1 env2 : Env) (db1 db2 : DB) (r1 r2 : Request) (in1 in2 : ForgotPasswordRequest)
    (u : User) (tok : string) :
  decodeJSON unmarshal_ForgotPasswordRequest (req_body r1) = Ok in1 ->
  decodeJSON unmarshal_ForgotPasswordRequest (req_body r2) = Ok in2 ->
  isValidEmail (normalizeEmail (forgot_Email in1)) = true ->
  isValidEmail (normalizeEmail (forgot_Email in2)) = true ->
  fault env1 0%nat = None -> fault env2 0%nat = None -> fault env2 1%nat = None ->
  email_unknown db1 (normalizeEmail (forgot_Email in1)) ->
  db_wf db2 -> In u (users db2) -> Email u = normalizeEmail (forgot_Email in2) ->
  generateToken env2 32 = Ok tok -> has_token (password_resets db2) tok = false ->
  handleForgotPassword env1 db1 r1 = (forgot_unknown_response, db1) /\
  handleForgotPassword env2 db2 r2 =
    (forgot_issued_response tok (Now env2 + resetTTL),
     mkDB (users db2) (users_id_seq db2) (user_sessions db2)
          (password_resets db2 ++ [mkTokenRow (ID u) tok (Now env2 + resetTTL)])) /\
  status (fst (handleForgotPassword env1 db1 r1)) = 200 /\
  status (fst (handleForgotPassword env2 db2 r2)) = 200 /\
  fst (handleForgotPassword env1 db1 r1) <> fst (handleForgotPassword env2 db2 r2).
Proof.
  intros D1 D2 V1 V2 F1 F2 F2' Hnone Hwf Hu He Htok Hfresh.
  assert (A : handleForgotPassword env1 db1 r1 = (forgot_unknown_response, db1)).
  { unfold handleForgotPassword. rewrite D1, V1. simpl.
    unfold GetUserByEmail, run. rewrite F1, (select_user_by_email_none _ _ Hnone).
    reflexivity. }
  assert (B : handleForgotPassword env2 db2 r2 =
              (forgot_issued_response tok (Now env2 + resetTTL),
               mkDB (users db2) (users_id_seq db2) (user_sessions db2)
                    (password_resets db2 ++ [mkTokenRow (ID u) tok (Now env2 + resetTTL)]))).
  { unfold handleForgotPassword. rewrite D2, V2. simpl.
    unfold GetUserByEmail, run. rewrite F2, <- He, (select_user_by_email_some _ _ Hwf Hu).
    rewrite Htok. unfold CreatePasswordReset, run.
    rewrite F2', (insert_reset_fresh _ _ _ _ Hu Hfresh). reflexivity. }
  rewrite A, B. repeat split; try reflexivity. discriminate.
Qed.

(** ** Registration *)

Lemma register_valid_true (input : RegisterRequest) :
  register_valid input = true <->
  isValidEmail (normalizeEmail (reg_Email input)) = true /\
  String.eqb (strings.TrimSpace (reg_Name input)) "" = false /\
  (len (reg_Password input) <? minPasswordLength) = false.
Proof.
  unfold register_valid. rewrite !andb_true_iff, !negb_true_iff. tauto.
Qed.

Lemma insert_user_duplicate (now : Time) (db : DB) (email name hash : string) (u : User) :
  In u (users db) -> Email u = email ->
  sql_insert_user now email name hash db =
  (Err (PgError uniqueViolationCode),
   mkDB (users db) (users_id_seq db + 1) (user_sessions db) (password_resets db)).
Proof.
  intros Hu He. unfold sql_insert_user.
  replace (existsb _ (users db)) with true; [reflexivity |].
  symmetry. apply existsb_exists. exists u. split; [assumption |].
  now apply String.eqb_eq.
Qed.

Lemma insert_user_fresh (now : Time) (db : DB) (email name hash : string) :
  email_unknown db email ->
  sql_insert_user now email name hash db =
  (Ok (mkUser (users_id_seq db) email name hash now now),
   mkDB (users db ++ [mkUser (users_id_seq db) email name hash now now])
        (users_id_seq db + 1) (user_sessions db) (password_resets db)).
Proof.
  intros Hnone. unfold sql_insert_user.
  replace (existsb _ (users db)) with false; [reflexivity |].
  symmetry. apply not_true_is_false. intros H.
  apply existsb_exists in H as [u [Hu He]]. apply String.eqb_eq in He.
  now apply (Hnone u Hu).
Qed.

(** C6. A valid registration whose normalized email is the email of a
    stored user: the insert is refused with SQLSTATE 23505, [CreateUser]
    turns that into [ErrEmailExists], and the endpoint answers 409
    "email already exists"; the table of users is as before.  Any other
    failure of the same driver call is answered 500 "failed to create
    user", so the two are told apart. *)
Theorem handleRegister_conflict
    (env env' : Env) (db : DB) (r : Request) (input : RegisterRequest)
    (hash : string) (u : User) (other : error) :
  decodeJSON unmarshal_RegisterRequest (req_body r) = Ok input ->
  register_valid input = true ->
  hashPassword env (reg_Password input) = Ok hash ->
  hashPassword env' (reg_Password input) = Ok hash ->
  fault env 0%nat = None ->
  In u (users db) -> Email u = normalizeEmail (reg_Email input) ->
  fault env' 0%nat = Some other ->
  isUniqueViolation other = false -> is_ErrEmailExists other = false ->
  let email := normalizeEmail (reg_Email input) in
  let name := strings.TrimSpace (reg_Name input) in
  fst (sql_insert_user (Now env) email name hash db) = Err (PgError "23505") /\
  fst (CreateUser None (Now env) db email name hash) = Err ErrEmailExists /\
  fst (handleRegister env db r) =
    mkResponse 409 (JObject [("error", JString "email already exists")]) /\
  users (snd (handleRegister env db r)) = users db /\
  handleRegister env' db r =
    (mkResponse 500 (JObject [("error", JString "failed to create user")]), db) /\
  fst (handleRegister env db r) <> fst (handleRegister env' db r).
Proof.
  intros D V H H' F Hu He F' Hnu Hne email name.
  apply register_valid_true in V as (V1 & V2 & V3).
  assert (A : handleRegister env db r =
              (mkResponse 409 (JObject [("error", JString "email already exists")]),
               mkDB (users db) (users_id_seq db + 1) (user_sessions db) (password_resets db))).
  { unfold handleRegister. rewrite D, V1, V2, V3. simpl. rewrite H.
    unfold CreateUser, run. rewrite F.
    rewrite (insert_user_duplicate _ _ _ _ _ u Hu He). reflexivity. }
  assert (B : handleRegister env' db r =
              (mkResponse 500 (JObject [("error", JString "failed to create user")]), db)).
  { unfold handleRegister. rewrite D, V1, V2, V3. simpl. rewrite H'.
    unfold CreateUser, run. rewrite F', Hnu, Hne. reflexivity. }
  rewrite A, B. unfold CreateUser, run.
  rewrite (insert_user_duplicate _ _ _ _ _ u Hu He). simpl.
  repeat split; try reflexivity. discriminate.
Qed.

Lemma CreateUser_Ok (f : option error) (now : Time) (db db' : DB)
    (email name hash : string) (user : User) :
  CreateUser f now db email name hash = (Ok user, db') ->
  f = None /\ email_unknown db email /\
  user = mkUser (users_id_seq db) email name hash now now /\
  db' = mkDB (users db ++ [user]) (users_id_seq db + 1) (user_sessions db) (password_resets db).
Proof.
  unfold CreateUser, run. destruct f as [err|].
  - destruct (isUniqueViolation err); discriminate.
  - unfold sql_insert_user.
    destruct (existsb _ (users db)) eqn:E; simpl; [discriminate |].
    intros [= <- <-]. repeat split.
    intros u Hu He.
    assert (existsb (fun u => String.eqb (Email u) email) (users db) = true).
    { apply existsb_exists. exists u. split; [assumption | now apply String.eqb_eq]. }
    congruence.
Qed.

Lemma CreateUser_Err_users (f : option error) (now : Time) (db db' : DB)
    (email name hash : string) (err : error) :
  CreateUser f now db email name hash = (Err err, db') -> users db' = users db.
Proof.
  unfold CreateUser, run. destruct f as [e|].
  - destruct (isUniqueViolation e); intros [= _ <-]; reflexivity.
  - unfold sql_insert_user.
    destruct (existsb _ (users db)); simpl; [| discriminate].
    intros [= _ <-]. reflexivity.
Qed.

(** The response of [handleRegister] to a decoded request that passes the
    checks, given the outcome of [CreateUser]. *)
Lemma handleRegister_valid (env : Env) (db : DB) (r : Request) (input : RegisterRequest) :
  decodeJSON unmarshal_RegisterRequest (req_body r) = Ok input ->
  register_valid input = true ->
  handleRegister env db r =
  match hashPassword env (reg_Password input) with
  | Err _ => (writeError 500 "failed to hash password", db)
  | Ok hash =>
      match CreateUser (fault env 0) (Now env) db (normalizeEmail (reg_Email input))
                       (strings.TrimSpace (reg_Name input)) hash with
      | (Err err, db') =>
          if is_ErrEmailExists err then (writeError 409 "email already exists", db')
          else (writeError 500 "failed to create user", db')
      | (Ok user, db') => (writeJSON 201 (json_User user), db')
      end
  end.
Proof.
  intros D V. apply register_valid_true in V as (V1 & V2 & V3).
  unfold handleRegister. rewrite D, V1, V2, V3. reflexivity.
Qed.

Lemma handleRegister_invalid (env : Env) (db : DB) (r : Request) (input : RegisterRequest) :
  decodeJSON unmarshal_RegisterRequest (req_body r) = Ok input ->
  register_valid input = false ->
  status (fst (handleRegister env db r)) = 400 /\ snd (handleRegister env db r) = db.
Proof.
  intros D V. unfold handleRegister. rewrite D. unfold register_valid in V.
  destruct (isValidEmail _); simpl in *; [| auto].
  destruct (String.eqb (strings.TrimSpace _) ""); simpl in *; [auto |].
  destruct (len _ <? minPasswordLength); simpl in *; [auto | discriminate].
Qed.

Lemma register_valid_false (input : RegisterRequest) :
  register_valid input = false <->
  normalizeEmail (reg_Email input) = "" \/
  strings.Contains (normalizeEmail (reg_Email input)) "@" = false \/
  strings.TrimSpace (reg_Name input) = "" \/
  len (reg_Password input) < 8.
Proof.
  unfold register_valid, isValidEmail, minPasswordLength.
  rewrite !andb_false_iff, !negb_false_iff, String.eqb_eq, String.eqb_eq, Z.ltb_lt.
  tauto.
Qed.

(** C7, as amended.  For a register request whose body decodes: the
    request is answered 400 exactly when the normalized email is empty or
    has no "@", or the trimmed name is empty, or the password is shorter
    than 8 bytes ([len], not the number of characters), and then the
    state is unchanged; otherwise the store is called with the email
    trimmed and lower-cased, and after a 201 the new row, the only one
    added, carries that normalized email.  "A@B.com" and "a@b.com "
    normalize to one email.  [strings.TrimSpace] and [strings.ToLower]
    are any functions of the class [strings.Text]. *)
Theorem handleRegister_validation
    (env : Env) (db : DB) (r : Request) (input : RegisterRequest) :
  decodeJSON unmarshal_RegisterRequest (req_body r) = Ok input ->
  let email := normalizeEmail (reg_Email input) in
  let name := strings.TrimSpace (reg_Name input) in
  ((email = "" \/ strings.Contains email "@" = false \/ name = "" \/
    len (reg_Password input) < 8)
   <-> status (fst (handleRegister env db r)) = 400)
  /\ (status (fst (handleRegister env db r)) = 400 -> snd (handleRegister env db r) = db)
  /\ (forall hash,
        register_valid input = true -> hashPassword env (reg_Password input) = Ok hash ->
        snd (handleRegister env db r) =
        snd (CreateUser (fault env 0) (Now env) db email name hash))
  /\ (status (fst (handleRegister env db r)) = 201 ->
        exists user,
          Email user = email /\ Name user = name /\
          users (snd (handleRegister env db r)) = users db ++ [user] /\
          body (fst (handleRegister env db r)) = json_User user)
  /\ (status (fst (handleRegister env db r)) <> 201 ->
        users (snd (handleRegister env db r)) = users db)
  /\ normalizeEmail "A@B.com" = normalizeEmail "a@b.com ".
Proof.
  intros D email name.
  pose proof normalizeEmail_collide as Hcollide.
  destruct (register_valid input) eqn:V.
  - pose proof (handleRegister_valid env db r input D V) as E.
    assert (Hnot : ~ (email = "" \/ strings.Contains email "@" = false \/ name = "" \/
                      len (reg_Password input) < 8)).
    { intros H. apply register_valid_false in H. congruence. }
    fold email name in E.
    destruct (hashPassword env (reg_Password input)) as [hash|herr] eqn:Hh.
    + destruct (CreateUser (fault env 0) (Now env) db email name hash) as [[user|err] db'] eqn:C.
      * destruct (CreateUser_Ok _ _ _ _ _ _ _ _ C) as (_ & _ & Hu & Hdb).
        rewrite E. simpl. repeat split; try discriminate; try tauto.
        -- intros hash' _ [= <-]. now rewrite C.
        -- intros _. exists user. subst user db'. repeat split.
      * pose proof (CreateUser_Err_users _ _ _ _ _ _ _ _ C) as C'.
        assert (S : status (fst (handleRegister env db r)) = 409 \/
                    status (fst (handleRegister env db r)) = 500)
          by (rewrite E; destruct (is_ErrEmailExists err); auto).
        assert (U : users (snd (handleRegister env db r)) = users db)
          by (rewrite E; destruct (is_ErrEmailExists err); exact C').
        assert (W : snd (handleRegister env db r) = db')
          by (rewrite E; destruct (is_ErrEmailExists err); reflexivity).
        repeat split; try tauto; try (intros; lia).
        intros hash' _ [= <-]. now rewrite C.
    + rewrite E. simpl. repeat split; try discriminate; try tauto.
  - destruct (handleRegister_invalid env db r input D V) as [S Hdb].
    rewrite S, Hdb. repeat split; try discriminate; try tauto.
    intros _. now apply register_valid_false.
Qed.

(** ** Responses carry no password hash *)

Lemma json_User_ignores_hash (h : string) (u : User) :
  json_User (with_hash h u) = json_User u.
Proof. reflexivity. Qed.

Lemma CreateSession_users (f : option error) (db : DB) (userID : Z) (tok : string)
    (expiresAt : Time) :
  users (snd (CreateSession f db userID tok expiresAt)) = users db.
Proof.
  unfold CreateSession, run. destruct f; [reflexivity |].
  unfold sql_insert_session. destruct (insert_token_row _ _ _); reflexivity.
Qed.

Lemma authenticate_Ok (env : Env) (db db' : DB) (r : Request) (u : User) :
  authenticate env db r = (Ok u, db') ->
  db' = db /\ fault env 0%nat = None /\ live_session (Now env) db (bearer r) u.
Proof.
  unfold authenticate. destruct (_ || _)%bool; [discriminate |].
  fold (bearer r). destruct (String.eqb (bearer r) ""); [discriminate |].
  unfold GetUserBySessionToken, run. destruct (fault env 0%nat) as [e|].
  - destruct (is_ErrNoRows e); discriminate.
  - destruct (sql_select_user_by_session (Now env) (bearer r) db) as [[u'|e] d] eqn:E.
    + intros [= <- <-]. split; [| split; [reflexivity |]].
      * unfold sql_select_user_by_session in E. congruence.
      * apply select_user_by_session_Ok. now rewrite E.
    + destruct (is_ErrNoRows e); discriminate.
Qed.

Lemma authenticate_db (env : Env) (db : DB) (r : Request) :
  snd (authenticate env db r) = db.
Proof.
  unfold authenticate. destruct (_ || _)%bool; [reflexivity |].
  destruct (String.eqb _ ""); [reflexivity |].
  unfold GetUserBySessionToken, run, sql_select_user_by_session.
  destruct (fault env 0%nat) as [e|].
  - destruct (is_ErrNoRows e); reflexivity.
  - simpl. destruct (first_row _) as [u|e]; [reflexivity |].
    destruct (is_ErrNoRows e); reflexivity.
Qed.

Lemma update_user_Ok (now : Time) (email name : option string) (id : Z) (db db' : DB)
    (user : User) :
  sql_update_user now email name id db = (Ok user, db') ->
  exists old,
    In old (users db) /\ ID old = id /\ user = update_profile_row now email name old /\
    In user (users db') /\
    db' = set_users db (map (fun u => if ID u =? id then update_profile_row now email name u
                                      else u) (users db)).
Proof.
  unfold sql_update_user. destruct (existsb _ _); [discriminate |].
  intros [= Hfirst <-].
  apply first_row_Ok_In in Hfirst. apply in_map_iff in Hfirst as [old [<- Hold]].
  apply filter_In in Hold as [Hold Hid]. exists old.
  repeat split; try assumption.
  - now apply Z.eqb_eq.
  - simpl. apply in_map_iff. exists old. split; [| assumption]. now rewrite Hid.
Qed.

Lemma UpdateUser_Ok (f : option error) (now : Time) (db db' : DB) (id : Z)
    (input : UpdateProfileRequest) (user : User) :
  UpdateUser f now db id input = (Ok user, db') ->
  f = None /\ sql_update_user now (upd_Email input) (upd_Name input) id db = (Ok user, db').
Proof.
  unfold UpdateUser, run, nullableString. destruct f as [e|].
  - destruct (isUniqueViolation e); discriminate.
  - destruct (sql_update_user _ _ _ _ _) as [[u|e] d].
    + intros [= <- <-]. auto.
    + destruct (isUniqueViolation e); discriminate.
Qed.


(** ** Request bodies *)

Lemma unmarshal_fields_Ok {A : Type} (fields : struct_fields A) (kvs : list (string * JSON))
    (dst dst' : A) :
  unmarshal_fields fields kvs dst = Ok dst' ->
  Forall (fun kv => field_of fields (fst kv) <> None) kvs.
Proof.
  revert dst. induction kvs as [|[key v] kvs IH]; intros dst; simpl; [constructor |].
  destruct (field_of fields key) as [[name set]|] eqn:F; [| discriminate].
  destruct (set v dst) as [d|e]; [| discriminate].
  intros H. constructor; [simpl; congruence | exact (IH _ H)].
Qed.

Lemma Decode_empty_struct_EOF (b : Body) (err : error) :
  fst (Decode (unmarshal "struct {}" (@nil (string * (JSON -> unit -> result unit))) tt) b)
    = Err err ->
  is_EOF err = true -> values b = [] /\ trailing b = None.
Proof.
  unfold Decode, next_value.
  destruct (values b) as [|v rest]; simpl.
  - destruct (trailing b); simpl; [intros [= <-]; discriminate | auto].
  - destruct v; simpl; try (intros [= <-]; discriminate); try discriminate.
    destruct fields as [|[k v] kvs]; simpl; [discriminate |].
    intros [= <-]. discriminate.
Qed.

(** What [decodeJSON] accepts: one object with known keys and nothing
    after it, or the lone value [null], which leaves the zero request. *)
Lemma decodeJSON_Ok {A : Type} (typ : string) (fields : struct_fields A) (zero dst : A)
    (b : Body) :
  decodeJSON (unmarshal typ fields zero) b = Ok dst ->
  single_object fields b \/ (values b = [JNull] /\ trailing b = None /\ dst = zero).
Proof.
  unfold decodeJSON.
  destruct (Decode (unmarshal typ fields zero) b) as [[d|e] b'] eqn:D1; [| discriminate].
  destruct (Decode (unmarshal "struct {}" [] tt) b') as [[u|e] b''] eqn:D2; [discriminate |].
  destruct (is_EOF e) eqn:E; [| discriminate].
  intros [= <-].
  apply (f_equal fst) in D2; simpl in D2.
  destruct (Decode_empty_struct_EOF b' e D2 E) as [Hv Ht].
  unfold Decode, next_value in D1.
  destruct (values b) as [|v rest] eqn:Vb.
  - destruct (trailing b); discriminate.
  - injection D1 as Hu Hb. subst b'. simpl in Hv, Ht. subst rest.
    destruct v; simpl in Hu; try discriminate.
    + right. injection Hu as <-. auto.
    + left. exists fields0. split; [assumption | split; [assumption |]].
      apply (unmarshal_fields_Ok fields fields0 zero d Hu).
Qed.

Lemma writeError_bad_request (message : string) (db : DB) :
  bad_request (writeError StatusBadRequest message, db) db.
Proof. repeat split. now exists message. Qed.

Ltac bad_body D Hbad :=
  match type of D with
  | decodeJSON _ _ = Err _ => apply writeError_bad_request
  | decodeJSON _ _ = Ok _ =>
      apply decodeJSON_Ok in D as [D | (_ & _ & ->)];
      [contradiction |
       simpl; rewrite ?normalizeEmail_empty, ?TrimSpace_empty; simpl;
       apply writeError_bad_request]
  end.

(** C9, as amended.  A body that is not one JSON object with known fields
    only, followed by the end of input, gets status 400 with a body
    [{"error": message}] and leaves the state unchanged: at register,
    login, forgot-password and reset-password for every request, at the
    profile update for every request that passed authentication. *)
Theorem malformed_body_bad_request (env : Env) (db : DB) (r : Request) :
  (~ single_object RegisterRequest_fields (req_body r) ->
   bad_request (handleRegister env db r) db)
  /\ (~ single_object LoginRequest_fields (req_body r) ->
      bad_request (handleLogin env db r) db)
  /\ (~ single_object ForgotPasswordRequest_fields (req_body r) ->
      bad_request (handleForgotPassword env db r) db)
  /\ (~ single_object ResetPasswordRequest_fields (req_body r) ->
      bad_request (handleResetPassword env db r) db)
  /\ (forall u,
        fst (authenticate env db r) = Ok u ->
        ~ single_object UpdateProfileRequest_fields (req_body r) ->
        bad_request (handleUpdateProfile env db r) db).
Proof.
  split; [| split; [| split; [| split]]].
  - intros Hbad. unfold handleRegister.
    destruct (decodeJSON unmarshal_RegisterRequest (req_body r)) as [input|e] eqn:D;
      bad_body D Hbad.
  - intros Hbad. unfold handleLogin.
    destruct (decodeJSON unmarshal_LoginRequest (req_body r)) as [input|e] eqn:D;
      bad_body D Hbad.
  - intros Hbad. unfold handleForgotPassword.
    destruct (decodeJSON unmarshal_ForgotPasswordRequest (req_body r)) as [input|e] eqn:D;
      bad_body D Hbad.
  - intros Hbad. unfold handleResetPassword.
    destruct (decodeJSON unmarshal_ResetPasswordRequest (req_body r)) as [input|e] eqn:D;
      bad_body D Hbad.
  - intros u Hauth Hbad. unfold handleUpdateProfile.
    pose proof (authenticate_db env db r) as Hdb.
    destruct (authenticate env db r) as [[cur|e] db0]; simpl in Hauth, Hdb; [| discriminate].
    subst db0.
    destruct (decodeJSON unmarshal_UpdateProfileRequest (req_body r)) as [input|e] eqn:D;
      bad_body D Hbad.
Qed.

(** ** Profile update *)

Lemma map_update_frame (g : User -> User) (id : Z) (l : list User) (u : User) :
  (forall x, ID (g x) = ID x) -> ID u <> id ->
  (In u (map (fun x => if ID x =? id then g x else x) l) <-> In u l).
Proof.
  intros Hg Hid. rewrite in_map_iff. split.
  - intros [x [Hx Hin]]. destruct (ID x =? id) eqn:E.
    + apply Z.eqb_eq in E. subst u. rewrite Hg in Hid. contradiction.
    + now subst u.
  - intros Hin. exists u. split; [| assumption].
    apply Z.eqb_neq in Hid. now rewrite Hid.
Qed.

(** C10. When [UpdateUser] succeeds, the row it returns and stores is the
    old row of that id with [updated_at] set to now and each supplied
    field replaced: an omitted email or name keeps the stored value; id,
    password hash and [created_at] are those of the old row.  Rows of
    other ids, the sessions, the reset tokens and the id sequence are
    untouched. *)
Theorem UpdateUser_frame
    (f : option error) (now : Time) (db db' : DB) (id : Z)
    (input : UpdateProfileRequest) (user : User) :
  UpdateUser f now db id input = (Ok user, db') ->
  exists old,
    In old (users db) /\ ID old = id /\ In user (users db') /\
    ID user = ID old /\
    PasswordHash user = PasswordHash old /\
    CreatedAt user = CreatedAt old /\
    UpdatedAt user = now /\
    (upd_Email input = None -> Email user = Email old) /\
    (upd_Name input = None -> Name user = Name old) /\
    (forall e, upd_Email input = Some e -> Email user = e) /\
    (forall n, upd_Name input = Some n -> Name user = n) /\
    (forall u, ID u <> id -> (In u (users db') <-> In u (users db))) /\
    List.length (users db') = List.length (users db) /\
    users_id_seq db' = users_id_seq db /\
    user_sessions db' = user_sessions db /\
    password_resets db' = password_resets db.
Proof.
  intros H. apply UpdateUser_Ok in H as [_ H].
  apply update_user_Ok in H as (old & Hold & Hid & -> & Hin & ->).
  exists old. split; [assumption |]. split; [assumption |]. split; [assumption |].
  simpl. repeat split; try reflexivity.
  - intros ->. reflexivity.
  - intros ->. reflexivity.
  - intros e ->. reflexivity.
  - intros n ->. reflexivity.
  - apply (map_update_frame (update_profile_row now (upd_Email input) (upd_Name input)));
      [reflexivity | assumption].
  - apply (map_update_frame (update_profile_row now (upd_Email input) (upd_Name input)));
      [reflexivity | assumption].
  - apply length_map.
Qed.

End Properties.

(** ** Two calls with one token *)

Lemma ConsumePasswordReset_success (f : nat -> option error) (now : Time) (db : DB)
    (tok newHash : string) (r : TokenRow) (old : User) :
  f 0%nat = None -> f 1%nat = None -> f 2%nat = None -> f 3%nat = None -> f 4%nat = None ->
  first_row (filter (live now tok) (password_resets db)) = Ok r ->
  first_row (filter (fun u => ID u =? user_id r) (users db)) = Ok old ->
  ConsumePasswordReset f now db tok newHash =
  (Ok (set_password_row now newHash old), consumed now db tok newHash (user_id r)).
Proof.
  intros F0 F1 F2 F3 F4 Hr Hold.
  unfold ConsumePasswordReset, BeginTx, consume_steps, tx_run, Commit, Rollback, run.
  rewrite F0. simpl. rewrite F1. simpl. rewrite first_row_map, Hr. simpl.
  rewrite F2. simpl. rewrite first_row_map, Hold. simpl.
  rewrite F3. simpl. rewrite F4. reflexivity.
Qed.

Lemma ConsumePasswordReset_Ok_no_token (f : nat -> option error) (now : Time) (db db' : DB)
    (tok newHash : string) (user : User) :
  ConsumePasswordReset f now db tok newHash = (Ok user, db') ->
  has_token (password_resets db') tok = false.
Proof.
  intros H.
  destruct (ConsumePasswordReset_cases f now db tok newHash)
    as [(err & Hout & _) | (r & old & _ & _ & _ & _ & _ & _ & _ & Hout)];
    cbv zeta in Hout; rewrite Hout in H.
  - discriminate.
  - injection H as _ <-. apply consumed_no_token.
Qed.

Lemma existsb_none {A : Type} (p : A -> bool) (l : list A) :
  (forall x, p x = false) -> existsb p l = false.
Proof. intros H. induction l; simpl; [reflexivity | now rewrite H]. Qed.

Lemma existsb_pointwise {A : Type} (p q : A -> bool) (l : list A) :
  (forall x, p x = q x) -> existsb p l = existsb q l.
Proof. intros H. induction l; simpl; [reflexivity | now rewrite H, IHl]. Qed.

Lemma no_token_no_live (now : Time) (tok : string) (rows : list TokenRow) :
  has_token rows tok = false -> filter (live now tok) rows = [].
Proof.
  intros H. apply filter_nil_iff. intros r Hr.
  destruct (live now tok r) eqn:E; [| reflexivity].
  apply live_spec in E as [E _].
  exfalso. exact (proj1 (has_token_false rows tok) H r Hr E).
Qed.

(** A row locked by one lookup keeps the other lookup of the same token
    waiting: if none of the rows the second wants is locked, it wants
    none. *)
Lemma lock_excludes (now1 now2 : Time) (tok : string) (rows : list TokenRow) (r : TokenRow) :
  first_row (filter (live now2 tok) rows) = Ok r ->
  existsb (live now2 tok) (filter (live now1 tok) rows) = false ->
  filter (live now1 tok) rows = [].
Proof.
  intros Hr Hfree.
  apply first_row_Ok_In in Hr. apply filter_In in Hr as [Hr Hlive].
  apply live_spec in Hlive as [Htok Hexp].
  assert (Hall : forall x, In x (filter (live now1 tok) rows) -> live now2 tok x = false).
  { intros x Hx. destruct (live now2 tok x) eqn:E; [| reflexivity].
    assert (existsb (live now2 tok) (filter (live now1 tok) rows) = true)
      by (apply existsb_exists; now exists x).
    congruence. }
  apply filter_nil_iff. intros x Hx.
  destruct (live now1 tok x) eqn:E1; [| reflexivity]. exfalso.
  assert (Hx1 : In x (filter (live now1 tok) rows)) by (apply filter_In; auto).
  apply Hall in Hx1. apply live_spec in E1 as [Hxt Hxe].
  assert (Hx2 : ~ (token x = tok /\ now2 < expires_at x))
    by (intros C; apply live_spec in C; congruence).
  destruct (live now1 tok r) eqn:E2.
  - assert (Hr1 : In r (filter (live now1 tok) rows)) by (apply filter_In; auto).
    apply Hall in Hr1.
    assert (live now2 tok r = true) by (apply live_spec; auto). congruence.
  - assert (Hr2 : ~ (token r = tok /\ now1 < expires_at r))
      by (intros C; apply live_spec in C; congruence).
    assert (expires_at x <= now2) by (destruct (Z.lt_ge_cases now2 (expires_at x)); tauto).
    assert (expires_at r <= now1) by (destruct (Z.lt_ge_cases now1 (expires_at r)); tauto).
    lia.
Qed.

Module ConcurrentFacts.
Import Concurrent.

Lemma quiet_no_lock (c : Call) (t : Thread) (r : TokenRow) :
  quiet c t -> holds_lock c t r = false.
Proof.
  unfold holds_lock. intros [_ [-> | [[-> _] | (err & -> & _)]]]; reflexivity.
Qed.

Lemma won_no_lock (c : Call) (db0 db : DB) (t : Thread) (r : TokenRow) :
  won c db0 db t -> holds_lock c t r = false.
Proof. unfold holds_lock. intros (user & _ & -> & _). reflexivity. Qed.

Lemma locking_lock (c : Call) (db : DB) (t : Thread) (r : TokenRow) :
  locking c db t -> holds_lock c t r = live (c_now c) (c_token c) r.
Proof.
  unfold holds_lock.
  intros (r0 & _ & _ & _ & [[-> _] | (old & _ & _ & [[-> _] | (_ & -> & _)])]);
    reflexivity.
Qed.

Lemma quiet_back_fault (c : Call) (n : nat) (err : error) :
  c_fault c n = Some err -> quiet c (back (Err err)).
Proof.
  intros F. split; [reflexivity |]. right. right. exists err.
  split; [reflexivity | right; now exists n].
Qed.

Lemma quiet_back_no_rows (c : Call) : quiet c (back (Err ErrNoRows)).
Proof.
  split; [reflexivity |]. right. right. exists ErrNoRows. split; [reflexivity | now left].
Qed.

Create HintDb conc.
#[local] Hint Resolve quiet_back_fault quiet_back_no_rows : conc.

(** A step of a call that holds no lock: it stays without one, or its
    lookup, kept waiting by no lock of the other call, finds a row. *)
Lemma step_quiet (a b : Call) (tb : Thread) (db db' : DB) (ta ta' : Thread) :
  quiet a ta -> step a b tb db ta = (db', ta') ->
  db' = db /\
  (quiet a ta' \/
   (locking a db ta' /\
    existsb (holds_lock b tb)
            (filter (live (c_now a) (c_token a)) (password_resets db)) = false)).
Proof.
  intros [W [P | [[P F0] | (err & P & J)]]]; unfold step; cbv zeta; rewrite P, ?W; simpl.
  - destruct (c_fault a 0%nat) as [e|] eqn:F; intros [= <- <-]; (split; [reflexivity |]);
      left; eauto with conc.
    split; [reflexivity | right; left; auto].
  - destruct (c_fault a 1%nat) as [e|] eqn:F1.
    { intros [= <- <-]. split; [reflexivity |]. left. eauto with conc. }
    destruct (existsb _ _) eqn:B.
    { intros [= <- <-]. split; [reflexivity |]. left.
      split; [assumption | right; left; auto]. }
    rewrite first_row_map.
    destruct (first_row (filter _ (password_resets db))) as [r|e] eqn:R;
      intros [= <- <-]; (split; [reflexivity |]).
    + right. split; [| reflexivity]. exists r. repeat split; auto.
    + left. apply first_row_Err in R as [_ ->]. auto with conc.
  - intros [= <- <-]. split; [reflexivity |]. left.
    split; [assumption | right; right; now exists err].
Qed.

(** A step of the call that holds the lock: it fails and leaves the
    state, moves on, or commits what the call alone would have made. *)
Lemma step_locking (a b : Call) (tb : Thread) (db db' : DB) (ta ta' : Thread) :
  locking a db ta -> step a b tb db ta = (db', ta') ->
  (db' = db /\ (quiet a ta' \/ locking a db ta')) \/ won a db db' ta'.
Proof.
  intros (r & Hr & F0 & F1 &
          [[P W] | (old & Hold & F2 & [[P W] | (F3 & P & W)])]);
    unfold step; cbv zeta; rewrite P, ?W; simpl.
  - destruct (c_fault a 2%nat) as [e|] eqn:F2.
    { intros [= <- <-]. left. split; [reflexivity |]. left. eauto with conc. }
    rewrite first_row_map.
    destruct (first_row (filter _ (users db))) as [old|e] eqn:Hold;
      intros [= <- <-]; left; (split; [reflexivity |]).
    + right. exists r. repeat split; auto. right. exists old. repeat split; auto.
    + left. apply first_row_Err in Hold as [_ ->]. auto with conc.
  - destruct (c_fault a 3%nat) as [e|] eqn:F3; intros [= <- <-]; left;
      (split; [reflexivity |]).
    + left. eauto with conc.
    + right. exists r. repeat split; auto. right. exists old. repeat split; auto.
  - destruct (c_fault a 4%nat) as [e|] eqn:F4; intros [= <- <-].
    + left. split; [reflexivity |]. left. eauto with conc.
    + right. exists (set_password_row (c_now a) (c_newHash a) old).
      split; [| split; reflexivity].
      unfold sequential.
      rewrite (ConsumePasswordReset_success _ _ _ _ _ r old F0 F1 F2 F3 F4 Hr Hold).
      reflexivity.
Qed.

Lemma step_won (a b : Call) (tb : Thread) (db0 db : DB) (ta : Thread) :
  won a db0 db ta -> step a b tb db ta = (db, ta).
Proof. intros (user & _ & P & _). unfold step. now rewrite P. Qed.

Lemma won_no_live (c : Call) (db0 db : DB) (t : Thread) (now : Time) :
  won c db0 db t -> filter (live now (c_token c)) (password_resets db) = [].
Proof.
  intros (user & S & _). apply no_token_no_live.
  exact (ConsumePasswordReset_Ok_no_token _ _ _ _ _ _ _ S).
Qed.

Lemma inv_sym (a b : Call) (db0 db : DB) (ta tb : Thread) :
  inv a b db0 db ta tb -> inv b a db0 db tb ta.
Proof. unfold inv. tauto. Qed.

(** The shapes are closed under a step of the first call. *)
Lemma step_inv (a b : Call) (db0 db db' : DB) (ta ta' tb : Thread) :
  c_token a = c_token b ->
  inv a b db0 db ta tb -> step a b tb db ta = (db', ta') ->
  inv a b db0 db' ta' tb.
Proof.
  intros Htok [(-> & Qa & Qb) | [(-> & La & Qb) | [(-> & Qa & Lb) | [(Wa & Qb) | (Qa & Wb)]]]]
         Hstep.
  - destruct (step_quiet _ _ _ _ _ _ _ Qa Hstep) as [-> [Qa' | [La' _]]].
    + left. auto.
    + right. left. auto.
  - destruct (step_locking _ _ _ _ _ _ _ La Hstep) as [[-> [Qa' | La']] | Wa'].
    + left. auto.
    + right. left. auto.
    + right. right. right. left. auto.
  - destruct (step_quiet _ _ _ _ _ _ _ Qa Hstep) as [-> [Qa' | [La' Free]]].
    + right. right. left. auto.
    + exfalso.
      destruct Lb as (r & Hr & Hrest).
      assert (Lb : locking b db0 tb) by (exists r; auto).
      rewrite (existsb_pointwise _ _ _ (fun x => locking_lock b db0 tb x Lb)) in Free.
      rewrite <- Htok in Hr, Free.
      pose proof (lock_excludes _ _ _ _ _ Hr Free) as Hnone.
      destruct La' as (ra & Hra & _). rewrite Hnone in Hra. discriminate.
  - rewrite (step_won _ _ _ _ _ _ Wa) in Hstep. injection Hstep as <- <-.
    right. right. right. left. auto.
  - destruct (step_quiet _ _ _ _ _ _ _ Qa Hstep) as [-> [Qa' | [La' _]]].
    + right. right. right. right. auto.
    + exfalso. destruct La' as (ra & Hra & _).
      rewrite Htok, (won_no_live b db0 db tb _ Wb) in Hra. discriminate.
Qed.

End ConcurrentFacts.

Module ConcurrentRuns.
Import Concurrent.

Lemma sched_step_inv (a b : Call) (db0 : DB) (w : World) (pick : bool) :
  c_token a = c_token b ->
  inv a b db0 (committed w) (left w) (right w) ->
  inv a b db0 (committed (sched_step a b w pick)) (left (sched_step a b w pick))
      (right (sched_step a b w pick)).
Proof.
  intros Htok I. unfold sched_step. destruct pick.
  - destruct (step a b (right w) (committed w) (left w)) as [db' t'] eqn:S. simpl.
    exact (ConcurrentFacts.step_inv a b db0 _ _ _ _ _ Htok I S).
  - destruct (step b a (left w) (committed w) (right w)) as [db' t'] eqn:S. simpl.
    apply ConcurrentFacts.inv_sym.
    exact (ConcurrentFacts.step_inv b a db0 _ _ _ _ _ (eq_sym Htok)
             (ConcurrentFacts.inv_sym _ _ _ _ _ _ I) S).
Qed.

Lemma run_schedule_inv (a b : Call) (db0 : DB) (sched : list bool) (w : World) :
  c_token a = c_token b ->
  inv a b db0 (committed w) (left w) (right w) ->
  inv a b db0 (committed (run_schedule a b sched w)) (left (run_schedule a b sched w))
      (right (run_schedule a b sched w)).
Proof.
  intros Htok. revert w. induction sched as [|pick sched IH]; intros w I; simpl.
  - exact I.
  - apply IH. now apply sched_step_inv.
Qed.

Lemma start_inv (a b : Call) (db0 : DB) :
  inv a b db0 (committed (start db0)) (left (start db0)) (right (start db0)).
Proof. left. simpl. repeat split; auto. Qed.

Lemma quiet_not_succeeded (c : Call) (t : Thread) : quiet c t -> succeeded t = false.
Proof.
  unfold succeeded. intros [_ [-> | [[-> _] | (err & -> & _)]]]; reflexivity.
Qed.

Lemma quiet_err (c : Call) (t : Thread) (err : error) :
  quiet c t -> th_phase t = Returned (Err err) -> no_fault c -> err = ErrNoRows.
Proof.
  intros [_ [P | [[P _] | (e & P & [-> | [n F]])]]] R NF; try congruence.
  all: rewrite NF in F; discriminate.
Qed.

Lemma locking_not_returned (c : Call) (db : DB) (t : Thread) (res : result User) :
  locking c db t -> th_phase t <> Returned res.
Proof.
  intros (r & _ & _ & _ & [[-> _] | (old & _ & _ & [[-> _] | (_ & -> & _)])]);
    discriminate.
Qed.

Lemma sequential_password (c : Call) (db0 db : DB) (user u : User) :
  sequential c db0 = (Ok user, db) -> In u (users db) -> ID u = ID user ->
  PasswordHash u = c_newHash c.
Proof.
  unfold sequential. intros S Hin Hid.
  destruct (ConsumePasswordReset_cases (c_fault c) (c_now c) db0 (c_token c) (c_newHash c))
    as [(err & Hout & _) | (r & old & _ & _ & _ & _ & _ & _ & Hold & Hout)];
    cbv zeta in Hout; rewrite Hout in S; [discriminate |].
  injection S as <- <-.
  apply first_row_Ok_In in Hold. apply filter_In in Hold as [_ Hold].
  apply Z.eqb_eq in Hold.
  apply (consumed_password _ _ _ _ _ _ Hin). simpl in Hid. congruence.
Qed.

Lemma quiet_not_ok (c : Call) (t : Thread) (user : User) :
  quiet c t -> th_phase t <> Returned (Ok user).
Proof. intros [_ [-> | [[-> _] | (err & -> & _)]]]; discriminate. Qed.

Lemma locking_not_succeeded (c : Call) (db : DB) (t : Thread) :
  locking c db t -> succeeded t = false.
Proof.
  unfold succeeded.
  intros (r & _ & _ & _ & [[-> _] | (old & _ & _ & [[-> _] | (_ & -> & _)])]);
    reflexivity.
Qed.

Lemma won_facts (c other : Call) (db0 db : DB) (t t' : Thread) (user : User) :
  won c db0 db t -> quiet other t' -> th_phase t = Returned (Ok user) ->
  sequential c db0 = (Ok user, db) /\
  (forall u, In u (users db) -> ID u = ID user -> PasswordHash u = c_newHash c) /\
  (forall err, th_phase t' = Returned (Err err) -> no_fault other -> err = ErrNoRows).
Proof.
  intros (user' & S & P & _) Q P'. rewrite P in P'. injection P' as ->.
  split; [exact S | split].
  - intros u. now apply (sequential_password c db0).
  - intros err. now apply quiet_err.
Qed.

Lemma inv_at_most_one (a b : Call) (db0 : DB) (w : World) :
  inv a b db0 (committed w) (left w) (right w) -> at_most_one_consumes a b db0 w.
Proof.
  intros I. split; [| split; [| split]].
  - destruct I as [(_ & Qa & _) | [(_ & _ & Qb) | [(_ & Qa & _) | [(_ & Qb) | (Qa & _)]]]].
    + now rewrite (quiet_not_succeeded _ _ Qa).
    + rewrite (quiet_not_succeeded _ _ Qb). apply andb_false_r.
    + now rewrite (quiet_not_succeeded _ _ Qa).
    + rewrite (quiet_not_succeeded _ _ Qb). apply andb_false_r.
    + now rewrite (quiet_not_succeeded _ _ Qa).
  - intros user P.
    destruct I as [(_ & Qa & _) | [(_ & La & _) | [(_ & Qa & _) | [(Wa & Qb) | (Qa & _)]]]].
    + now destruct (quiet_not_ok _ _ user Qa).
    + now destruct (locking_not_returned _ _ _ (Ok user) La).
    + now destruct (quiet_not_ok _ _ user Qa).
    + exact (won_facts a b db0 _ _ _ user Wa Qb P).
    + now destruct (quiet_not_ok _ _ user Qa).
  - intros user P.
    destruct I as [(_ & _ & Qb) | [(_ & _ & Qb) | [(_ & _ & Lb) | [(_ & Qb) | (Qa & Wb)]]]].
    + now destruct (quiet_not_ok _ _ user Qb).
    + now destruct (quiet_not_ok _ _ user Qb).
    + now destruct (locking_not_returned _ _ _ (Ok user) Lb).
    + now destruct (quiet_not_ok _ _ user Qb).
    + exact (won_facts b a db0 _ _ _ user Wb Qa P).
  - intros Sa Sb.
    destruct I as [(E & _) | [(E & _) | [(E & _) | [((u & _ & P & _) & _) | (_ & (u & _ & P & _))]]]];
      try exact E.
    + unfold succeeded in Sa. rewrite P in Sa. discriminate.
    + unfold succeeded in Sb. rewrite P in Sb. discriminate.
Qed.

End ConcurrentRuns.

(** *** Both calls return *)

Module ConcurrentProgress.
Import Concurrent.

Lemma lock_needs_phase (c : Call) (t : Thread) (rows : list TokenRow) :
  existsb (holds_lock c t) rows = true -> in_lock_phase t = true.
Proof.
  intros H. apply existsb_exists in H as [r [_ H]].
  unfold holds_lock in H. unfold in_lock_phase.
  destruct (th_phase t); try discriminate; reflexivity.
Qed.

(** A step brings the call nearer to its return, unless it has returned
    or waits at its lookup for the other call. *)
Lemma step_progress (me other : Call) (t' : Thread) (db : DB) (t : Thread) :
  (remaining (snd (step me other t' db t)) < remaining t)%nat
  \/ (remaining t = 0%nat /\ step me other t' db t = (db, t))
  \/ (remaining t = 4%nat /\ in_lock_phase t' = true /\ step me other t' db t = (db, t)).
Proof.
  unfold step, remaining. cbv zeta.
  destruct (th_phase t) eqn:P; simpl.
  - left. destruct (c_fault me 0%nat); simpl; lia.
  - destruct (c_fault me 1%nat); simpl; [left; lia |].
    destruct (existsb _ _) eqn:B.
    + right. right. split; [reflexivity |]. split; [| reflexivity].
      exact (lock_needs_phase _ _ _ B).
    + left. destruct (first_row _); simpl; lia.
  - left. destruct (c_fault me 2%nat); simpl; [lia |].
    destruct (first_row _); simpl; lia.
  - left. destruct (c_fault me 3%nat); simpl; lia.
  - left. destruct (c_fault me 4%nat); simpl; lia.
  - right. left. auto.
Qed.

Lemma steps_free (n : nat) (me other : Call) (t' : Thread) (db : DB) (t : Thread) :
  in_lock_phase t' = false \/ (remaining t <= 3)%nat ->
  (remaining (snd (steps n me other t' db t)) <= remaining t - n)%nat.
Proof.
  revert db t. induction n as [|n IH]; intros db t Hfree; simpl; [lia |].
  destruct (step_progress me other t' db t) as [Hlt | [[Hz Hs] | (H4 & Hl & _)]].
  - destruct (step me other t' db t) as [db1 t1]. simpl in Hlt.
    assert (Hfree1 : in_lock_phase t' = false \/ (remaining t1 <= 3)%nat)
      by (destruct Hfree; [now left | right; lia]).
    specialize (IH db1 t1 Hfree1). lia.
  - rewrite Hs. specialize (IH db t Hfree). lia.
  - destruct Hfree as [Hfree | Hfree]; [congruence | lia].
Qed.

Lemma steps_any (n : nat) (me other : Call) (t' : Thread) (db : DB) (t : Thread) :
  (remaining (snd (steps n me other t' db t)) <= remaining t - n)%nat
  \/ in_lock_phase t' = true.
Proof.
  destruct (in_lock_phase t') eqn:L; [now right | left].
  apply steps_free. now left.
Qed.

Lemma run_left (a b : Call) (n : nat) (w : World) :
  run_schedule a b (repeat true n) w =
  mkWorld (fst (steps n a b (right w) (committed w) (left w)))
          (snd (steps n a b (right w) (committed w) (left w)))
          (right w).
Proof.
  revert w. induction n as [|n IH]; intros w.
  - now destruct w.
  - change (run_schedule a b (repeat true (S n)) w)
      with (run_schedule a b (repeat true n) (sched_step a b w true)).
    rewrite IH. unfold sched_step. simpl steps.
    destruct (step a b (right w) (committed w) (left w)) as [db1 t1]. reflexivity.
Qed.

Lemma run_right (a b : Call) (n : nat) (w : World) :
  run_schedule a b (repeat false n) w =
  mkWorld (fst (steps n b a (left w) (committed w) (right w)))
          (left w)
          (snd (steps n b a (left w) (committed w) (right w))).
Proof.
  revert w. induction n as [|n IH]; intros w.
  - now destruct w.
  - change (run_schedule a b (repeat false (S n)) w)
      with (run_schedule a b (repeat false n) (sched_step a b w false)).
    rewrite IH. unfold sched_step. simpl steps.
    destruct (step b a (left w) (committed w) (right w)) as [db1 t1]. reflexivity.
Qed.

Lemma returned_remaining (t : Thread) : returned t = true <-> remaining t = 0%nat.
Proof.
  unfold returned, remaining. destruct (th_phase t); split; intros; try discriminate; auto.
Qed.

Lemma remaining_bound (t : Thread) : (remaining t <= 5)%nat.
Proof. unfold remaining. destruct (th_phase t); lia. Qed.

Lemma lock_phase_remaining (t : Thread) :
  in_lock_phase t = true -> (1 <= remaining t <= 3)%nat.
Proof.
  unfold in_lock_phase, remaining. destruct (th_phase t); intros; try discriminate; lia.
Qed.

Lemma run_schedule_app (a b : Call) (s1 s2 : list bool) (w : World) :
  run_schedule a b (s1 ++ s2) w = run_schedule a b s2 (run_schedule a b s1 w).
Proof. unfold run_schedule. apply fold_left_app. Qed.

(** From any world, [finish] brings both calls back. *)
Lemma finish_returns (a b : Call) (w : World) :
  returned (left (run_schedule a b finish w)) = true /\
  returned (right (run_schedule a b finish w)) = true.
Proof.
  unfold finish. rewrite !run_schedule_app.
  set (w1 := run_schedule a b (repeat true 5) w).
  set (w2 := run_schedule a b (repeat false 5) w1).
  set (w3 := run_schedule a b (repeat true 5) w2).
  assert (E1 : right w1 = right w) by (subst w1; now rewrite run_left).
  assert (E2 : left w2 = left w1) by (subst w2; now rewrite run_right).
  assert (E3 : right w3 = right w2) by (subst w3; now rewrite run_left).
  assert (H1 : (remaining (left w1) <= remaining (left w) - 5)%nat
               \/ in_lock_phase (right w) = true).
  { subst w1. rewrite run_left. cbn [left].
    apply steps_any. }
  assert (R2 : remaining (right w2) = 0%nat).
  { assert (Hfree : in_lock_phase (left w1) = false \/ (remaining (right w1) <= 3)%nat).
    { destruct H1 as [H | H].
      - left. pose proof (remaining_bound (left w)).
        destruct (in_lock_phase (left w1)) eqn:L; [| reflexivity].
        apply lock_phase_remaining in L. lia.
      - right. rewrite E1. apply lock_phase_remaining in H. lia. }
    pose proof (steps_free 5 b a (left w1) (committed w1) (right w1) Hfree) as S.
    pose proof (remaining_bound (right w1)).
    subst w2. rewrite run_right. cbn [right]. lia. }
  assert (L3 : remaining (left w3) = 0%nat).
  { assert (Hfree : in_lock_phase (right w2) = false \/ (remaining (left w2) <= 3)%nat).
    { left. destruct (in_lock_phase (right w2)) eqn:L; [| reflexivity].
      apply lock_phase_remaining in L. lia. }
    pose proof (steps_free 5 a b (right w2) (committed w2) (left w2) Hfree) as S.
    pose proof (remaining_bound (left w2)).
    subst w3. rewrite run_left. cbn [left]. lia. }
  split; apply returned_remaining; [exact L3 | now rewrite E3].
Qed.

End ConcurrentProgress.

(** Next to a call that has not begun, five steps of a call give the
    result and the state of [ConsumePasswordReset]. *)
Lemma solo_is_sequential (c other : Concurrent.Call) (db : DB) :
  Concurrent.steps 5 c other (Concurrent.mkThread Concurrent.AtBegin []) db
                   (Concurrent.mkThread Concurrent.AtBegin []) =
  (snd (Concurrent.sequential c db), Concurrent.back (fst (Concurrent.sequential c db))).
Proof.
  unfold Concurrent.sequential, ConsumePasswordReset, BeginTx, consume_steps, tx_run,
    Commit, Rollback, run.
  unfold Concurrent.steps, Concurrent.step. cbv zeta. simpl.
  destruct (Concurrent.c_fault c 0%nat); simpl; [reflexivity |].
  destruct (Concurrent.c_fault c 1%nat); simpl; [reflexivity |].
  rewrite (existsb_none _ _ (fun r => eq_refl)).
  rewrite first_row_map.
  destruct (first_row (filter _ (password_resets db))) as [r|e]; simpl; [| reflexivity].
  destruct (Concurrent.c_fault c 2%nat); simpl; [reflexivity |].
  rewrite first_row_map.
  destruct (first_row (filter _ (users db))) as [old|e]; simpl; [| reflexivity].
  destruct (Concurrent.c_fault c 3%nat); simpl; [reflexivity |].
  destruct (Concurrent.c_fault c 4%nat); simpl; reflexivity.
Qed.

(** C2. Two calls of [ConsumePasswordReset] with one token, each in its
    own transaction, interleaved in any order, with any driver failures:
    at no point have both succeeded.  When one has returned a user, the
    committed state is the state that call alone makes of the initial one,
    so the owner's password hash is the hash of that call, set once; the
    other call, if it has returned and met no driver failure, has
    returned [sql.ErrNoRows].  While neither has succeeded the committed
    state is the initial one.  Every interleaving can be continued until
    both calls have returned. *)
Theorem concurrent_consume_serialized
    (a b : Concurrent.Call) (db0 : DB) (sched : list bool) :
  Concurrent.c_token a = Concurrent.c_token b ->
  at_most_one_consumes a b db0 (Concurrent.run_schedule a b sched (Concurrent.start db0))
  /\
  (let w := Concurrent.run_schedule a b (sched ++ Concurrent.finish) (Concurrent.start db0) in
   Concurrent.returned (Concurrent.left w) = true /\
   Concurrent.returned (Concurrent.right w) = true /\
   at_most_one_consumes a b db0 w).
Proof.
  intros Htok. split; [| cbv zeta; split; [| split]].
  - apply ConcurrentRuns.inv_at_most_one.
    apply ConcurrentRuns.run_schedule_inv; [assumption |].
    apply ConcurrentRuns.start_inv.
  - rewrite ConcurrentProgress.run_schedule_app.
    apply ConcurrentProgress.finish_returns.
  - rewrite ConcurrentProgress.run_schedule_app.
    apply ConcurrentProgress.finish_returns.
  - apply ConcurrentRuns.inv_at_most_one.
    apply ConcurrentRuns.run_schedule_inv; [assumption |].
    apply ConcurrentRuns.start_inv.
Qed.

(** * Further properties of the store and the handlers *)

Section FurtherProperties.
Context {text : strings.Text}.

(** ** The constraints of the schema are kept *)

Lemma map_update_ids (g : User -> User) (id : Z) (l : list User) :
  (forall x, ID (g x) = ID x) ->
  map ID (map (fun x => if ID x =? id then g x else x) l) = map ID l.
Proof.
  intros Hg. induction l as [|a l IH]; simpl; [reflexivity |].
  rewrite IH. destruct (ID a =? id); [now rewrite Hg | reflexivity].
Qed.

Lemma map_update_emails (g : User -> User) (id : Z) (l : list User) :
  (forall x, Email (g x) = Email x) ->
  map Email (map (fun x => if ID x =? id then g x else x) l) = map Email l.
Proof.
  intros Hg. induction l as [|a l IH]; simpl; [reflexivity |].
  rewrite IH. destruct (ID a =? id); [now rewrite Hg | reflexivity].
Qed.

Lemma map_update_absent (g : User -> User) (id : Z) (l : list User) :
  ~ In id (map ID l) ->
  map (fun x => if ID x =? id then g x else x) l = l.
Proof.
  induction l as [|a l IH]; simpl; [reflexivity |].
  intros H. destruct (ID a =? id) eqn:E.
  - apply Z.eqb_eq in E. exfalso. apply H. now left.
  - rewrite IH; [reflexivity | tauto].
Qed.

Lemma NoDup_map_filter {A B : Type} (g : A -> B) (p : A -> bool) (l : list A) :
  NoDup (map g l) -> NoDup (map g (filter p l)).
Proof.
  induction l as [|a l IH]; simpl; [auto |].
  intros H. inversion H as [|? ? Hnotin Hnd]; subst.
  destruct (p a); simpl; [| auto].
  constructor; [| auto].
  intros Hin. apply Hnotin. apply in_map_iff in Hin as [x [Hx Hin]].
  apply filter_In in Hin as [Hin _]. apply in_map_iff. now exists x.
Qed.

Lemma NoDup_snoc {A : Type} (l : list A) (x : A) :
  NoDup l -> ~ In x l -> NoDup (l ++ [x]).
Proof.
  induction l as [|a l IH]; simpl; intros Hnd Hx.
  - constructor; [intros [] | constructor].
  - inversion Hnd as [|? ? Ha Hl]; subst. constructor.
    + intros Hin. apply in_app_or in Hin as [Hin | [-> | []]]; tauto.
    + apply IH; tauto.
Qed.

Lemma has_user_id_same_ids (db db' : DB) (id : Z) :
  map ID (users db') = map ID (users db) -> has_user_id db' id = has_user_id db id.
Proof.
  unfold has_user_id. intros H.
  assert (E : forall l, existsb (fun u => ID u =? id) l = existsb (fun x => x =? id) (map ID l)).
  { induction l as [|a l IH]; simpl; [reflexivity | now rewrite IH]. }
  now rewrite !E, H.
Qed.

Lemma has_user_id_app (db : DB) (us : list User) (id : Z) :
  has_user_id db id = true ->
  existsb (fun u => ID u =? id) (users db ++ us) = true.
Proof. unfold has_user_id. intros H. rewrite existsb_app, H. reflexivity. Qed.

Lemma sql_insert_user_wf (now : Time) (email name hash : string) (db : DB) :
  db_wf db -> db_wf (snd (sql_insert_user now email name hash db)).
Proof.
  intros [Hids Hemails Hseq Hst Hsfk Hrt Hrfk]. unfold sql_insert_user.
  destruct (existsb _ (users db)) eqn:E; simpl.
  - constructor; simpl; auto.
    intros u Hu. specialize (Hseq u Hu). lia.
  - assert (Hfresh : forall u, In u (users db) -> Email u <> email).
    { intros u Hu He.
      assert (existsb (fun u => String.eqb (Email u) email) (users db) = true)
        by (apply existsb_exists; exists u; split; [assumption | now apply String.eqb_eq]).
      congruence. }
    constructor; simpl.
    + rewrite map_app. simpl. apply NoDup_snoc; [assumption |].
      intros Hin. apply in_map_iff in Hin as [u [Hid Hu]].
      specialize (Hseq u Hu). lia.
    + rewrite map_app. simpl. apply NoDup_snoc; [assumption |].
      intros Hin. apply in_map_iff in Hin as [u [He Hu]].
      now apply (Hfresh u Hu).
    + intros u Hu. apply in_app_or in Hu as [Hu | [<- | []]].
      * specialize (Hseq u Hu). lia.
      * simpl. lia.
    + assumption.
    + intros r Hr. unfold has_user_id. simpl. apply has_user_id_app. now apply Hsfk.
    + assumption.
    + intros r Hr. unfold has_user_id. simpl. apply has_user_id_app. now apply Hrfk.
Qed.

Lemma update_emails_NoDup (g : User -> User) (id : Z) (l : list User) :
  NoDup (map ID l) -> NoDup (map Email l) ->
  (forall old o, In old l -> ID old = id -> In o l -> ID o <> id ->
                 Email o <> Email (g old)) ->
  NoDup (map Email (map (fun x => if ID x =? id then g x else x) l)).
Proof.
  induction l as [|a l IH]; simpl; intros Hids Hem Hclash; [constructor |].
  inversion Hids as [|? ? Hida Hids']; subst.
  inversion Hem as [|? ? Hema Hem']; subst.
  destruct (ID a =? id) eqn:E.
  - apply Z.eqb_eq in E.
    rewrite map_update_absent by (rewrite <- E; assumption).
    constructor; [| assumption].
    intros Hin. apply in_map_iff in Hin as [o [He Ho]].
    apply (Hclash a o); auto.
    intros Hoid. apply Hida. rewrite E, <- Hoid. now apply in_map.
  - apply Z.eqb_neq in E. constructor.
    + intros Hin. apply in_map_iff in Hin as [x' [He Hx']].
      apply in_map_iff in Hx' as [x [Hx Hin]].
      destruct (ID x =? id) eqn:Ex.
      * apply Z.eqb_eq in Ex. subst x'.
        apply (Hclash x a); auto.
      * subst x'. apply Hema. rewrite <- He. now apply in_map.
    + apply IH; auto.
Qed.

Lemma sql_update_user_wf (now : Time) (email name : option string) (id : Z) (db : DB) :
  db_wf db -> db_wf (snd (sql_update_user now email name id db)).
Proof.
  intros Hwf. pose proof Hwf as [Hids Hemails Hseq Hst Hsfk Hrt Hrfk].
  unfold sql_update_user.
  destruct (existsb _ _) eqn:Hc; simpl; [assumption |].
  assert (Hclash : forall old o, In old (users db) -> ID old = id -> In o (users db) ->
                                 ID o <> id ->
                                 Email o <> Email (update_profile_row now email name old)).
  { intros old o Hold Hoid Ho Hne He.
    assert (existsb
              (fun u => existsb (fun o => negb (ID o =? id) && String.eqb (Email o) (Email u))%bool
                                (users db))
              (map (update_profile_row now email name)
                   (filter (fun u => ID u =? id) (users db))) = true).
    { apply existsb_exists. exists (update_profile_row now email name old). split.
      - apply in_map. apply filter_In. split; [assumption | now apply Z.eqb_eq].
      - apply existsb_exists. exists o. split; [assumption |].
        apply andb_true_iff. split.
        + apply negb_true_iff. now apply Z.eqb_neq.
        + now apply String.eqb_eq. }
    congruence. }
  assert (Hsame : map ID (map (fun u => if ID u =? id then update_profile_row now email name u
                                        else u) (users db)) = map ID (users db))
    by (apply map_update_ids; reflexivity).
  constructor; simpl.
  - now rewrite Hsame.
  - now apply update_emails_NoDup.
  - intros u Hu. apply in_map_iff in Hu as [x [<- Hx]].
    specialize (Hseq x Hx). now destruct (ID x =? id).
  - assumption.
  - intros r Hr. rewrite <- (Hsfk r Hr). now apply has_user_id_same_ids.
  - assumption.
  - intros r Hr. rewrite <- (Hrfk r Hr). now apply has_user_id_same_ids.
Qed.

Lemma insert_token_row_Ok (db : DB) (rows rows' : list TokenRow) (row : TokenRow) :
  insert_token_row db rows row = Ok rows' ->
  rows' = rows ++ [row] /\ has_user_id db (user_id row) = true /\
  has_token rows (token row) = false.
Proof.
  unfold insert_token_row.
  destruct (has_user_id db (user_id row)); simpl; [| discriminate].
  destruct (has_token rows (token row)); [discriminate |].
  intros [= <-]. auto.
Qed.

Lemma token_rows_snoc_NoDup (rows : list TokenRow) (row : TokenRow) :
  NoDup (map token rows) -> has_token rows (token row) = false ->
  NoDup (map token (rows ++ [row])).
Proof.
  intros Hnd Hfresh. rewrite map_app. simpl. apply NoDup_snoc; [assumption |].
  intros Hin. apply in_map_iff in Hin as [r [Ht Hr]].
  exact (proj1 (has_token_false rows (token row)) Hfresh r Hr Ht).
Qed.

Lemma sql_insert_session_wf (userID : Z) (tok : string) (expiresAt : Time) (db : DB) :
  db_wf db -> db_wf (snd (sql_insert_session userID tok expiresAt db)).
Proof.
  intros Hwf. pose proof Hwf as [Hids Hemails Hseq Hst Hsfk Hrt Hrfk].
  unfold sql_insert_session.
  destruct (insert_token_row _ _ _) as [rows|e] eqn:E; simpl; [| assumption].
  apply insert_token_row_Ok in E as (-> & Hfk & Hfresh).
  constructor; simpl; auto.
  - now apply token_rows_snoc_NoDup.
  - intros r Hr. apply in_app_or in Hr as [Hr | [<- | []]]; [now apply Hsfk | exact Hfk].
Qed.

Lemma sql_insert_reset_wf (userID : Z) (tok : string) (expiresAt : Time) (db : DB) :
  db_wf db -> db_wf (snd (sql_insert_reset userID tok expiresAt db)).
Proof.
  intros Hwf. pose proof Hwf as [Hids Hemails Hseq Hst Hsfk Hrt Hrfk].
  unfold sql_insert_reset.
  destruct (insert_token_row _ _ _) as [rows|e] eqn:E; simpl; [| assumption].
  apply insert_token_row_Ok in E as (-> & Hfk & Hfresh).
  constructor; simpl; auto.
  - now apply token_rows_snoc_NoDup.
  - intros r Hr. apply in_app_or in Hr as [Hr | [<- | []]]; [now apply Hrfk | exact Hfk].
Qed.

Lemma consumed_wf (now : Time) (db : DB) (tok newHash : string) (userID : Z) :
  db_wf db -> db_wf (consumed now db tok newHash userID).
Proof.
  intros [Hids Hemails Hseq Hst Hsfk Hrt Hrfk].
  assert (Hsame : map ID (users (consumed now db tok newHash userID)) = map ID (users db))
    by (apply map_update_ids; reflexivity).
  constructor.
  - now rewrite Hsame.
  - simpl. rewrite map_update_emails; [assumption | reflexivity].
  - simpl. intros u Hu. apply in_map_iff in Hu as [x [<- Hx]].
    specialize (Hseq x Hx). now destruct (ID x =? userID).
  - assumption.
  - intros r Hr. rewrite <- (Hsfk r Hr). now apply has_user_id_same_ids.
  - simpl. now apply NoDup_map_filter.
  - intros r Hr. simpl in Hr. apply filter_In in Hr as [Hr _].
    rewrite <- (Hrfk r Hr). now apply has_user_id_same_ids.
Qed.

Lemma ConsumePasswordReset_wf (f : nat -> option error) (now : Time) (db : DB)
    (tok newHash : string) :
  db_wf db -> db_wf (snd (ConsumePasswordReset f now db tok newHash)).
Proof.
  intros Hwf.
  destruct (ConsumePasswordReset_cases f now db tok newHash)
    as [(err & Hout & _) | (r & old & _ & _ & _ & _ & _ & _ & _ & Hout)];
    cbv zeta in Hout; rewrite Hout; simpl; [assumption | now apply consumed_wf].
Qed.

Lemma run_wf {A : Type} (f : option error) (stmt : DB -> result A * DB) (db : DB) :
  (db_wf db -> db_wf (snd (stmt db))) -> db_wf db -> db_wf (snd (run f stmt db)).
Proof. unfold run. destruct f; simpl; auto. Qed.

Lemma CreateUser_wf (f : option error) (now : Time) (db : DB) (email name hash : string) :
  db_wf db -> db_wf (snd (CreateUser f now db email name hash)).
Proof.
  intros Hwf. unfold CreateUser.
  pose proof (run_wf f (sql_insert_user now email name hash) db
                (sql_insert_user_wf now email name hash db) Hwf) as H.
  destruct (run f _ db) as [[u|e] db']; [exact H |].
  destruct (isUniqueViolation e); exact H.
Qed.

Lemma UpdateUser_wf (f : option error) (now : Time) (db : DB) (id : Z)
    (input : UpdateProfileRequest) :
  db_wf db -> db_wf (snd (UpdateUser f now db id input)).
Proof.
  intros Hwf. unfold UpdateUser, nullableString.
  pose proof (run_wf f (sql_update_user now (upd_Email input) (upd_Name input) id) db
                (sql_update_user_wf now _ _ id db) Hwf) as H.
  destruct (run f _ db) as [[u|e] db']; [exact H |].
  destruct (isUniqueViolation e); exact H.
Qed.

Lemma CreateSession_wf (f : option error) (db : DB) (userID : Z) (tok : string)
    (expiresAt : Time) :
  db_wf db -> db_wf (snd (CreateSession f db userID tok expiresAt)).
Proof.
  intros Hwf. unfold CreateSession.
  apply run_wf; [apply sql_insert_session_wf | assumption].
Qed.

Lemma CreatePasswordReset_wf (f : option error) (db : DB) (userID : Z) (tok : string)
    (expiresAt : Time) :
  db_wf db -> db_wf (snd (CreatePasswordReset f db userID tok expiresAt)).
Proof.
  intros Hwf. unfold CreatePasswordReset.
  apply run_wf; [apply sql_insert_reset_wf | assumption].
Qed.

(** X1. Every operation of the store leaves a state that meets the
    constraints of the schema (primary key, unique email and tokens,
    foreign keys, sequence ahead of the ids) in such a state, whether it
    succeeds, is refused or meets a driver failure. *)
Theorem store_keeps_constraints (db : DB) :
  db_wf db ->
  (forall f now email name hash, db_wf (snd (CreateUser f now db email name hash)))
  /\ (forall f email, db_wf (snd (GetUserByEmail f db email)))
  /\ (forall f id, db_wf (snd (GetUserByID f db id)))
  /\ (forall f now id input, db_wf (snd (UpdateUser f now db id input)))
  /\ (forall f userID tok expiresAt, db_wf (snd (CreateSession f db userID tok expiresAt)))
  /\ (forall f now tok, db_wf (snd (GetUserBySessionToken f now db tok)))
  /\ (forall f userID tok expiresAt,
        db_wf (snd (CreatePasswordReset f db userID tok expiresAt)))
  /\ (forall f now tok newHash, db_wf (snd (ConsumePasswordReset f now db tok newHash))).
Proof.
  intros Hwf.
  split; [intros; now apply CreateUser_wf |].
  split; [intros; unfold GetUserByEmail; now apply run_wf |].
  split; [intros; unfold GetUserByID; now apply run_wf |].
  split; [intros; now apply UpdateUser_wf |].
  split; [intros; now apply CreateSession_wf |].
  split; [intros; unfold GetUserBySessionToken; now apply run_wf |].
  split; [intros; now apply CreatePasswordReset_wf |].
  intros. now apply ConsumePasswordReset_wf.
Qed.

(** ** What a handler does to the state *)

Lemma GetUserByEmail_db (f : option error) (db : DB) (email : string) :
  snd (GetUserByEmail f db email) = db.
Proof. unfold GetUserByEmail, run. now destruct f. Qed.

Lemma handleRegister_state (env : Env) (db : DB) (r : Request) :
  snd (handleRegister env db r) = db \/
  exists email name hash,
    snd (handleRegister env db r) = snd (CreateUser (fault env 0) (Now env) db email name hash).
Proof.
  unfold handleRegister.
  destruct (decodeJSON _ _) as [input|e]; [| now left].
  destruct (negb _); [now left |].
  destruct (String.eqb _ ""); [now left |].
  destruct (_ <? _); [now left |].
  destruct (hashPassword env _) as [hash|e]; [| now left].
  right. exists (normalizeEmail (reg_Email input)), (strings.TrimSpace (reg_Name input)), hash.
  destruct (CreateUser _ _ _ _ _ _) as [[u|e] d]; [reflexivity |].
  now destruct (is_ErrEmailExists e).
Qed.

Lemma handleLogin_state (env : Env) (db : DB) (r : Request) :
  snd (handleLogin env db r) = db \/
  exists userID tok,
    snd (handleLogin env db r) =
    snd (CreateSession (fault env 1) db userID tok (Now env + sessionTTL)).
Proof.
  unfold handleLogin.
  destruct (decodeJSON _ _) as [input|e]; [| now left].
  destruct (negb _); [now left |].
  pose proof (GetUserByEmail_db (fault env 0) db (normalizeEmail (login_Email input))) as Hdb.
  destruct (GetUserByEmail _ _ _) as [[u|e] d]; simpl in Hdb; subst d.
  2:{ left. now destruct (is_ErrNoRows e). }
  destruct (verifyPassword env _ _); [now left |].
  destruct (generateToken env 32) as [tok|e]; [| now left].
  right. exists (ID u), tok.
  now destruct (CreateSession _ _ _ _ _) as [[s|e] d].
Qed.

Lemma handleForgotPassword_state (env : Env) (db : DB) (r : Request) :
  snd (handleForgotPassword env db r) = db \/
  exists userID tok,
    snd (handleForgotPassword env db r) =
    snd (CreatePasswordReset (fault env 1) db userID tok (Now env + resetTTL)).
Proof.
  unfold handleForgotPassword.
  destruct (decodeJSON _ _) as [input|e]; [| now left].
  destruct (negb _); [now left |].
  pose proof (GetUserByEmail_db (fault env 0) db (normalizeEmail (forgot_Email input))) as Hdb.
  destruct (GetUserByEmail _ _ _) as [[u|e] d]; simpl in Hdb; subst d.
  2:{ left. now destruct (is_ErrNoRows e). }
  destruct (generateToken env 32) as [tok|e]; [| now left].
  right. exists (ID u), tok.
  now destruct (CreatePasswordReset _ _ _ _ _) as [[s|e] d].
Qed.

Lemma handleResetPassword_state (env : Env) (db : DB) (r : Request) :
  snd (handleResetPassword env db r) = db \/
  exists tok hash,
    snd (handleResetPassword env db r) =
    snd (ConsumePasswordReset (fault env) (Now env) db tok hash).
Proof.
  unfold handleResetPassword.
  destruct (decodeJSON _ _) as [input|e]; [| now left].
  destruct (String.eqb _ ""); [now left |].
  destruct (_ <? _); [now left |].
  destruct (hashPassword env _) as [hash|e]; [| now left].
  right. exists (strings.TrimSpace (reset_Token input)), hash.
  destruct (ConsumePasswordReset _ _ _ _ _) as [[u|e] d]; [reflexivity |].
  now destruct (is_ErrNoRows e).
Qed.

Lemma handleGetProfile_state (env : Env) (db : DB) (r : Request) :
  snd (handleGetProfile env db r) = db.
Proof.
  unfold handleGetProfile. pose proof (authenticate_db env db r) as H.
  now destruct (authenticate env db r) as [[u|e] d].
Qed.

Lemma handleUpdateProfile_state (env : Env) (db : DB) (r : Request) :
  snd (handleUpdateProfile env db r) = db \/
  exists id input,
    snd (handleUpdateProfile env db r) = snd (UpdateUser (fault env 1) (Now env) db id input).
Proof.
  unfold handleUpdateProfile. pose proof (authenticate_db env db r) as H.
  destruct (authenticate env db r) as [[cur|e] d]; simpl in H; subst d; [| now left].
  destruct (decodeJSON _ _) as [input|e]; [| now left].
  assert (G : forall email name,
             snd (match UpdateUser (fault env 1) (Now env) db (ID cur)
                          (mkUpdateProfileRequest email name) with
                  | (Err err, db1) =>
                      if is_ErrEmailExists err then
                        (writeError StatusConflict "email already exists", db1)
                      else if is_ErrNoRows err then
                        (writeError StatusNotFound "user not found", db1)
                      else (writeError StatusInternalServerError "failed to update user", db1)
                  | (Ok user, db1) => (writeJSON StatusOK (json_User user), db1)
                  end) =
             snd (UpdateUser (fault env 1) (Now env) db (ID cur)
                             (mkUpdateProfileRequest email name))).
  { intros email name. destruct (UpdateUser _ _ _ _ _) as [[u|e] d]; [reflexivity |].
    destruct (is_ErrEmailExists e); [reflexivity |]. now destruct (is_ErrNoRows e). }
  destruct (upd_Email input) as [em|], (upd_Name input) as [nm|]; simpl;
    try (now left);
    repeat (match goal with |- context [if ?c then _ else _] => destruct c end;
            try (now left));
    right; eexists; eexists; apply G.
Qed.

(** X2. Every handler of the user API leaves a state that meets the
    constraints of the schema when it starts in one, whatever the
    request, the failures of the driver and the outcomes of bcrypt and
    of the random source. *)
Theorem handlers_keep_constraints (env : Env) (db : DB) (r : Request) :
  db_wf db ->
  db_wf (snd (handleRegister env db r)) /\
  db_wf (snd (handleLogin env db r)) /\
  db_wf (snd (handleForgotPassword env db r)) /\
  db_wf (snd (handleResetPassword env db r)) /\
  db_wf (snd (handleGetProfile env db r)) /\
  db_wf (snd (handleUpdateProfile env db r)).
Proof.
  intros Hwf.
  pose proof (CreateUser_wf) as C. pose proof (UpdateUser_wf) as U.
  pose proof (CreateSession_wf) as S. pose proof (CreatePasswordReset_wf) as P.
  pose proof (ConsumePasswordReset_wf) as R.
  split; [| split; [| split; [| split; [| split]]]].
  - destruct (handleRegister_state env db r) as [-> | (e & n & h & ->)]; auto.
  - destruct (handleLogin_state env db r) as [-> | (u & t & ->)]; auto.
  - destruct (handleForgotPassword_state env db r) as [-> | (u & t & ->)]; auto.
  - destruct (handleResetPassword_state env db r) as [-> | (t & h & ->)]; auto.
  - now rewrite handleGetProfile_state.
  - destruct (handleUpdateProfile_state env db r) as [-> | (i & inp & ->)]; auto.
Qed.

(** ** What the handlers leave alone *)

Lemma CreateUser_frame (f : option error) (now : Time) (db : DB) (email name hash : string) :
  let db' := snd (CreateUser f now db email name hash) in
  user_sessions db' = user_sessions db /\ password_resets db' = password_resets db /\
  (users db' = users db \/ exists u, users db' = users db ++ [u]).
Proof.
  unfold CreateUser, run. destruct f as [e|].
  - destruct (isUniqueViolation e); simpl; auto.
  - unfold sql_insert_user. destruct (existsb _ _); simpl; auto.
    repeat split. right. eauto.
Qed.

Lemma CreateSession_frame (f : option error) (db : DB) (userID : Z) (tok : string)
    (expiresAt : Time) :
  let db' := snd (CreateSession f db userID tok expiresAt) in
  users db' = users db /\ users_id_seq db' = users_id_seq db /\
  password_resets db' = password_resets db /\
  (user_sessions db' = user_sessions db \/
   user_sessions db' = user_sessions db ++ [mkTokenRow userID tok expiresAt]).
Proof.
  unfold CreateSession, run, sql_insert_session. destruct f as [e|]; simpl; auto.
  destruct (insert_token_row _ _ _) as [rows|e] eqn:E; simpl; auto.
  apply insert_token_row_Ok in E as (-> & _). auto.
Qed.

Lemma CreatePasswordReset_frame (f : option error) (db : DB) (userID : Z) (tok : string)
    (expiresAt : Time) :
  let db' := snd (CreatePasswordReset f db userID tok expiresAt) in
  users db' = users db /\ users_id_seq db' = users_id_seq db /\
  user_sessions db' = user_sessions db /\
  (password_resets db' = password_resets db \/
   password_resets db' = password_resets db ++ [mkTokenRow userID tok expiresAt]).
Proof.
  unfold CreatePasswordReset, run, sql_insert_reset. destruct f as [e|]; simpl; auto.
  destruct (insert_token_row _ _ _) as [rows|e] eqn:E; simpl; auto.
  apply insert_token_row_Ok in E as (-> & _). auto.
Qed.

Lemma map_update_field {B : Type} (fld : User -> B) (g : User -> User) (id : Z)
    (l : list User) :
  (forall x, fld (g x) = fld x) ->
  map fld (map (fun x => if ID x =? id then g x else x) l) = map fld l.
Proof.
  intros Hg. induction l as [|a l IH]; simpl; [reflexivity |].
  rewrite IH. destruct (ID a =? id); [now rewrite Hg | reflexivity].
Qed.

Lemma ConsumePasswordReset_frame (f : nat -> option error) (now : Time) (db : DB)
    (tok newHash : string) :
  let db' := snd (ConsumePasswordReset f now db tok newHash) in
  user_sessions db' = user_sessions db /\ users_id_seq db' = users_id_seq db /\
  map ID (users db') = map ID (users db) /\
  map Email (users db') = map Email (users db) /\
  map Name (users db') = map Name (users db) /\
  map CreatedAt (users db') = map CreatedAt (users db) /\
  (forall r, In r (password_resets db') -> In r (password_resets db)).
Proof.
  destruct (ConsumePasswordReset_cases f now db tok newHash)
    as [(err & Hout & _) | (r & old & _ & _ & _ & _ & _ & _ & _ & Hout)];
    cbv zeta in Hout |- *; rewrite Hout; simpl; [repeat split; auto |].
  repeat split; try (apply map_update_field; reflexivity).
  intros x Hx. now apply filter_In in Hx as [Hx _].
Qed.

Lemma UpdateUser_frame_tables (f : option error) (now : Time) (db : DB) (id : Z)
    (input : UpdateProfileRequest) :
  let db' := snd (UpdateUser f now db id input) in
  user_sessions db' = user_sessions db /\ password_resets db' = password_resets db /\
  users_id_seq db' = users_id_seq db /\
  map ID (users db') = map ID (users db) /\
  map PasswordHash (users db') = map PasswordHash (users db) /\
  map CreatedAt (users db') = map CreatedAt (users db).
Proof.
  assert (S : let db' := snd (sql_update_user now (upd_Email input) (upd_Name input) id db) in
              user_sessions db' = user_sessions db /\
              password_resets db' = password_resets db /\
              users_id_seq db' = users_id_seq db /\
              map ID (users db') = map ID (users db) /\
              map PasswordHash (users db') = map PasswordHash (users db) /\
              map CreatedAt (users db') = map CreatedAt (users db)).
  { unfold sql_update_user. destruct (existsb _ _); simpl; [repeat split; auto |].
    repeat split; apply map_update_field; reflexivity. }
  unfold UpdateUser, run, nullableString. destruct f as [e|].
  - destruct (isUniqueViolation e); simpl; repeat split; auto.
  - cbv zeta in S |- *.
    destruct (sql_update_user _ _ _ _ _) as [[u|e] d]; [exact S |].
    destruct (isUniqueViolation e); exact S.
Qed.

(** X3. What each handler never touches.  Register leaves sessions and
    reset tokens alone and removes or alters no user; login and
    forgot-password never alter the users and add at most one row to their
    own table; a password reset ends no session and changes no id, email,
    name or creation time; the profile read changes nothing; a profile
    update changes no id, password hash or creation time and leaves
    sessions and reset tokens alone. *)
Theorem handlers_frame (env : Env) (db : DB) (r : Request) :
  (let db' := snd (handleRegister env db r) in
   user_sessions db' = user_sessions db /\ password_resets db' = password_resets db /\
   (users db' = users db \/ exists u, users db' = users db ++ [u]))
  /\ (let db' := snd (handleLogin env db r) in
      users db' = users db /\ password_resets db' = password_resets db /\
      (user_sessions db' = user_sessions db \/
       exists s, user_sessions db' = user_sessions db ++ [s]))
  /\ (let db' := snd (handleForgotPassword env db r) in
      users db' = users db /\ user_sessions db' = user_sessions db /\
      (password_resets db' = password_resets db \/
       exists s, password_resets db' = password_resets db ++ [s]))
  /\ (let db' := snd (handleResetPassword env db r) in
      user_sessions db' = user_sessions db /\
      map ID (users db') = map ID (users db) /\
      map Email (users db') = map Email (users db) /\
      map Name (users db') = map Name (users db) /\
      map CreatedAt (users db') = map CreatedAt (users db) /\
      (forall x, In x (password_resets db') -> In x (password_resets db)))
  /\ snd (handleGetProfile env db r) = db
  /\ (let db' := snd (handleUpdateProfile env db r) in
      user_sessions db' = user_sessions db /\ password_resets db' = password_resets db /\
      map ID (users db') = map ID (users db) /\
      map PasswordHash (users db') = map PasswordHash (users db) /\
      map CreatedAt (users db') = map CreatedAt (users db)).
Proof.
  cbv zeta. split; [| split; [| split; [| split; [| split]]]].
  - destruct (handleRegister_state env db r) as [-> | (e & n & h & ->)]; [auto |].
    apply CreateUser_frame.
  - destruct (handleLogin_state env db r) as [-> | (u & t & ->)]; [auto |].
    destruct (CreateSession_frame (fault env 1) db u t (Now env + sessionTTL))
      as (A & _ & B & [C | C]); cbv zeta in *; eauto.
  - destruct (handleForgotPassword_state env db r) as [-> | (u & t & ->)]; [auto |].
    destruct (CreatePasswordReset_frame (fault env 1) db u t (Now env + resetTTL))
      as (A & _ & B & [C | C]); cbv zeta in *; eauto.
  - destruct (handleResetPassword_state env db r) as [-> | (t & h & ->)];
      [repeat split; auto |].
    destruct (ConsumePasswordReset_frame (fault env) (Now env) db t h)
      as (A & _ & B & C & D & E & F); cbv zeta in *. auto 10.
  - apply handleGetProfile_state.
  - destruct (handleUpdateProfile_state env db r) as [-> | (i & inp & ->)]; [auto 10 |].
    destruct (UpdateUser_frame_tables (fault env 1) (Now env) db i inp)
      as (A & B & _ & C & D & E); cbv zeta in *. auto 10.
Qed.

(** ** Errors of the store leave the tables alone *)

Lemma set_users_same (db : DB) : set_users db (users db) = db.
Proof. now destruct db. Qed.

Lemma sql_update_user_Err (now : Time) (email name : option string) (id : Z)
    (db db' : DB) (err : error) :
  sql_update_user now email name id db = (Err err, db') ->
  db' = db /\
  ((err = ErrNoRows /\ has_user_id db id = false) \/
   (err = PgError uniqueViolationCode /\ has_user_id db id = true)).
Proof.
  unfold sql_update_user.
  destruct (existsb _ (map _ _)) eqn:C.
  - intros [= <- <-]. split; [reflexivity | right]. split; [reflexivity |].
    apply existsb_exists in C as [u [Hu _]].
    apply in_map_iff in Hu as [old [_ Hold]]. apply filter_In in Hold as [Hold Hid].
    apply existsb_exists. now exists old.
  - intros [= Hfirst <-]. rewrite first_row_map in Hfirst.
    destruct (first_row (filter _ (users db))) as [u|e] eqn:F; [discriminate |].
    apply first_row_Err in F as [F ->]. injection Hfirst as <-.
    assert (Hnone : has_user_id db id = false).
    { unfold has_user_id. apply not_true_is_false. intros H.
      apply existsb_exists in H as [u [Hu Hid]].
      assert (Hin : In u (filter (fun u => ID u =? id) (users db)))
        by (apply filter_In; auto).
      rewrite F in Hin. destruct Hin. }
    split; [| left; auto].
    rewrite map_update_absent; [apply set_users_same |].
    intros Hin. apply in_map_iff in Hin as [u [Hid Hu]].
    assert (has_user_id db id = true)
      by (apply existsb_exists; exists u; split; [assumption | now apply Z.eqb_eq]).
    congruence.
Qed.

Lemma UpdateUser_Err_db (f : option error) (now : Time) (db db' : DB) (id : Z)
    (input : UpdateProfileRequest) (err : error) :
  UpdateUser f now db id input = (Err err, db') -> db' = db.
Proof.
  unfold UpdateUser, run, nullableString. destruct f as [e|].
  - destruct (isUniqueViolation e); intros [= _ <-]; reflexivity.
  - destruct (sql_update_user _ _ _ _ _) as [[u|e] d] eqn:S; [discriminate |].
    apply sql_update_user_Err in S as [-> _].
    destruct (isUniqueViolation e); intros [= _ <-]; reflexivity.
Qed.



Lemma ConsumePasswordReset_Err_db (f : nat -> option error) (now : Time) (db db' : DB)
    (tok newHash : string) (err : error) :
  ConsumePasswordReset f now db tok newHash = (Err err, db') -> db' = db.
Proof.
  intros H.
  destruct (ConsumePasswordReset_cases f now db tok newHash)
    as [(e & Hout & _) | (r & old & _ & _ & _ & _ & _ & _ & _ & Hout)];
    cbv zeta in Hout; rewrite Hout in H; [| discriminate].
  now injection H as _ <-.
Qed.


(** ** Status codes *)

Lemma failure_writeError (codes : list Z) (st : Z) (message : string) (db : DB) :
  In st codes -> failure codes (writeError st message, db) db.
Proof. intros H. repeat split; [exact H | now exists message]. Qed.

Ltac fail_with := apply failure_writeError; simpl; tauto.



Lemma handleResetPassword_status (env : Env) (db : DB) (r : Request) :
  status (fst (handleResetPassword env db r)) = 200 \/
  failure [400; 500] (handleResetPassword env db r) db.
Proof.
  unfold handleResetPassword.
  destruct (decodeJSON _ _) as [input|e]; [| right; fail_with].
  destruct (String.eqb _ ""); [right; fail_with |].
  destruct (_ <? _); [right; fail_with |].
  destruct (hashPassword env _) as [hash|e]; [| right; fail_with].
  destruct (ConsumePasswordReset _ _ _ _ _) as [[u|e] d] eqn:C; [now left | right].
  rewrite (ConsumePasswordReset_Err_db _ _ _ _ _ _ _ C). destruct (is_ErrNoRows e); fail_with.
Qed.


Lemma handleUpdateProfile_status (env : Env) (db : DB) (r : Request) :
  status (fst (handleUpdateProfile env db r)) = 200 \/
  failure [400; 401; 404; 409; 500] (handleUpdateProfile env db r) db.
Proof.
  unfold handleUpdateProfile. pose proof (authenticate_db env db r) as H.
  destruct (authenticate env db r) as [[cur|e] d]; simpl in H; subst d;
    [| right; fail_with].
  destruct (decodeJSON _ _) as [input|e]; [| right; fail_with].
  assert (G : forall email name,
             let out :=
               match UpdateUser (fault env 1) (Now env) db (ID cur)
                       (mkUpdateProfileRequest email name) with
               | (Err err, db1) =>
                   if is_ErrEmailExists err then
                     (writeError StatusConflict "email already exists", db1)
                   else if is_ErrNoRows err then
                     (writeError StatusNotFound "user not found", db1)
                   else (writeError StatusInternalServerError "failed to update user", db1)
               | (Ok user, db1) => (writeJSON StatusOK (json_User user), db1)
               end in
             status (fst out) = 200 \/ failure [400; 401; 404; 409; 500] out db).
  { intros email name. cbv zeta.
    destruct (UpdateUser _ _ _ _ _) as [[u|e] d] eqn:U; [now left | right].
    rewrite (UpdateUser_Err_db _ _ _ _ _ _ _ U).
    destruct (is_ErrEmailExists e); [fail_with |]. destruct (is_ErrNoRows e); fail_with. }
  destruct (upd_Email input) as [em|], (upd_Name input) as [nm|]; simpl;
    try (right; fail_with);
    repeat (match goal with |- context [if ?c then _ else _] => destruct c end;
            try (right; fail_with));
    apply G.
Qed.



(** ** Registration, in full *)

Lemma CreateUser_fresh (now : Time) (db : DB) (email name hash : string) :
  email_unknown db email ->
  CreateUser None now db email name hash =
  (Ok (mkUser (users_id_seq db) email name hash now now),
   add_user db (mkUser (users_id_seq db) email name hash now now)).
Proof.
  intros H. unfold CreateUser, run. now rewrite (insert_user_fresh now db email name hash H).
Qed.

Lemma handleRegister_accepts (env : Env) (db : DB) (r : Request) (input : RegisterRequest)
    (hash : string) :
  decodeJSON unmarshal_RegisterRequest (req_body r) = Ok input ->
  register_valid input = true ->
  hashPassword env (reg_Password input) = Ok hash ->
  fault env 0%nat = None ->
  email_unknown db (normalizeEmail (reg_Email input)) ->
  handleRegister env db r =
  (writeJSON 201 (json_User (registered env db input hash)),
   add_user db (registered env db input hash)).
Proof.
  intros D V H F U. rewrite (handleRegister_valid env db r input D V), H, F.
  now rewrite (CreateUser_fresh _ _ _ _ _ U).
Qed.

(** X6. Register answers 201 exactly when the body decodes, passes the
    checks, bcrypt returns a hash, the driver answers and no user has the
    normalized email.  Then one row is added: its id is the next of the
    sequence, its email the normalized email, its name the trimmed name,
    its hash the one bcrypt returned, both timestamps now; the body is the
    JSON form of that row. *)
Theorem handleRegister_created (env : Env) (db : DB) (r : Request) :
  (status (fst (handleRegister env db r)) = 201 ->
   exists input hash,
     decodeJSON unmarshal_RegisterRequest (req_body r) = Ok input /\
     register_valid input = true /\
     hashPassword env (reg_Password input) = Ok hash /\
     fault env 0%nat = None /\
     email_unknown db (normalizeEmail (reg_Email input)))
  /\
  (forall input hash,
     decodeJSON unmarshal_RegisterRequest (req_body r) = Ok input ->
     register_valid input = true ->
     hashPassword env (reg_Password input) = Ok hash ->
     fault env 0%nat = None ->
     email_unknown db (normalizeEmail (reg_Email input)) ->
     handleRegister env db r =
       (writeJSON 201 (json_User (registered env db input hash)),
        add_user db (registered env db input hash))).
Proof.
  split.
  - intros S.
    destruct (decodeJSON unmarshal_RegisterRequest (req_body r)) as [input|e] eqn:D.
    2:{ unfold handleRegister in S. rewrite D in S. discriminate. }
    destruct (register_valid input) eqn:V.
    2:{ destruct (handleRegister_invalid env db r input D V) as [S' _]. congruence. }
    pose proof (handleRegister_valid env db r input D V) as E.
    destruct (hashPassword env (reg_Password input)) as [hash|e] eqn:H.
    2:{ rewrite E in S. discriminate. }
    destruct (CreateUser _ _ _ _ _ _) as [[u|e] d] eqn:C.
    2:{ rewrite E in S. destruct (is_ErrEmailExists e); discriminate. }
    apply CreateUser_Ok in C as (F & Hnew & -> & ->).
    exists input, hash. repeat split; auto.
  - intros input hash. apply handleRegister_accepts.
Qed.

(** ** Login, and registration followed by login *)

Lemma insert_session_fresh (db : DB) (u : User) (tok : string) (expiresAt : Time) :
  In u (users db) -> has_token (user_sessions db) tok = false ->
  sql_insert_session (ID u) tok expiresAt db =
  (Ok (mkSession tok expiresAt), add_session db (mkTokenRow (ID u) tok expiresAt)).
Proof.
  intros Hu Hfresh. unfold sql_insert_session, insert_token_row. simpl.
  replace (has_user_id db (ID u)) with true.
  - simpl. rewrite Hfresh. reflexivity.
  - symmetry. apply has_user_id_true. now exists u.
Qed.

Lemma handleLogin_accepts (env : Env) (db : DB) (r : Request) (input : LoginRequest)
    (u : User) (tok : string) :
  decodeJSON unmarshal_LoginRequest (req_body r) = Ok input ->
  db_wf db -> In u (users db) -> Email u = normalizeEmail (login_Email input) ->
  isValidEmail (Email u) = true ->
  fault env 0%nat = None -> fault env 1%nat = None ->
  verifyPassword env (PasswordHash u) (login_Password input) = None ->
  generateToken env 32 = Ok tok ->
  has_token (user_sessions db) tok = false ->
  handleLogin env db r =
  (writeJSON 200 (json_LoginResponse
                    (mkLoginResponse u (mkSession tok (Now env + sessionTTL)))),
   add_session db (mkTokenRow (ID u) tok (Now env + sessionTTL))).
Proof.
  intros D Hwf Hu He V F0 F1 Hver Htok Hfresh.
  unfold handleLogin. rewrite D, <- He, V. simpl.
  unfold GetUserByEmail, run. rewrite F0, (select_user_by_email_some _ _ Hwf Hu).
  rewrite Hver, Htok. unfold CreateSession, run.
  rewrite F1, (insert_session_fresh _ _ _ _ Hu Hfresh). reflexivity.
Qed.

Lemma handleLogin_rejects (env : Env) (db : DB) (r : Request) (input : LoginRequest)
    (u : User) (err : error) :
  decodeJSON unmarshal_LoginRequest (req_body r) = Ok input ->
  db_wf db -> In u (users db) -> Email u = normalizeEmail (login_Email input) ->
  isValidEmail (Email u) = true ->
  fault env 0%nat = None ->
  verifyPassword env (PasswordHash u) (login_Password input) = Some err ->
  handleLogin env db r = (invalid_credentials, db).
Proof.
  intros D Hwf Hu He V F0 Hver.
  unfold handleLogin. rewrite D, <- He, V. simpl.
  unfold GetUserByEmail, run. rewrite F0, (select_user_by_email_some _ _ Hwf Hu).
  now rewrite Hver.
Qed.

Lemma add_user_wf (env : Env) (db : DB) (input : RegisterRequest) (hash : string) :
  db_wf db -> email_unknown db (normalizeEmail (reg_Email input)) ->
  db_wf (add_user db (registered env db input hash)).
Proof.
  intros Hwf Hnew.
  pose proof (CreateUser_wf None (Now env) db (normalizeEmail (reg_Email input))
                (strings.TrimSpace (reg_Name input)) hash Hwf) as H.
  now rewrite (CreateUser_fresh _ _ _ _ _ Hnew) in H.
Qed.

(** X7. Registration followed by login.  After a registration answered
    201, a login whose email normalizes to the registered one finds the
    new user: it is answered 200 with that user and a session of 24 hours
    when bcrypt accepts the password against the stored hash (and the
    token is new), and 401 "invalid credentials" when bcrypt refuses
    it. *)
Theorem register_then_login
    (env1 env2 : Env) (db : DB) (r1 r2 : Request) (input : RegisterRequest)
    (login : LoginRequest) (hash tok : string) :
  db_wf db ->
  decodeJSON unmarshal_RegisterRequest (req_body r1) = Ok input ->
  hashPassword env1 (reg_Password input) = Ok hash ->
  status (fst (handleRegister env1 db r1)) = 201 ->
  decodeJSON unmarshal_LoginRequest (req_body r2) = Ok login ->
  normalizeEmail (login_Email login) = normalizeEmail (reg_Email input) ->
  fault env2 0%nat = None -> fault env2 1%nat = None ->
  generateToken env2 32 = Ok tok ->
  has_token (user_sessions db) tok = false ->
  let user := registered env1 db input hash in
  let db1 := snd (handleRegister env1 db r1) in
  db1 = add_user db user /\
  (verifyPassword env2 hash (login_Password login) = None ->
   handleLogin env2 db1 r2 =
   (writeJSON 200 (json_LoginResponse
                     (mkLoginResponse user (mkSession tok (Now env2 + sessionTTL)))),
    add_session db1 (mkTokenRow (ID user) tok (Now env2 + sessionTTL))))
  /\
  (forall err, verifyPassword env2 hash (login_Password login) = Some err ->
               handleLogin env2 db1 r2 = (invalid_credentials, db1)).
Proof.
  intros Hwf D H S D2 He F0 F1 Htok Hfresh user db1.
  assert (V : register_valid input = true).
  { destruct (register_valid input) eqn:V; [reflexivity |].
    destruct (handleRegister_invalid env1 db r1 input D V) as [S' _]. congruence. }
  pose proof (handleRegister_valid env1 db r1 input D V) as E. rewrite H in E.
  destruct (CreateUser _ _ _ _ _ _) as [[u|e] d] eqn:C.
  2:{ rewrite E in S. destruct (is_ErrEmailExists e); discriminate. }
  apply CreateUser_Ok in C as (F & Hnew & -> & ->).
  assert (Hdb1 : db1 = add_user db user) by (subst db1; now rewrite E).
  assert (Hwf1 : db_wf (add_user db user)) by now apply add_user_wf.
  assert (Hin : In user (users (add_user db user)))
    by (simpl; apply in_or_app; right; now left).
  assert (Hv : isValidEmail (Email user) = true)
    by (apply register_valid_true in V; tauto).
  split; [exact Hdb1 |]. rewrite Hdb1. split.
  - intros Hver.
    apply (handleLogin_accepts env2 _ r2 login user tok); auto.
  - intros err Hver.
    apply (handleLogin_rejects env2 _ r2 login user err); auto.
Qed.

(** ** A session from login to the profile *)

Lemma handleLogin_200 (env : Env) (db : DB) (r : Request) :
  status (fst (handleLogin env db r)) = 200 ->
  exists u tok,
    In u (users db) /\ has_token (user_sessions db) tok = false /\
    generateToken env 32 = Ok tok /\
    handleLogin env db r =
    (writeJSON 200 (json_LoginResponse
                      (mkLoginResponse u (mkSession tok (Now env + sessionTTL)))),
     add_session db (mkTokenRow (ID u) tok (Now env + sessionTTL))).
Proof.
  unfold handleLogin.
  destruct (decodeJSON _ _) as [input|e]; [| discriminate].
  destruct (negb _); [discriminate |].
  unfold GetUserByEmail, run. destruct (fault env 0%nat) as [e|].
  { destruct (is_ErrNoRows e); discriminate. }
  destruct (sql_select_user_by_email _ db) as [[u|e] d] eqn:S.
  2:{ destruct (is_ErrNoRows e); discriminate. }
  assert (d = db) by (unfold sql_select_user_by_email in S; congruence). subst d.
  apply (f_equal fst) in S. apply select_user_by_email_Ok in S as [Hu _].
  destruct (verifyPassword env _ _); [discriminate |].
  destruct (generateToken env 32) as [tok|e]; [| discriminate].
  unfold CreateSession, run. destruct (fault env 1%nat); [discriminate |].
  unfold sql_insert_session.
  destruct (insert_token_row _ _ _) as [rows|e] eqn:I; [| discriminate].
  apply insert_token_row_Ok in I as (-> & _ & Hfresh). simpl in Hfresh.
  intros _. exists u, tok. repeat split; auto.
Qed.

Lemma HasPrefix_app (pre s : string) : strings.HasPrefix (pre ++ s) pre = true.
Proof.
  induction pre as [|c pre IH]; simpl.
  - now destruct s.
  - now rewrite Ascii.eqb_refl, IH.
Qed.

Lemma TrimPrefix_app (pre s : string) : strings.TrimPrefix (pre ++ s) pre = s.
Proof.
  unfold strings.TrimPrefix. rewrite HasPrefix_app.
  induction pre as [|c pre IH]; simpl; [reflexivity | exact IH].
Qed.

Lemma authenticate_bearer (env : Env) (db : DB) (tok : string) :
  strings.TrimSpace tok = tok -> tok <> "" ->
  authenticate env db (mkRequest ("Bearer " ++ tok) (mkBody [] None)) =
  match GetUserBySessionToken (fault env 0) (Now env) db tok with
  | (Err err, db') => if is_ErrNoRows err then (Err errUnauthorized, db') else (Err err, db')
  | (Ok user, db') => (Ok user, db')
  end.
Proof.
  intros Ht Hne. unfold authenticate.
  change (Authorization (mkRequest ("Bearer " ++ tok) (mkBody [] None)))
    with ("Bearer " ++ tok)%string.
  replace (String.eqb ("Bearer " ++ tok) "") with false by reflexivity.
  rewrite HasPrefix_app, TrimPrefix_app.
  cbn [orb negb]. rewrite Ht.
  apply String.eqb_neq in Hne. now rewrite Hne.
Qed.

Lemma add_session_live (now : Time) (db : DB) (u : User) (tok : string) (expiresAt : Time) :
  db_wf db -> In u (users db) -> has_token (user_sessions db) tok = false ->
  let db1 := add_session db (mkTokenRow (ID u) tok expiresAt) in
  (now < expiresAt -> sql_select_user_by_session now tok db1 = (Ok u, db1)) /\
  (expiresAt <= now -> sql_select_user_by_session now tok db1 = (Err ErrNoRows, db1)).
Proof.
  intros Hwf Hu Hfresh db1.
  assert (Hwf1 : db_wf db1).
  { pose proof (sql_insert_session_wf (ID u) tok expiresAt db Hwf) as H.
    now rewrite (insert_session_fresh _ _ _ _ Hu Hfresh) in H. }
  split; intros Hexp.
  - apply select_user_by_session_some; [assumption |].
    exists (mkTokenRow (ID u) tok expiresAt). simpl. repeat split; auto.
    apply in_or_app. right. now left.
  - apply select_user_by_session_none. simpl. intros s Hs [Htok Hlive].
    apply in_app_or in Hs as [Hs | [<- | []]].
    + exact (proj1 (has_token_false _ _) Hfresh s Hs Htok).
    + simpl in Hlive. lia.
Qed.

(** X8. A session from login to the profile.  After a login answered 200
    with a token (a non-empty string without surrounding white space), a
    profile read carrying "Bearer " and that token is answered 200 with
    the same user as long as the clock is before the login time plus 24
    hours, and 401 from that instant on. *)
Theorem login_then_profile (env env' : Env) (db : DB) (r : Request) :
  db_wf db ->
  status (fst (handleLogin env db r)) = 200 ->
  fault env' 0%nat = None ->
  exists u tok,
    In u (users db) /\
    body (fst (handleLogin env db r)) =
      json_LoginResponse (mkLoginResponse u (mkSession tok (Now env + sessionTTL))) /\
    (strings.TrimSpace tok = tok -> tok <> "" ->
     let db1 := snd (handleLogin env db r) in
     let read := handleGetProfile env' db1 (mkRequest ("Bearer " ++ tok) (mkBody [] None)) in
     (Now env' < Now env + sessionTTL -> read = (writeJSON 200 (json_User u), db1)) /\
     (Now env + sessionTTL <= Now env' -> read = (writeError 401 "unauthorized", db1))).
Proof.
  intros Hwf S F.
  destruct (handleLogin_200 env db r S) as (u & tok & Hu & Hfresh & _ & E).
  exists u, tok. rewrite E. split; [assumption | split; [reflexivity |]].
  intros Ht Hne. cbv zeta. simpl snd.
  destruct (add_session_live (Now env') db u tok (Now env + sessionTTL) Hwf Hu Hfresh)
    as [Hlive Hdead]. cbv zeta in Hlive, Hdead.
  unfold handleGetProfile. rewrite (authenticate_bearer _ _ _ Ht Hne).
  unfold GetUserBySessionToken, run. rewrite F. split; intros Hexp.
  - now rewrite (Hlive Hexp).
  - now rewrite (Hdead Hexp).
Qed.

(** ** A reset token is good once, and only before it expires *)

Lemma first_live_reset (now : Time) (db : DB) (row : TokenRow) :
  db_wf db -> In row (password_resets db) -> now < expires_at row ->
  first_row (filter (live now (token row)) (password_resets db)) = Ok row.
Proof.
  intros Hwf Hin Hexp.
  destruct (first_row _) as [r|e] eqn:F.
  - apply first_row_Ok_In in F. apply filter_In in F as [Hr Hl].
    apply live_spec in Hl as [Ht _]. f_equal.
    apply (NoDup_map_inj token (password_resets db)); auto using wf_reset_tokens.
  - apply first_row_Err in F as [F _]. exfalso.
    assert (H : In row (filter (live now (token row)) (password_resets db))).
    { apply filter_In. split; [assumption |]. now apply live_spec. }
    rewrite F in H. destruct H.
Qed.

Lemma no_live_reset_expired (now : Time) (db : DB) (row : TokenRow) :
  db_wf db -> In row (password_resets db) -> expires_at row <= now ->
  no_live_reset now db (token row).
Proof.
  intros Hwf Hin Hexp r Hr [Ht Hl].
  assert (r = row)
    by (apply (NoDup_map_inj token (password_resets db)); auto using wf_reset_tokens).
  subst r. lia.
Qed.

Lemma first_owner (db : DB) (id : Z) :
  has_user_id db id = true ->
  exists old, first_row (filter (fun u => ID u =? id) (users db)) = Ok old /\
              In old (users db) /\ ID old = id.
Proof.
  intros H. apply has_user_id_true in H as [u [Hu Hid]].
  destruct (first_row _) as [old|e] eqn:F.
  - exists old. apply first_row_Ok_In in F as F'. apply filter_In in F' as [Hold Hi].
    apply Z.eqb_eq in Hi. auto.
  - apply first_row_Err in F as [F _]. exfalso.
    assert (H : In u (filter (fun u => ID u =? id) (users db)))
      by (apply filter_In; split; [assumption | now apply Z.eqb_eq]).
    rewrite F in H. destruct H.
Qed.

Lemma ConsumePasswordReset_no_live (f : nat -> option error) (now : Time) (db : DB)
    (tok newHash : string) :
  no_live_reset now db tok -> f 0%nat = None -> f 1%nat = None ->
  ConsumePasswordReset f now db tok newHash = (Err ErrNoRows, db).
Proof.
  intros Hnone F0 F1. apply no_live_reset_filter in Hnone.
  unfold ConsumePasswordReset, BeginTx, consume_steps, tx_run, Rollback, run.
  rewrite F0. simpl. rewrite F1. simpl. rewrite Hnone. reflexivity.
Qed.

Lemma handleResetPassword_200 (env : Env) (db : DB) (r : Request) :
  status (fst (handleResetPassword env db r)) = 200 ->
  exists input hash user,
    decodeJSON unmarshal_ResetPasswordRequest (req_body r) = Ok input /\
    ConsumePasswordReset (fault env) (Now env) db (strings.TrimSpace (reset_Token input)) hash
      = (Ok user, snd (handleResetPassword env db r)).
Proof.
  unfold handleResetPassword.
  destruct (decodeJSON _ _) as [input|e]; [| discriminate].
  destruct (String.eqb _ ""); [discriminate |].
  destruct (_ <? _); [discriminate |].
  destruct (hashPassword env _) as [hash|e]; [| discriminate].
  destruct (ConsumePasswordReset _ _ _ _ _) as [[u|e] d] eqn:C.
  - intros _. exists input, hash, u. auto.
  - destruct (is_ErrNoRows e); discriminate.
Qed.

Lemma ConsumePasswordReset_Ok_live (f : nat -> option error) (now : Time) (db db' : DB)
    (tok newHash : string) (user : User) :
  ConsumePasswordReset f now db tok newHash = (Ok user, db') ->
  exists r, In r (password_resets db) /\ token r = tok /\ now < expires_at r.
Proof.
  intros H.
  destruct (ConsumePasswordReset_cases f now db tok newHash)
    as [(e & Hout & _) | (r & old & _ & _ & _ & _ & _ & Hr & _ & Hout)];
    cbv zeta in Hout; rewrite Hout in H; [discriminate |].
  apply first_row_Ok_In in Hr. apply filter_In in Hr as [Hr Hl].
  apply live_spec in Hl. exists r. tauto.
Qed.

Lemma handleResetPassword_valid (env : Env) (db : DB) (r : Request)
    (input : ResetPasswordRequest) (tok hash : string) :
  decodeJSON unmarshal_ResetPasswordRequest (req_body r) = Ok input ->
  strings.TrimSpace (reset_Token input) = tok -> tok <> "" ->
  minPasswordLength <= len (reset_NewPassword input) ->
  hashPassword env (reset_NewPassword input) = Ok hash ->
  handleResetPassword env db r =
  match ConsumePasswordReset (fault env) (Now env) db tok hash with
  | (Err err, db') =>
      if is_ErrNoRows err then (reset_refused, db')
      else (writeError 500 "failed to reset password", db')
  | (Ok _, db') => (reset_done, db')
  end.
Proof.
  intros D Ht Hne Hlen Hh. unfold handleResetPassword. rewrite D, Ht.
  apply String.eqb_neq in Hne. rewrite Hne.
  replace (len (reset_NewPassword input) <? minPasswordLength) with false
    by (symmetry; apply Z.ltb_ge; exact Hlen).
  now rewrite Hh.
Qed.

Lemma ConsumePasswordReset_live (f : nat -> option error) (now : Time) (db : DB)
    (row : TokenRow) (hash : string) :
  db_wf db -> In row (password_resets db) -> now < expires_at row ->
  (forall n, f n = None) ->
  exists old,
    In old (users db) /\ ID old = user_id row /\
    ConsumePasswordReset f now db (token row) hash =
    (Ok (set_password_row now hash old), consumed now db (token row) hash (user_id row)).
Proof.
  intros Hwf Hin Hexp F.
  destruct (first_owner db (user_id row) (wf_reset_fk db Hwf row Hin))
    as (old & Hold & Ho & Hid).
  exists old. split; [assumption | split; [assumption |]].
  exact (ConsumePasswordReset_success f now db (token row) hash row old
           (F 0%nat) (F 1%nat) (F 2%nat) (F 3%nat) (F 4%nat)
           (first_live_reset _ _ _ Hwf Hin Hexp) Hold).
Qed.

Lemma reset_never_again (env : Env) (now : Time) (db : DB) (tok hash : string) (userID : Z)
    (r : Request) (input : ResetPasswordRequest) :
  decodeJSON unmarshal_ResetPasswordRequest (req_body r) = Ok input ->
  strings.TrimSpace (reset_Token input) = tok ->
  failure [400; 500] (handleResetPassword env (consumed now db tok hash userID) r)
          (consumed now db tok hash userID).
Proof.
  intros D Ht.
  destruct (handleResetPassword_status env (consumed now db tok hash userID) r)
    as [S | Hfail]; [exfalso | exact Hfail].
  destruct (handleResetPassword_200 _ _ _ S) as (i & h & u & Di & Ci).
  rewrite D in Di. injection Di as <-. rewrite Ht in Ci.
  apply ConsumePasswordReset_Ok_live in Ci as (x & Hx & Hxt & _).
  exact (proj1 (has_token_false _ _) (consumed_no_token now db tok hash userID) x Hx Hxt).
Qed.

(** X9. The life of a reset token.  With a stored reset row for the
    token, a valid reset request whose driver calls all succeed is
    answered 200 before the row expires: the owner's hash is replaced and
    the rows of the token are deleted; from the expiry on it is answered
    400 "invalid or expired token" with the state unchanged.  After the
    200, no request for the same token, whatever its password, environment
    or clock, is answered 200 or changes the state. *)
Theorem reset_token_lifetime
    (env : Env) (db : DB) (r : Request) (input : ResetPasswordRequest)
    (row : TokenRow) (hash : string) :
  db_wf db -> In row (password_resets db) ->
  decodeJSON unmarshal_ResetPasswordRequest (req_body r) = Ok input ->
  strings.TrimSpace (reset_Token input) = token row -> token row <> "" ->
  minPasswordLength <= len (reset_NewPassword input) ->
  hashPassword env (reset_NewPassword input) = Ok hash ->
  (forall n, fault env n = None) ->
  (Now env < expires_at row ->
   let db1 := consumed (Now env) db (token row) hash (user_id row) in
   handleResetPassword env db r = (reset_done, db1) /\
   (forall env2 r2 input2,
       decodeJSON unmarshal_ResetPasswordRequest (req_body r2) = Ok input2 ->
       strings.TrimSpace (reset_Token input2) = token row ->
       failure [400; 500] (handleResetPassword env2 db1 r2) db1))
  /\
  (expires_at row <= Now env -> handleResetPassword env db r = (reset_refused, db)).
Proof.
  intros Hwf Hin D Ht Hne Hlen Hh F.
  rewrite (handleResetPassword_valid env db r input (token row) hash D Ht Hne Hlen Hh).
  split.
  - intros Hexp. cbv zeta.
    destruct (ConsumePasswordReset_live (fault env) (Now env) db row hash Hwf Hin Hexp F)
      as (old & _ & _ & ->).
    split; [reflexivity |].
    intros env2 r2 input2. apply reset_never_again.
  - intros Hexp.
    now rewrite (ConsumePasswordReset_no_live _ _ _ _ _
                   (no_live_reset_expired _ _ _ Hwf Hin Hexp) (F 0%nat) (F 1%nat)).
Qed.

(** ** After a reset, login goes by the new hash *)

Lemma consumed_owner (now : Time) (db : DB) (tok newHash : string) (old : User) :
  In old (users db) ->
  In (set_password_row now newHash old) (users (consumed now db tok newHash (ID old))).
Proof.
  intros Hin. simpl. apply in_map_iff. exists old. split; [| assumption].
  now rewrite Z.eqb_refl.
Qed.

(** X10. Login after a password reset.  Once the reset of a user's
    password has gone through, a login with that user's email is decided
    by bcrypt against the new hash alone: 200 when it accepts the
    password, 401 "invalid credentials" when it refuses, whatever the old
    hash was. *)
Theorem reset_then_login
    (now : Time) (db : DB) (tok newHash : string) (old : User)
    (env : Env) (r : Request) (login : LoginRequest) (stok : string) :
  db_wf db -> In old (users db) ->
  let db1 := consumed now db tok newHash (ID old) in
  let user := set_password_row now newHash old in
  decodeJSON unmarshal_LoginRequest (req_body r) = Ok login ->
  normalizeEmail (login_Email login) = Email old ->
  isValidEmail (Email old) = true ->
  fault env 0%nat = None -> fault env 1%nat = None ->
  generateToken env 32 = Ok stok ->
  has_token (user_sessions db) stok = false ->
  (verifyPassword env newHash (login_Password login) = None ->
   handleLogin env db1 r =
   (writeJSON 200 (json_LoginResponse
                     (mkLoginResponse user (mkSession stok (Now env + sessionTTL)))),
    add_session db1 (mkTokenRow (ID old) stok (Now env + sessionTTL))))
  /\
  (forall err, verifyPassword env newHash (login_Password login) = Some err ->
               handleLogin env db1 r = (invalid_credentials, db1)).
Proof.
  intros Hwf Hin db1 user D He V F0 F1 Htok Hfresh.
  assert (Hwf1 : db_wf db1) by now apply consumed_wf.
  assert (Hu : In user (users db1)) by now apply consumed_owner.
  split.
  - intros Hver.
    apply (handleLogin_accepts env db1 r login user stok); auto.
  - intros err Hver.
    apply (handleLogin_rejects env db1 r login user err); auto.
Qed.

(** ** Profile update: conflict, own email, and the 404 that cannot happen *)

Lemma filter_unique_id (db : DB) (cur : User) :
  db_wf db -> In cur (users db) ->
  filter (fun u => ID u =? ID cur) (users db) = [cur].
Proof.
  intros Hwf. pose proof (wf_ids db Hwf) as Hnd. revert Hnd.
  induction (users db) as [|a l IH]; simpl; [intros _ [] |].
  intros Hnd Hin. inversion Hnd as [|? ? Ha Hl]; subst.
  destruct Hin as [-> | Hin].
  - rewrite Z.eqb_refl. f_equal. apply filter_nil_iff. intros x Hx.
    apply Z.eqb_neq. intros E. apply Ha. rewrite <- E. now apply in_map.
  - destruct (ID a =? ID cur) eqn:E.
    + apply Z.eqb_eq in E. exfalso. apply Ha. rewrite E. now apply in_map.
    + now apply IH.
Qed.

Lemma sql_update_user_outcome (now : Time) (email name : option string) (db : DB)
    (cur : User) :
  db_wf db -> In cur (users db) ->
  sql_update_user now email name (ID cur) db =
  if existsb (fun o => negb (ID o =? ID cur) &&
                       String.eqb (Email o) (COALESCE email (Email cur)))%bool (users db)
  then (Err (PgError uniqueViolationCode), db)
  else (Ok (update_profile_row now email name cur),
        profile_updated now db (ID cur) email name).
Proof.
  intros Hwf Hin. unfold sql_update_user.
  rewrite (filter_unique_id db cur Hwf Hin). simpl. rewrite orb_false_r.
  now destruct (existsb _ (users db)).
Qed.

Lemma handleUpdateProfile_valid (env : Env) (db : DB) (r : Request) (cur : User)
    (input : UpdateProfileRequest) :
  authenticate env db r = (Ok cur, db) ->
  decodeJSON unmarshal_UpdateProfileRequest (req_body r) = Ok input ->
  update_valid input = true ->
  handleUpdateProfile env db r =
  match UpdateUser (fault env 1) (Now env) db (ID cur) (normalized_update input) with
  | (Err err, db1) =>
      if is_ErrEmailExists err then (writeError 409 "email already exists", db1)
      else if is_ErrNoRows err then (writeError 404 "user not found", db1)
      else (writeError 500 "failed to update user", db1)
  | (Ok user, db1) => (writeJSON 200 (json_User user), db1)
  end.
Proof.
  intros A D V. unfold handleUpdateProfile. rewrite A, D.
  unfold update_valid in V. unfold normalized_update.
  destruct (upd_Email input) as [e|], (upd_Name input) as [n|]; simpl in V |- *.
  - apply andb_true_iff in V as [V1 V2]. apply negb_true_iff in V2.
    now rewrite V1, V2.
  - rewrite andb_true_r in V. now rewrite V.
  - apply negb_true_iff in V. now rewrite V.
  - discriminate.
Qed.

(** X11. A valid profile update by an authenticated user, when the
    driver answers: if the normalized email it asks for is the email of
    another user, the answer is 409 "email already exists" and the state
    is unchanged; otherwise (the email is free, or the user's own, or
    omitted) the answer is 200 with the updated row, the only row
    changed.  It is never 404: the row of the authenticated user is
    there. *)
Theorem handleUpdateProfile_outcomes
    (env : Env) (db : DB) (r : Request) (cur : User) (input : UpdateProfileRequest) :
  db_wf db ->
  authenticate env db r = (Ok cur, db) ->
  decodeJSON unmarshal_UpdateProfileRequest (req_body r) = Ok input ->
  update_valid input = true ->
  fault env 1%nat = None ->
  let email := option_map normalizeEmail (upd_Email input) in
  let name := option_map strings.TrimSpace (upd_Name input) in
  ((exists other e, In other (users db) /\ ID other <> ID cur /\
                    email = Some e /\ Email other = e) ->
   handleUpdateProfile env db r = (writeError 409 "email already exists", db))
  /\
  ((forall other, In other (users db) -> ID other <> ID cur ->
                  email <> Some (Email other)) ->
   handleUpdateProfile env db r =
   (writeJSON 200 (json_User (update_profile_row (Now env) email name cur)),
    profile_updated (Now env) db (ID cur) email name))
  /\ status (fst (handleUpdateProfile env db r)) <> 404.
Proof.
  intros Hwf A D V F email name.
  assert (Hcur : In cur (users db)).
  { apply authenticate_Ok in A as (_ & _ & (s & _ & _ & _ & Hu & _)). exact Hu. }
  pose proof (handleUpdateProfile_valid env db r cur input A D V) as E.
  unfold UpdateUser, run, nullableString, normalized_update in E. rewrite F in E.
  simpl in E. fold email name in E.
  rewrite (sql_update_user_outcome (Now env) email name db cur Hwf Hcur) in E.
  destruct (existsb _ (users db)) eqn:C; simpl in E.
  - apply existsb_exists in C as (o & Ho & Hc).
    apply andb_true_iff in Hc as [Hid He].
    apply negb_true_iff in Hid. apply Z.eqb_neq in Hid. apply String.eqb_eq in He.
    split; [intros _; exact E | split; [| rewrite E; discriminate]].
    intros Hfree. exfalso.
    destruct email as [e|] eqn:Em; simpl in He.
    + apply (Hfree o Ho Hid). now rewrite He.
    + apply Hid. f_equal.
      apply (NoDup_map_inj Email (users db)); auto using wf_emails.
  - split; [| split; [intros _; exact E | rewrite E; discriminate]].
    intros (other & e & Ho & Hid & Hem & He). exfalso.
    assert (existsb (fun o => negb (ID o =? ID cur) &&
                              String.eqb (Email o) (COALESCE email (Email cur)))%bool
                    (users db) = true).
    { apply existsb_exists. exists other. split; [assumption |].
      apply andb_true_iff. split.
      - apply negb_true_iff. now apply Z.eqb_neq.
      - rewrite Hem. simpl. now apply String.eqb_eq. }
    congruence.
Qed.

(** ** Who [authenticate] lets in *)

Lemma HasPrefix_nonempty (s : string) :
  strings.HasPrefix s "Bearer " = true -> String.eqb s "" = false.
Proof. destruct s; [discriminate | reflexivity]. Qed.

(** X12. [authenticate] returns a user exactly when the header starts
    with "Bearer " (in this spelling), the rest, trimmed, is not empty,
    and that token has a session row that has not expired, whose owner is
    the user returned.  A header without the prefix or with an empty
    token is refused with [errUnauthorized] before the store is asked,
    so also when the driver is down. *)
Theorem authenticate_exactly (env : Env) (db : DB) (r : Request) (u : User) :
  db_wf db -> fault env 0%nat = None ->
  (authenticate env db r = (Ok u, db) <->
   strings.HasPrefix (Authorization r) "Bearer " = true /\ bearer r <> "" /\
   live_session (Now env) db (bearer r) u)
  /\
  (strings.HasPrefix (Authorization r) "Bearer " = false \/ bearer r = "" ->
   forall env', authenticate env' db r = (Err errUnauthorized, db)).
Proof.
  intros Hwf F. split; [split |].
  - intros A. pose proof (authenticate_Ok env db db r u A) as (_ & _ & L).
    unfold authenticate in A.
    destruct (strings.HasPrefix (Authorization r) "Bearer ") eqn:P.
    2:{ rewrite orb_true_r in A. discriminate. }
    destruct (String.eqb (Authorization r) ""); simpl in A; [discriminate |].
    fold (bearer r) in A. destruct (String.eqb (bearer r) "") eqn:B; [discriminate |].
    apply String.eqb_neq in B. auto.
  - intros (P & B & L). unfold authenticate.
    rewrite P, (HasPrefix_nonempty _ P). simpl. fold (bearer r).
    apply String.eqb_neq in B. rewrite B.
    unfold GetUserBySessionToken, run. rewrite F.
    now rewrite (select_user_by_session_some _ _ _ _ Hwf L).
  - intros [P | B] env'; unfold authenticate.
    + rewrite P. now rewrite orb_true_r.
    + destruct (_ || _)%bool; [reflexivity |].
      fold (bearer r). now rewrite B.
Qed.

(** ** Lookups *)

Lemma select_user_by_id_some (db : DB) (u : User) :
  db_wf db -> In u (users db) -> sql_select_user_by_id (ID u) db = (Ok u, db).
Proof.
  intros Hwf Hu. unfold sql_select_user_by_id.
  now rewrite (filter_unique_id db u Hwf Hu).
Qed.

(** X13. On a state that meets the constraints, [GetUserByID] and
    [GetUserByEmail] return a user exactly when that user is a stored row
    with the id (the email, compared byte by byte); without such a row
    they return [sql.ErrNoRows].  Neither changes the state. *)
Theorem lookups_find_the_row (db : DB) (u : User) (id : Z) (email : string) :
  db_wf db ->
  (GetUserByID None db id = (Ok u, db) <-> In u (users db) /\ ID u = id)
  /\ ((forall x, In x (users db) -> ID x <> id) ->
      GetUserByID None db id = (Err ErrNoRows, db))
  /\ (GetUserByEmail None db email = (Ok u, db) <-> In u (users db) /\ Email u = email)
  /\ (email_unknown db email -> GetUserByEmail None db email = (Err ErrNoRows, db)).
Proof.
  intros Hwf. unfold GetUserByID, GetUserByEmail, run.
  split; [| split; [| split]].
  - split.
    + unfold sql_select_user_by_id. intros [= H]. apply first_row_Ok_In in H.
      apply filter_In in H as [Hu Hid]. now apply Z.eqb_eq in Hid.
    + intros [Hu <-]. now apply select_user_by_id_some.
  - intros Hnone. unfold sql_select_user_by_id.
    replace (filter _ (users db)) with (@nil User); [reflexivity |].
    symmetry. apply filter_nil_iff. intros x Hx. apply Z.eqb_neq. now apply Hnone.
  - split.
    + intros H. apply select_user_by_email_Ok. now rewrite H.
    + intros [Hu <-]. now apply select_user_by_email_some.
  - apply select_user_by_email_none.
Qed.

(** ** Normal forms of emails *)

Lemma emails_normal_snoc (db : DB) (u : User) (value : string) :
  emails_normal db ->
  Email u = normalizeEmail value -> isValidEmail (Email u) = true ->
  forall db', users db' = users db ++ [u] -> emails_normal db'.
Proof.
  intros Hn H1 H2 db' E x Hx. rewrite E in Hx.
  apply in_app_or in Hx as [Hx | [<- | []]]; [now apply Hn |].
  split; [now exists value | exact H2].
Qed.

Lemma emails_normal_same (db db' : DB) :
  map Email (users db') = map Email (users db) -> emails_normal db -> emails_normal db'.
Proof.
  intros E Hn x Hx.
  assert (Hin : In (Email x) (map Email (users db))) by (rewrite <- E; now apply in_map).
  apply in_map_iff in Hin as [y [Hy Hin]]. rewrite <- Hy. now apply Hn.
Qed.

(** X14. The handlers keep every stored email normalized and
    well-formed: if each stored email is [normalizeEmail] of some text
    and passes [isValidEmail], the same holds after any request to any
    handler. *)
Theorem handlers_keep_emails_normal (env : Env) (db : DB) (r : Request) :
  emails_normal db ->
  emails_normal (snd (handleRegister env db r)) /\
  emails_normal (snd (handleLogin env db r)) /\
  emails_normal (snd (handleForgotPassword env db r)) /\
  emails_normal (snd (handleResetPassword env db r)) /\
  emails_normal (snd (handleGetProfile env db r)) /\
  emails_normal (snd (handleUpdateProfile env db r)).
Proof.
  intros Hn.
  split; [| split; [| split; [| split; [| split]]]].
  - destruct (decodeJSON unmarshal_RegisterRequest (req_body r)) as [input|e] eqn:D.
    2:{ unfold handleRegister. now rewrite D. }
    destruct (register_valid input) eqn:V.
    2:{ destruct (handleRegister_invalid env db r input D V) as [_ ->]. exact Hn. }
    rewrite (handleRegister_valid env db r input D V).
    destruct (hashPassword env _) as [hash|e]; [| exact Hn].
    destruct (CreateUser _ _ _ _ _ _) as [[u|e] d] eqn:C.
    + apply CreateUser_Ok in C as (_ & _ & -> & ->). simpl.
      apply register_valid_true in V as (V1 & _).
      eapply (emails_normal_snoc db _ (reg_Email input)); [exact Hn | | | reflexivity].
      * reflexivity.
      * exact V1.
    + apply CreateUser_Err_users in C.
      assert (emails_normal d) by (apply (emails_normal_same db); [now rewrite C | exact Hn]).
      now destruct (is_ErrEmailExists e).
  - destruct (handleLogin_state env db r) as [-> | (u & t & ->)]; [exact Hn |].
    apply (emails_normal_same db); [| exact Hn].
    now rewrite CreateSession_users.
  - destruct (handleForgotPassword_state env db r) as [-> | (u & t & ->)]; [exact Hn |].
    apply (emails_normal_same db); [| exact Hn].
    now destruct (CreatePasswordReset_frame (fault env 1) db u t (Now env + resetTTL))
      as (-> & _).
  - destruct (handleResetPassword_state env db r) as [-> | (t & h & ->)]; [exact Hn |].
    apply (emails_normal_same db); [| exact Hn].
    now destruct (ConsumePasswordReset_frame (fault env) (Now env) db t h)
      as (_ & _ & _ & -> & _).
  - now rewrite handleGetProfile_state.
  - pose proof (authenticate_db env db r) as Hdb.
    destruct (authenticate env db r) as [[cur|e] d] eqn:A; simpl in Hdb; subst d.
    2:{ unfold handleUpdateProfile. now rewrite A. }
    destruct (decodeJSON unmarshal_UpdateProfileRequest (req_body r)) as [input|e] eqn:D.
    2:{ unfold handleUpdateProfile. now rewrite A, D. }
    destruct (update_valid input) eqn:V.
    2:{ destruct (handleUpdateProfile_status env db r) as [S | (_ & _ & ->)]; [| exact Hn].
        exfalso. unfold handleUpdateProfile in S. rewrite A, D in S.
        unfold update_valid in V.
        destruct (upd_Email input) as [em|], (upd_Name input) as [nm|];
          simpl in V, S; try discriminate.
        - destruct (isValidEmail (normalizeEmail em)); simpl in V, S; [| discriminate].
          destruct (String.eqb (strings.TrimSpace nm) ""); simpl in V, S; discriminate.
        - destruct (isValidEmail (normalizeEmail em)); simpl in V, S; discriminate.
        - destruct (String.eqb (strings.TrimSpace nm) ""); simpl in V, S; discriminate. }
    rewrite (handleUpdateProfile_valid env db r cur input A D V).
    destruct (UpdateUser _ _ _ _ _) as [[u|e] d] eqn:U.
    + simpl. apply UpdateUser_Ok in U as [_ U].
      apply update_user_Ok in U as (old & _ & _ & _ & _ & ->).
      intros x Hx. simpl in Hx. apply in_map_iff in Hx as [y [<- Hy]].
      destruct (ID y =? ID cur); [| now apply Hn].
      unfold update_profile_row, normalized_update. simpl.
      destruct (upd_Email input) as [em|] eqn:Em; simpl; [| now apply Hn].
      split; [now exists em |].
      unfold update_valid in V. rewrite Em in V.
      destruct (upd_Name input); simpl in V.
      * apply andb_true_iff in V. tauto.
      * now rewrite andb_true_r in V.
    + apply UpdateUser_Err_db in U. subst d.
      destruct (is_ErrEmailExists e); [exact Hn |]. now destruct (is_ErrNoRows e).
Qed.

(** ** From forgot-password to reset *)

Lemma handleForgotPassword_issues (env : Env) (db : DB) (r : Request)
    (input : ForgotPasswordRequest) (u : User) (tok : string) :
  decodeJSON unmarshal_ForgotPasswordRequest (req_body r) = Ok input ->
  db_wf db -> In u (users db) -> Email u = normalizeEmail (forgot_Email input) ->
  isValidEmail (Email u) = true ->
  fault env 0%nat = None -> fault env 1%nat = None ->
  generateToken env 32 = Ok tok -> has_token (password_resets db) tok = false ->
  handleForgotPassword env db r =
  (forgot_issued_response tok (Now env + resetTTL),
   add_reset db (mkTokenRow (ID u) tok (Now env + resetTTL))).
Proof.
  intros D Hwf Hu He V F0 F1 Htok Hfresh.
  unfold handleForgotPassword. rewrite D, <- He, V. simpl.
  unfold GetUserByEmail, run. rewrite F0, (select_user_by_email_some _ _ Hwf Hu).
  rewrite Htok. unfold CreatePasswordReset, run.
  now rewrite F1, (insert_reset_fresh _ _ _ _ Hu Hfresh).
Qed.

Lemma add_reset_wf (db : DB) (u : User) (tok : string) (expiresAt : Time) :
  db_wf db -> In u (users db) -> has_token (password_resets db) tok = false ->
  db_wf (add_reset db (mkTokenRow (ID u) tok expiresAt)).
Proof.
  intros Hwf Hu Hfresh.
  pose proof (sql_insert_reset_wf (ID u) tok expiresAt db Hwf) as H.
  now rewrite (insert_reset_fresh _ _ _ _ Hu Hfresh) in H.
Qed.

(** X15. From forgot-password to reset.  When forgot-password has
    issued a token for a user, a valid reset request with that token,
    whose driver calls succeed, is answered 200 during the 30 minutes
    after the issue, and then the user's stored hash is the new one and
    the token is gone; from 30 minutes on it is answered 400 "invalid or
    expired token" and nothing changes. *)
Theorem forgot_then_reset
    (env1 env2 : Env) (db : DB) (r1 r2 : Request) (input1 : ForgotPasswordRequest)
    (input2 : ResetPasswordRequest) (u : User) (tok hash : string) :
  db_wf db ->
  decodeJSON unmarshal_ForgotPasswordRequest (req_body r1) = Ok input1 ->
  In u (users db) -> Email u = normalizeEmail (forgot_Email input1) ->
  isValidEmail (Email u) = true ->
  fault env1 0%nat = None -> fault env1 1%nat = None ->
  generateToken env1 32 = Ok tok -> has_token (password_resets db) tok = false ->
  decodeJSON unmarshal_ResetPasswordRequest (req_body r2) = Ok input2 ->
  strings.TrimSpace (reset_Token input2) = tok -> tok <> "" ->
  minPasswordLength <= len (reset_NewPassword input2) ->
  hashPassword env2 (reset_NewPassword input2) = Ok hash ->
  (forall n, fault env2 n = None) ->
  let db1 := snd (handleForgotPassword env1 db r1) in
  let out := handleResetPassword env2 db1 r2 in
  (Now env2 < Now env1 + resetTTL ->
   fst out = reset_done /\
   In (set_password_row (Now env2) hash u) (users (snd out)) /\
   has_token (password_resets (snd out)) tok = false /\
   (forall x, In x (users (snd out)) -> ID x = ID u -> PasswordHash x = hash))
  /\
  (Now env1 + resetTTL <= Now env2 -> out = (reset_refused, db1)).
Proof.
  intros Hwf D1 Hu He V F0 F1 Htok Hfresh D2 Ht Hne Hlen Hh F db1 out.
  set (row := mkTokenRow (ID u) tok (Now env1 + resetTTL)).
  assert (E1 : db1 = add_reset db row).
  { subst db1. now rewrite (handleForgotPassword_issues env1 db r1 input1 u tok). }
  assert (Hwf1 : db_wf db1) by (rewrite E1; now apply add_reset_wf).
  assert (Hrow : In row (password_resets db1)).
  { rewrite E1. simpl. apply in_or_app. right. now left. }
  assert (Hu1 : In u (users db1)) by now rewrite E1.
  assert (Eout : out = match ConsumePasswordReset (fault env2) (Now env2) db1 tok hash with
                       | (Err err, db') =>
                           if is_ErrNoRows err then (reset_refused, db')
                           else (writeError 500 "failed to reset password", db')
                       | (Ok _, db') => (reset_done, db')
                       end).
  { subst out. now apply (handleResetPassword_valid env2 db1 r2 input2 tok hash). }
  split.
  - intros Hexp.
    destruct (ConsumePasswordReset_live (fault env2) (Now env2) db1 row hash Hwf1 Hrow Hexp F)
      as (old & Hold & Hid & C).
    change (token row) with tok in C. change (user_id row) with (ID u) in C, Hid.
    assert (old = u)
      by (apply (NoDup_map_inj ID (users db1)); auto using wf_ids).
    subst old. rewrite Eout, C. simpl. split; [reflexivity | split; [| split]].
    + apply in_map_iff. exists u. split; [now rewrite Z.eqb_refl | assumption].
    + apply (consumed_no_token (Now env2) db1 tok hash (ID u)).
    + intros x Hx Hidx.
      exact (consumed_password (Now env2) db1 tok hash (ID u) x Hx Hidx).
  - intros Hexp. rewrite Eout.
    now rewrite (ConsumePasswordReset_no_live _ _ _ _ _
                   (no_live_reset_expired _ _ row Hwf1 Hrow Hexp) (F 0%nat) (F 1%nat)).
Qed.

(** ** The bodies [decodeJSON] accepts *)

Lemma set_string_like {A : Type} (upd : string -> A -> A) (v : JSON) (dst : A) :
  (exists d, set_string upd v dst = Ok d) <-> string_like v = true.
Proof.
  destruct v; simpl; split; intros H; try discriminate; eauto;
    destruct H as [d H]; discriminate.
Qed.

Lemma set_string_ptr_like {A : Type} (upd : option string -> A -> A) (v : JSON) (dst : A) :
  (exists d, set_string_ptr upd v dst = Ok d) <-> string_like v = true.
Proof.
  destruct v; simpl; split; intros H; try discriminate; eauto;
    destruct H as [d H]; discriminate.
Qed.

Lemma field_of_In {A : Type} (fields : struct_fields A) (key name : string)
    (set : JSON -> A -> result A) :
  field_of fields key = Some (name, set) -> In (name, set) fields.
Proof.
  unfold field_of. destruct (find _ fields) as [fld|] eqn:F.
  - intros [= ->]. now apply find_some in F as [F _].
  - intros H. now apply find_some in H as [H _].
Qed.

Lemma unmarshal_fields_accepts {A : Type} (fields : struct_fields A)
    (kvs : list (string * JSON)) (dst : A) :
  string_setters fields ->
  ((exists d, unmarshal_fields fields kvs dst = Ok d) <->
   Forall (fun kv => field_of fields (fst kv) <> None /\ string_like (snd kv) = true) kvs).
Proof.
  intros Hs. revert dst. induction kvs as [|[key v] kvs IH]; intros dst; simpl.
  - split; [constructor | eauto].
  - destruct (field_of fields key) as [[name set]|] eqn:F.
    + pose proof (Hs name set (field_of_In _ _ _ _ F) v dst) as Hset.
      destruct (set v dst) as [d'|e] eqn:S.
      * rewrite IH. split.
        -- intros H. constructor; [| exact H]. simpl. split; [congruence |].
           apply Hset. eauto.
        -- intros H. now inversion H.
      * split.
        -- intros [d H]. discriminate.
        -- intros H. inversion H as [|? ? [_ Hl] _]; subst. simpl in Hl.
           apply Hset in Hl as [d Hd]. discriminate.
    + split.
      * intros [d H]. discriminate.
      * intros H. inversion H as [|? ? [Hk _] _]; subst. simpl in Hk. congruence.
Qed.

Lemma decodeJSON_accepts {A : Type} (typ : string) (fields : struct_fields A) (zero : A)
    (b : Body) :
  string_setters fields ->
  ((exists dst, decodeJSON (unmarshal typ fields zero) b = Ok dst) <->
   accepted_body fields b).
Proof.
  intros Hs. split.
  - intros [dst H]. unfold decodeJSON in H.
    destruct (Decode (unmarshal typ fields zero) b) as [[d|e] b'] eqn:D1; [| discriminate].
    destruct (Decode (unmarshal "struct {}" [] tt) b') as [[u|e] b''] eqn:D2;
      [discriminate |].
    destruct (is_EOF e) eqn:E; [| discriminate].
    apply (f_equal fst) in D2; simpl in D2.
    destruct (Decode_empty_struct_EOF b' e D2 E) as [Hv Ht].
    unfold Decode, next_value in D1.
    destruct (values b) as [|v rest] eqn:Vb.
    { destruct (trailing b); discriminate. }
    injection D1 as Hu Hb. subst b'. simpl in Hv, Ht. subst rest.
    split; [exact Ht |].
    destruct v; simpl in Hu; try discriminate.
    + left. exact Vb.
    + right. exists fields0. split; [exact Vb |].
      apply (unmarshal_fields_accepts fields fields0 zero Hs). eauto.
  - intros [Ht [Hv | (kvs & Hv & Hall)]].
    + exists zero. unfold decodeJSON, Decode, next_value. rewrite Hv. simpl.
      now rewrite Ht.
    + apply (unmarshal_fields_accepts fields kvs zero Hs) in Hall as [d Hd].
      exists d. unfold decodeJSON, Decode, next_value. rewrite Hv. simpl.
      rewrite Hd. simpl. now rewrite Ht.
Qed.

Ltac solve_string_setters :=
  intros name set Hin v dst; simpl in Hin;
  repeat (destruct Hin as [Hin | Hin];
          [injection Hin as _ <-;
           first [apply set_string_like | apply set_string_ptr_like] |]);
  destruct Hin.

(** X16. The bodies [decodeJSON] accepts, for each request type: exactly
    those made of one JSON object whose keys all name fields of the type
    (to the letter, or else after folding) and whose values are strings or
    [null], or of the lone value [null], with nothing but the end of input
    after it. *)
Theorem decodeJSON_accepts_exactly (b : Body) :
  ((exists input, decodeJSON unmarshal_RegisterRequest b = Ok input) <->
   accepted_body RegisterRequest_fields b)
  /\ ((exists input, decodeJSON unmarshal_LoginRequest b = Ok input) <->
      accepted_body LoginRequest_fields b)
  /\ ((exists input, decodeJSON unmarshal_ForgotPasswordRequest b = Ok input) <->
      accepted_body ForgotPasswordRequest_fields b)
  /\ ((exists input, decodeJSON unmarshal_ResetPasswordRequest b = Ok input) <->
      accepted_body ResetPasswordRequest_fields b)
  /\ ((exists input, decodeJSON unmarshal_UpdateProfileRequest b = Ok input) <->
      accepted_body UpdateProfileRequest_fields b).
Proof.
  split; [| split; [| split; [| split]]]; apply decodeJSON_accepts; solve_string_setters.
Qed.

End FurtherProperties.

(** * The model at work on ASCII requests *)

Lemma ConsumePasswordReset_all_or_nothing_witness :
  exists res db',
    ConsumePasswordReset (fun _ => None) 100 db_one_reset "r1" "$2a$newlongpw" = (res, db') /\
    res = Ok (mkUser 1 "a@b.com" "Al" "$2a$newlongpw" 10 100) /\
    password_resets db' = [] /\
    (forall err, res = Err err -> db' = db_one_reset).
Proof.
  eexists. eexists. split; [reflexivity |].
  split; [reflexivity | split; [reflexivity |]].
  exact (proj1 (proj2 (ConsumePasswordReset_all_or_nothing
                         (fun _ => None) 100 db_one_reset _ "r1" "$2a$newlongpw" _ eq_refl))).
Defined.

Lemma db_session_wf : db_wf db_session.
Proof. solve_db_wf. Qed.

Lemma GetUserBySessionToken_live_only_witness :
  db_wf db_session /\
  GetUserBySessionToken None 100 db_session "s1"
    = (Ok (mkUser 1 "a@b.com" "Al" "$2a$longpassword" 10 10), db_session) /\
  GetUserBySessionToken None 500 db_session "s1" = (Err ErrNoRows, db_session) /\
  GetUserBySessionToken None 100 db_session "s2" = (Err ErrNoRows, db_session).
Proof.
  split; [exact db_session_wf |].
  split; [| split].
  - apply (proj1 (GetUserBySessionToken_live_only (text := ascii_only) 100 db_session "s1" db_session_wf)).
    exists (mkTokenRow 1 "s1" 500). simpl. repeat split; auto; lia.
  - apply (proj1 (proj2 (proj2 (proj2
             (GetUserBySessionToken_live_only (text := ascii_only) 500 db_session "s1" db_session_wf))))).
    exists (mkTokenRow 1 "s1" 500). simpl. repeat split; auto; lia.
  - apply (proj1 (proj2 (proj2
             (GetUserBySessionToken_live_only (text := ascii_only) 100 db_session "s2" db_session_wf)))).
    intros s [<- | []]. simpl. discriminate.
Defined.

Lemma handleLogin_same_rejection_witness :
  handleLogin (env_hash_only 100) (mkDB [] 1 [] []) (mkRequest "" (login_body "x@y.org" "longpassword"))
    = (invalid_credentials, mkDB [] 1 [] []) /\
  handleLogin (env_hash_only 100) db_session (mkRequest "" (login_body " A@B.com" "wrongpassword"))
    = (invalid_credentials, db_session).
Proof.
  pose proof (handleLogin_same_rejection (text := ascii_only)
                (env_hash_only 100) (env_hash_only 100) (mkDB [] 1 [] []) db_session
                (mkRequest "" (login_body "x@y.org" "longpassword"))
                (mkRequest "" (login_body " A@B.com" "wrongpassword"))
                (mkLoginRequest "x@y.org" "longpassword")
                (mkLoginRequest " A@B.com" "wrongpassword")
                (mkUser 1 "a@b.com" "Al" "$2a$longpassword" 10 10)
                (ErrOther "mismatch")
                eq_refl eq_refl eq_refl eq_refl eq_refl eq_refl
                (fun _ (H : In _ []) => match H with end)
                db_session_wf (or_introl eq_refl) eq_refl eq_refl) as [A [B _]].
  split; assumption.
Defined.

(** The request of an unknown email and the request of a registered one
    are both answered with status 200, by bodies that differ. *)
Lemma handleForgotPassword_bodies_differ :
  let unknown := handleForgotPassword (env_hash_only 100) (mkDB [] 1 [] [])
                                      (mkRequest "" (forgot_body "a@b.com")) in
  let known := handleForgotPassword (env_hash_only 100) db_session
                                    (mkRequest "" (forgot_body "a@b.com")) in
  fst unknown = forgot_unknown_response /\
  password_resets (snd unknown) = [] /\
  fst known = forgot_issued_response "5f2c" (100 + resetTTL) /\
  password_resets (snd known) = [mkTokenRow 1 "5f2c" (100 + resetTTL)] /\
  status (fst unknown) = status (fst known) /\
  fst unknown <> fst known.
Proof.
  cbv zeta. repeat split; try reflexivity. discriminate.
Qed.

Lemma handleForgotPassword_responses_witness :
  handleForgotPassword (env_hash_only 100) (mkDB [] 1 [] [])
                       (mkRequest "" (forgot_body "a@b.com"))
    = (forgot_unknown_response, mkDB [] 1 [] []) /\
  status (fst (handleForgotPassword (env_hash_only 100) db_session
                                    (mkRequest "" (forgot_body "A@b.com ")))) = 200.
Proof.
  pose proof (handleForgotPassword_responses (text := ascii_only)
                (env_hash_only 100) (env_hash_only 100) (mkDB [] 1 [] []) db_session
                (mkRequest "" (forgot_body "a@b.com"))
                (mkRequest "" (forgot_body "A@b.com "))
                (mkForgotPasswordRequest "a@b.com") (mkForgotPasswordRequest "A@b.com ")
                (mkUser 1 "a@b.com" "Al" "$2a$longpassword" 10 10) "5f2c"
                eq_refl eq_refl eq_refl eq_refl eq_refl eq_refl eq_refl
                (fun _ (H : In _ []) => match H with end)
                db_session_wf (or_introl eq_refl) eq_refl eq_refl eq_refl)
    as (A & _ & _ & B & _).
  split; assumption.
Defined.

Lemma handleRegister_conflict_witness :
  fst (handleRegister (env_hash_only 100) db_session
         (mkRequest "" (register_body "A@B.com" "longpassword" "Al"))) =
    mkResponse 409 (JObject [("error", JString "email already exists")]) /\
  handleRegister (env_fault 100 (ErrOther "connection refused")) db_session
         (mkRequest "" (register_body "A@B.com" "longpassword" "Al")) =
    (mkResponse 500 (JObject [("error", JString "failed to create user")]), db_session).
Proof.
  pose proof (handleRegister_conflict (text := ascii_only)
                (env_hash_only 100) (env_fault 100 (ErrOther "connection refused"))
                db_session (mkRequest "" (register_body "A@B.com" "longpassword" "Al"))
                (mkRegisterRequest "A@B.com" "longpassword" "Al")
                "$2a$longpassword"
                (mkUser 1 "a@b.com" "Al" "$2a$longpassword" 10 10)
                (ErrOther "connection refused")
                eq_refl eq_refl eq_refl eq_refl eq_refl (or_introl eq_refl) eq_refl
                eq_refl eq_refl eq_refl)
    as (_ & _ & A & _ & B & _).
  split; assumption.
Defined.

(** A password of four characters is accepted: the four letters take
    eight bytes in UTF-8, and the length that [handleRegister] compares
    with [minPasswordLength] is [len], the number of bytes.  The email and
    the name of the request are ASCII text. *)
Lemma handleRegister_accepts_four_characters :
  let out := handleRegister (text := ascii_only) (env_hash_only 100) db_session
               (mkRequest "" (register_body "c@d.org" four_accented "Bo")) in
  characters four_accented = 4 /\
  len four_accented = 8 /\
  ascii_text.is_ascii "c@d.org" = true /\
  ascii_text.is_ascii "Bo" = true /\
  status (fst out) = 201 /\
  users (snd out) =
    users db_session ++ [mkUser 2 "c@d.org" "Bo" ("$2a$" ++ four_accented) 100 100].
Proof.
  cbv zeta. repeat split; reflexivity.
Qed.

Lemma handleRegister_validation_witness :
  status (fst (handleRegister (env_hash_only 100) db_session
                 (mkRequest "" (register_body " C@D.org " "short" "Bo")))) = 400 /\
  snd (handleRegister (env_hash_only 100) db_session
         (mkRequest "" (register_body " C@D.org " "short" "Bo"))) = db_session /\
  users (snd (handleRegister (env_hash_only 100) db_session
                (mkRequest "" (register_body " C@D.org " "longpassword" " Bo")))) =
    users db_session ++ [mkUser 2 "c@d.org" "Bo" "$2a$longpassword" 100 100].
Proof.
  pose proof (handleRegister_validation (text := ascii_only) (env_hash_only 100) db_session
                (mkRequest "" (register_body " C@D.org " "short" "Bo"))
                (mkRegisterRequest " C@D.org " "short" "Bo") eq_refl) as (A & B & _).
  cbv zeta in A, B.
  assert (S : status (fst (handleRegister (env_hash_only 100) db_session
                 (mkRequest "" (register_body " C@D.org " "short" "Bo")))) = 400).
  { apply A. right. right. right. simpl. unfold len. simpl. lia. }
  split; [exact S | split; [exact (B S) | reflexivity]].
Defined.


(** An unauthenticated profile update is answered 401 whatever its body. *)
Lemma handleUpdateProfile_unauthenticated_bad_body :
  ~ single_object UpdateProfileRequest_fields garbage_body /\
  handleUpdateProfile (env_hash_only 100) db_session (mkRequest "" garbage_body) =
    (mkResponse 401 (JObject [("error", JString "unauthorized")]), db_session) /\
  ~ bad_request (handleUpdateProfile (env_hash_only 100) db_session
                   (mkRequest "" garbage_body)) db_session.
Proof.
  split; [| split].
  - intros (kvs & Hv & _). discriminate.
  - reflexivity.
  - intros (S & _). discriminate.
Qed.

Lemma malformed_body_bad_request_witness :
  bad_request (handleRegister (env_hash_only 100) db_session (mkRequest "" garbage_body))
              db_session /\
  bad_request (handleUpdateProfile (env_hash_only 100) db_session
                 (mkRequest "Bearer s1"
                    (mkBody [JObject [("name", JString "Bo")]; JObject []] None)))
              db_session.
Proof.
  split.
  - apply (proj1 (malformed_body_bad_request (text := ascii_only) (env_hash_only 100) db_session
                    (mkRequest "" garbage_body))).
    intros (kvs & Hv & _). discriminate.
  - apply (proj2 (proj2 (proj2 (proj2
             (malformed_body_bad_request (text := ascii_only) (env_hash_only 100) db_session
                (mkRequest "Bearer s1"
                   (mkBody [JObject [("name", JString "Bo")]; JObject []] None))))))
             (mkUser 1 "a@b.com" "Al" "$2a$longpassword" 10 10)).
    + reflexivity.
    + intros (kvs & Hv & _). discriminate.
Defined.

Lemma UpdateUser_frame_witness :
  exists old,
    In old (users db_session) /\ ID old = 1 /\
    Email (mkUser 1 "a@b.com" "Alice" "$2a$longpassword" 10 100) = Email old /\
    PasswordHash (mkUser 1 "a@b.com" "Alice" "$2a$longpassword" 10 100) = PasswordHash old.
Proof.
  destruct (UpdateUser_frame None 100 db_session
              (mkDB [mkUser 1 "a@b.com" "Alice" "$2a$longpassword" 10 100] 2
                    [mkTokenRow 1 "s1" 500] [])
              1 (mkUpdateProfileRequest None (Some "Alice"))
              (mkUser 1 "a@b.com" "Alice" "$2a$longpassword" 10 100) eq_refl)
    as (old & Hin & Hid & _ & _ & Hhash & _ & _ & Hemail & _).
  exists old. repeat split; auto.
Defined.

Lemma concurrent_consume_serialized_witness :
  let w := Concurrent.run_schedule call_a call_b interleaved (Concurrent.start db_one_reset) in
  Concurrent.th_phase (Concurrent.left w)
    = Concurrent.Returned (Ok (mkUser 1 "a@b.com" "Al" "$2a$first" 10 100)) /\
  Concurrent.th_phase (Concurrent.right w) = Concurrent.Returned (Err ErrNoRows) /\
  users (Concurrent.committed w) = [mkUser 1 "a@b.com" "Al" "$2a$first" 10 100] /\
  at_most_one_consumes call_a call_b db_one_reset w.
Proof.
  cbv zeta. split; [reflexivity | split; [reflexivity | split; [reflexivity |]]].
  exact (proj1 (concurrent_consume_serialized call_a call_b db_one_reset interleaved eq_refl)).
Defined.

Lemma store_keeps_constraints_witness :
  db_wf (snd (CreateUser None 100 db_session "c@d.org" "Bo" "$2a$longpassword")) /\
  db_wf (snd (ConsumePasswordReset (fun _ => None) 100 db_session "r1" "$2a$newlongpw")).
Proof.
  pose proof (store_keeps_constraints db_session db_session_wf)
    as (A & _ & _ & _ & _ & _ & _ & B).
  split; [apply A | apply B].
Defined.

Lemma handlers_keep_constraints_witness :
  db_wf (snd (handleRegister (env_hash_only 100) db_session
                (mkRequest "" (register_body "c@d.org" "longpassword" "Bo")))) /\
  db_wf (snd (handleLogin (env_hash_only 100) db_session
                (mkRequest "" (login_body "a@b.com" "longpassword")))).
Proof.
  split.
  - exact (proj1 (handlers_keep_constraints (text := ascii_only) (env_hash_only 100) db_session
                    (mkRequest "" (register_body "c@d.org" "longpassword" "Bo"))
                    db_session_wf)).
  - exact (proj1 (proj2 (handlers_keep_constraints (text := ascii_only) (env_hash_only 100) db_session
                    (mkRequest "" (login_body "a@b.com" "longpassword"))
                    db_session_wf))).
Defined.


Lemma handleRegister_created_witness :
  handleRegister (env_hash_only 100) db_session
                 (mkRequest "" (register_body " C@D.org" "longpassword" "Bo ")) =
  (writeJSON 201 (json_User (mkUser 2 "c@d.org" "Bo" "$2a$longpassword" 100 100)),
   add_user db_session (mkUser 2 "c@d.org" "Bo" "$2a$longpassword" 100 100)).
Proof.
  assert (Hnew : email_unknown db_session (normalizeEmail " C@D.org"))
    by (intros u [<- | []]; discriminate).
  exact (proj2 (handleRegister_created (text := ascii_only) (env_hash_only 100) db_session
                  (mkRequest "" (register_body " C@D.org" "longpassword" "Bo ")))
               (mkRegisterRequest " C@D.org" "longpassword" "Bo ") "$2a$longpassword"
               eq_refl eq_refl eq_refl eq_refl Hnew).
Defined.

Lemma register_then_login_witness :
  let db1 := snd (handleRegister (env_hash_only 100) db_session
                    (mkRequest "" (register_body "c@d.org" "longpassword" "Bo"))) in
  status (fst (handleLogin (env_hash_only 200) db1
                 (mkRequest "" (login_body " C@D.ORG " "longpassword")))) = 200 /\
  handleLogin (env_hash_only 200) db1 (mkRequest "" (login_body " C@D.ORG " "wrongpassword"))
    = (invalid_credentials, db1).
Proof.
  pose proof (fun lg => register_then_login
                (env_hash_only 100) (env_hash_only 200) db_session
                (mkRequest "" (register_body "c@d.org" "longpassword" "Bo"))
                (mkRequest "" (login_body " C@D.ORG " lg))
                (mkRegisterRequest "c@d.org" "longpassword" "Bo")
                (mkLoginRequest " C@D.ORG " lg) "$2a$longpassword" "5f2c"
                db_session_wf eq_refl eq_refl eq_refl eq_refl eq_refl eq_refl eq_refl
                eq_refl eq_refl) as H.
  cbv zeta in *. split.
  - destruct (H "longpassword") as (_ & A & _). now rewrite (A eq_refl).
  - destruct (H "wrongpassword") as (_ & _ & B). exact (B _ eq_refl).
Defined.

Lemma login_then_profile_witness :
  exists u tok,
    In u (users db_session) /\
    body (fst (handleLogin (env_hash_only 100) db_session
                 (mkRequest "" (login_body "a@b.com" "longpassword")))) =
      json_LoginResponse (mkLoginResponse u (mkSession tok (100 + sessionTTL))).
Proof.
  destruct (login_then_profile (text := ascii_only) (env_hash_only 100) (env_hash_only 200) db_session
              (mkRequest "" (login_body "a@b.com" "longpassword"))
              db_session_wf eq_refl eq_refl) as (u & tok & Hu & Hb & _).
  exists u, tok. split; assumption.
Defined.

Lemma db_one_reset_wf : db_wf db_one_reset.
Proof. solve_db_wf. Qed.

Lemma reset_token_lifetime_witness :
  handleResetPassword (env_hash_only 100) db_one_reset
                      (mkRequest "" (reset_body " r1 " "newlongpw"))
    = (reset_done, consumed 100 db_one_reset "r1" "$2a$newlongpw" 1) /\
  handleResetPassword (env_hash_only 500) db_one_reset
                      (mkRequest "" (reset_body " r1 " "newlongpw"))
    = (reset_refused, db_one_reset).
Proof.
  split.
  - refine (proj1 (proj1 (reset_token_lifetime (text := ascii_only) (env_hash_only 100) db_one_reset
                     (mkRequest "" (reset_body " r1 " "newlongpw"))
                     (mkResetPasswordRequest " r1 " "newlongpw")
                     (mkTokenRow 1 "r1" 500) "$2a$newlongpw"
                     db_one_reset_wf (or_introl eq_refl) eq_refl eq_refl _ _ eq_refl
                     (fun _ => eq_refl)) _)).
    + discriminate.
    + unfold len, minPasswordLength. simpl. lia.
    + simpl. lia.
  - refine (proj2 (reset_token_lifetime (text := ascii_only) (env_hash_only 500) db_one_reset
                     (mkRequest "" (reset_body " r1 " "newlongpw"))
                     (mkResetPasswordRequest " r1 " "newlongpw")
                     (mkTokenRow 1 "r1" 500) "$2a$newlongpw"
                     db_one_reset_wf (or_introl eq_refl) eq_refl eq_refl _ _ eq_refl
                     (fun _ => eq_refl)) _).
    + discriminate.
    + unfold len, minPasswordLength. simpl. lia.
    + simpl. lia.
Defined.

Lemma reset_then_login_witness :
  let db1 := consumed 100 db_one_reset "r1" "$2a$newlongpw" 1 in
  status (fst (handleLogin (env_hash_only 200) db1
                 (mkRequest "" (login_body "a@b.com" "newlongpw")))) = 200 /\
  handleLogin (env_hash_only 200) db1 (mkRequest "" (login_body "a@b.com" "longpassword"))
    = (invalid_credentials, db1).
Proof.
  pose proof (fun pw => reset_then_login 100 db_one_reset "r1" "$2a$newlongpw"
                (mkUser 1 "a@b.com" "Al" "$2a$longpassword" 10 10)
                (env_hash_only 200) (mkRequest "" (login_body "a@b.com" pw))
                (mkLoginRequest "a@b.com" pw) "5f2c"
                db_one_reset_wf (or_introl eq_refl) eq_refl eq_refl eq_refl eq_refl eq_refl
                eq_refl eq_refl) as H.
  cbv zeta in *. split.
  - destruct (H "newlongpw") as [A _].
    exact (f_equal (fun out => status (fst out)) (A eq_refl)).
  - destruct (H "longpassword") as [_ B]. exact (B _ eq_refl).
Defined.

Lemma db_two_users_wf : db_wf db_two_users.
Proof. solve_db_wf. Qed.

Lemma handleUpdateProfile_outcomes_witness :
  handleUpdateProfile (env_hash_only 100) db_two_users
                      (mkRequest "Bearer s1" (update_body_email " C@D.org"))
    = (writeError 409 "email already exists", db_two_users) /\
  status (fst (handleUpdateProfile (env_hash_only 100) db_two_users
                 (mkRequest "Bearer s1" (update_body_email "A@B.com")))) = 200.
Proof.
  split.
  - apply (proj1 (handleUpdateProfile_outcomes (text := ascii_only) (env_hash_only 100) db_two_users
                    (mkRequest "Bearer s1" (update_body_email " C@D.org"))
                    (mkUser 1 "a@b.com" "Al" "$2a$longpassword" 10 10)
                    (mkUpdateProfileRequest (Some " C@D.org") None)
                    db_two_users_wf eq_refl eq_refl eq_refl eq_refl)).
    exists (mkUser 2 "c@d.org" "Bo" "$2a$otherpassword" 20 20), "c@d.org".
    simpl. repeat split; auto. discriminate.
  - rewrite (proj1 (proj2 (handleUpdateProfile_outcomes (text := ascii_only) (env_hash_only 100) db_two_users
                    (mkRequest "Bearer s1" (update_body_email "A@B.com"))
                    (mkUser 1 "a@b.com" "Al" "$2a$longpassword" 10 10)
                    (mkUpdateProfileRequest (Some "A@B.com") None)
                    db_two_users_wf eq_refl eq_refl eq_refl eq_refl))).
    + reflexivity.
    + simpl. intros other [<- | [<- | []]] Hid; simpl in *; [congruence | discriminate].
Defined.

Lemma authenticate_exactly_witness :
  authenticate (env_hash_only 100) db_session (mkRequest "Bearer   s1 " garbage_body)
    = (Ok (mkUser 1 "a@b.com" "Al" "$2a$longpassword" 10 10), db_session) /\
  authenticate (env_fault 100 (ErrOther "connection refused")) db_session
               (mkRequest "bearer s1" garbage_body)
    = (Err errUnauthorized, db_session).
Proof.
  split.
  - apply (proj1 (authenticate_exactly (text := ascii_only) (env_hash_only 100) db_session
                    (mkRequest "Bearer   s1 " garbage_body)
                    (mkUser 1 "a@b.com" "Al" "$2a$longpassword" 10 10)
                    db_session_wf eq_refl)).
    split; [reflexivity | split; [discriminate |]].
    exists (mkTokenRow 1 "s1" 500). simpl. repeat split; auto; lia.
  - apply (proj2 (authenticate_exactly (text := ascii_only) (env_hash_only 100) db_session
                    (mkRequest "bearer s1" garbage_body)
                    (mkUser 1 "a@b.com" "Al" "$2a$longpassword" 10 10)
                    db_session_wf eq_refl)).
    now left.
Defined.

Lemma lookups_find_the_row_witness :
  GetUserByID None db_two_users 2
    = (Ok (mkUser 2 "c@d.org" "Bo" "$2a$otherpassword" 20 20), db_two_users) /\
  GetUserByEmail None db_two_users "C@D.org" = (Err ErrNoRows, db_two_users).
Proof.
  split.
  - apply (proj1 (lookups_find_the_row db_two_users
                    (mkUser 2 "c@d.org" "Bo" "$2a$otherpassword" 20 20) 2 "C@D.org"
                    db_two_users_wf)).
    simpl. auto.
  - apply (proj2 (proj2 (proj2 (lookups_find_the_row db_two_users
                    (mkUser 2 "c@d.org" "Bo" "$2a$otherpassword" 20 20) 2 "C@D.org"
                    db_two_users_wf)))).
    intros x [<- | [<- | []]]; simpl; discriminate.
Defined.

Lemma db_session_emails_normal : emails_normal db_session.
Proof. intros u [<- | []]. split; [now exists "a@b.com" | reflexivity]. Qed.

Lemma handlers_keep_emails_normal_witness :
  emails_normal (snd (handleRegister (env_hash_only 100) db_session
                        (mkRequest "" (register_body " C@D.org" "longpassword" "Bo")))).
Proof.
  exact (proj1 (handlers_keep_emails_normal (text := ascii_only) (env_hash_only 100) db_session
                  (mkRequest "" (register_body " C@D.org" "longpassword" "Bo"))
                  db_session_emails_normal)).
Defined.

Lemma forgot_then_reset_witness :
  let db1 := snd (handleForgotPassword (env_hash_only 100) db_session
                    (mkRequest "" (forgot_body "A@b.com "))) in
  fst (handleResetPassword (env_hash_only 200) db1
         (mkRequest "" (reset_body "5f2c" "newlongpw"))) = reset_done /\
  handleResetPassword (env_hash_only (100 + resetTTL)) db1
         (mkRequest "" (reset_body "5f2c" "newlongpw")) = (reset_refused, db1).
Proof.
  pose proof (fun now' => forgot_then_reset (env_hash_only 100) (env_hash_only now') db_session
                (mkRequest "" (forgot_body "A@b.com "))
                (mkRequest "" (reset_body "5f2c" "newlongpw"))
                (mkForgotPasswordRequest "A@b.com ")
                (mkResetPasswordRequest "5f2c" "newlongpw")
                (mkUser 1 "a@b.com" "Al" "$2a$longpassword" 10 10) "5f2c" "$2a$newlongpw"
                db_session_wf eq_refl (or_introl eq_refl) eq_refl eq_refl eq_refl eq_refl
                eq_refl eq_refl eq_refl eq_refl) as H.
  cbv zeta in *. split.
  - refine (proj1 (proj1 (H 200 _ _ eq_refl (fun _ => eq_refl)) _)).
    + discriminate.
    + unfold len, minPasswordLength. simpl. lia.
    + simpl. unfold resetTTL. lia.
  - refine (proj2 (H (100 + resetTTL) _ _ eq_refl (fun _ => eq_refl)) _).
    + discriminate.
    + unfold len, minPasswordLength. simpl. lia.
    + simpl. lia.
Defined.

Lemma decodeJSON_accepts_exactly_witness :
  exists input,
    decodeJSON unmarshal_RegisterRequest
      (mkBody [JObject [("EMAIL", JString "a@b.com"); ("name", JNull)]] None) = Ok input.
Proof.
  apply (proj1 (decodeJSON_accepts_exactly (text := ascii_only) _)).
  split; [reflexivity | right].
  eexists. split; [reflexivity |].
  repeat constructor; simpl; discriminate.
Defined.
